(** * PyGEM-notebooks: the statistics computed by the analysis notebooks

    A shallow embedding of the computations of
    - [analyze_regional_mcmc.ipynb] (module [Mcmc]): the per-glacier
      statistics loop over the calibration files, and
    - the multi-GCM notebook (module [Gcm]): the aggregation of the
      per-GCM annual series and the 20-year period averages,
    - the cells of [analyze_regional_mcmc.ipynb] after the loop (modules
      [Diagnostics] and [Outcome]), and
    - [analyze_mcmc.ipynb] (module [Single]): the path of the calibration
      file, the loading cell and the bounds of the truncated prior.

    Floats are idealised: a float is a rational number or NaN; infinities
    and rounding are outside the model.  Where a property depends on
    the rounding of doubles, the computation is modelled a second time
    on binary64 numbers (module [Binary64]).  Python exceptions are
    values of [exn]; a computation that can raise returns a [res].
    Module [Described] says in plain terms what the statistics are. *)

From Stdlib Require Import QArith Qround ZArith List String Ascii Lia Lqa.
From Stdlib Require Import SpecFloat.
From stdpp Require Import base option list strings pretty gmap sorting.

Open Scope string_scope.
Open Scope list_scope.

(** ** Exceptions and the error monad *)

Inductive exn : Type :=
| KeyError (key : string)
| ValueError (msg : string)
| IndexError (msg : string)
| TypeError (msg : string)
| NameError (name : string)
| OSError (msg : string)
| LibraryError (msg : string).

Inductive res (A : Type) : Type :=
| Ok (a : A)
| Raise (e : exn).
Arguments Ok {A} a.
Arguments Raise {A} e.

Definition bind {A B} (m : res A) (k : A -> res B) : res B :=
  match m with
  | Ok a => k a
  | Raise e => Raise e
  end.

Definition is_ok {A} (m : res A) : bool :=
  match m with
  | Ok _ => true
  | Raise _ => false
  end.

Notation "'do' x <- m ; k" := (bind m (fun x => k))
  (at level 10, x name, m at level 100, k at level 200,
   format "'[v' 'do'  x  <-  m ; '/' k ']'").

(** A Python [for] loop whose body may raise: the first exception ends
    the loop and is the loop's outcome. *)
Fixpoint for_each {A S} (body : A -> S -> res S) (l : list A) (s : S) : res S :=
  match l with
  | [] => Ok s
  | a :: l' => do s' <- body a s; for_each body l' s'
  end.

(** A list comprehension [[f a for a in l]]. *)
Fixpoint comprehension {A B} (f : A -> res B) (l : list A) : res (list B) :=
  match l with
  | [] => Ok []
  | a :: l' => do b <- f a; do bs <- comprehension f l'; Ok (b :: bs)
  end.

(** [d[k]] on a dict, [l[i]] and [l[-1]] on a list, [enumerate]. *)
Definition getitem {V} (d : gmap string V) (k : string) : res V :=
  match d !! k with
  | Some v => Ok v
  | None => Raise (KeyError k)
  end.

Definition list_item {A} (l : list A) (i : nat) : res A :=
  match l !! i with
  | Some a => Ok a
  | None => Raise (IndexError "list index out of range")
  end.

Definition last_item {A} (l : list A) : res A :=
  match last l with
  | Some a => Ok a
  | None => Raise (IndexError "list index out of range")
  end.

Definition enumerate {A} (l : list A) : list (nat * A) :=
  zip (seq 0 (length l)) l.

(** [l[i:j]] for non-negative [i], [j]: Python clamps both ends. *)
Definition slice {A} (i j : nat) (l : list A) : list A :=
  take (j - i) (drop i l).

(** ** Floats *)

Inductive float : Type :=
| Fin (q : Q)
| NaN.

(** ** Python values stored in the result dictionaries *)

#[warnings="-register-all"]
Inductive pyval : Type :=
| PNone
| PInt (n : Z)
| PFloat (x : float)
| PDict (d : gmap string pyval).

Definition as_dict (v : pyval) : res (gmap string pyval) :=
  match v with
  | PDict d => Ok d
  | PFloat _ => Raise (TypeError "'float' object is not subscriptable")
  | PInt _ => Raise (TypeError "'int' object is not subscriptable")
  | PNone => Raise (TypeError "'NoneType' object is not subscriptable")
  end.

(** ** The numpy functions the notebooks call

    Library models, on idealised floats.  NaN propagates through the
    plain reductions and is skipped by the [nan*] ones; the result of an
    arithmetic operation is kept in lowest terms. *)

Module Numpy.

Definition fadd (a b : float) : float :=
  match a, b with
  | Fin x, Fin y => Fin (Qred (x + y))
  | _, _ => NaN
  end.

Definition fsub (a b : float) : float :=
  match a, b with
  | Fin x, Fin y => Fin (Qred (x - y))
  | _, _ => NaN
  end.

Definition fmul (a b : float) : float :=
  match a, b with
  | Fin x, Fin y => Fin (Qred (x * y))
  | _, _ => NaN
  end.

Definition fmin (a b : float) : float :=
  match a, b with
  | Fin x, Fin y => Fin (if Qle_bool x y then x else y)
  | _, _ => NaN
  end.

Definition fmax (a b : float) : float :=
  match a, b with
  | Fin x, Fin y => Fin (if Qle_bool x y then y else x)
  | _, _ => NaN
  end.

(** Equality of floats up to the representation of the rational. *)
Definition feq (a b : float) : Prop :=
  match a, b with
  | Fin x, Fin y => (x == y)%Q
  | NaN, NaN => True
  | _, _ => False
  end.

Definition is_nan (a : float) : bool :=
  match a with
  | NaN => true
  | Fin _ => false
  end.

(** The finite entries of an array, in order. *)
Fixpoint finite (l : list float) : list Q :=
  match l with
  | [] => []
  | Fin q :: l' => q :: finite l'
  | NaN :: l' => finite l'
  end.

Definition has_nan (l : list float) : bool := existsb is_nan l.

Definition qsum (l : list Q) : Q :=
  fold_left (fun s q => Qred (s + q)) l 0%Q.

Definition qmean (l : list Q) : Q :=
  Qred (qsum l / inject_Z (Z.of_nat (length l))).

Definition qmin (x : Q) (l : list Q) : Q :=
  fold_left (fun m y => if Qle_bool m y then m else y) l x.

Definition qmax (x : Q) (l : list Q) : Q :=
  fold_left (fun m y => if Qle_bool m y then y else m) l x.

Fixpoint insert_sorted (x : Q) (l : list Q) : list Q :=
  match l with
  | [] => [x]
  | y :: l' => if Qle_bool x y then x :: l else y :: insert_sorted x l'
  end.

Definition qsort (l : list Q) : list Q := fold_right insert_sorted [] l.

(** [np.percentile] with the default linear interpolation: the virtual
    index [q/100 * (n-1)] is split into its floor and its fraction. *)
Definition qpercentile (l : list Q) (q : Q) : Q :=
  let s := qsort l in
  let n := length s in
  let pos := (q / 100 * inject_Z (Z.of_nat (n - 1)))%Q in
  let lo := Z.to_nat (Qfloor pos) in
  let hi := Nat.min (S lo) (n - 1) in
  let frac := (pos - inject_Z (Qfloor pos))%Q in
  let a := nth lo s 0%Q in
  let b := nth hi s 0%Q in
  Qred (a + frac * (b - a)).

Section Reductions.

(** The square root of the float library. *)
Variable sqrt : Q -> Q.

(** [np.min(x)], [np.max(x)]: a zero-size array raises. *)
Definition np_min (x : list float) : res float :=
  match x with
  | [] => Raise (ValueError "zero-size array to reduction operation minimum which has no identity")
  | a :: x' => Ok (fold_left fmin x' a)
  end.

Definition np_max (x : list float) : res float :=
  match x with
  | [] => Raise (ValueError "zero-size array to reduction operation maximum which has no identity")
  | a :: x' => Ok (fold_left fmax x' a)
  end.

(** [np.mean(x)]: NaN (and a warning) on a zero-size array. *)
Definition np_mean (x : list float) : float :=
  if has_nan x then NaN
  else match finite x with
       | [] => NaN
       | qs => Fin (qmean qs)
       end.

(** [np.std(x)]: the population standard deviation (ddof = 0). *)
Definition qvar (qs : list Q) : Q :=
  let m := qmean qs in
  qmean (map (fun q => Qred ((q - m) * (q - m))) qs).

Definition np_std (x : list float) : float :=
  if has_nan x then NaN
  else match finite x with
       | [] => NaN
       | qs => Fin (sqrt (qvar qs))
       end.

(** [np.percentile(x, q)] and [np.median(x)].  On a zero-size array the
    outcome of [np.percentile] depends on the numpy version; the
    notebook never gets there, [np.min] is applied first. *)
Definition np_percentile (x : list float) (q : Q) : float :=
  if has_nan x then NaN
  else match finite x with
       | [] => NaN
       | qs => Fin (qpercentile qs q)
       end.

Definition np_median (x : list float) : float :=
  if has_nan x then NaN
  else match finite x with
       | [] => NaN
       | qs =>
           let s := qsort qs in
           let n := length s in
           if Nat.even n
           then Fin (Qred ((nth (n / 2 - 1) s 0 + nth (n / 2) s 0) / 2)%Q)
           else Fin (nth (n / 2) s 0%Q)
       end.

(** [np.nanmean], [np.nanstd], [np.nanmin], [np.nanmax] of one column:
    the NaN entries are dropped; an all-NaN (or empty) column gives NaN
    with a warning.  The mean and the deviation are the exact ones; on
    doubles the mean is [Binary64.b64_mean], a rounded sum divided by
    the count. *)
Definition np_nanmean (x : list float) : float :=
  match finite x with
  | [] => NaN
  | qs => Fin (qmean qs)
  end.

Definition np_nanstd (x : list float) : float :=
  match finite x with
  | [] => NaN
  | qs => Fin (sqrt (qvar qs))
  end.

Definition np_nanmin (x : list float) : float :=
  match finite x with
  | [] => NaN
  | q :: qs => Fin (qmin q qs)
  end.

Definition np_nanmax (x : list float) : float :=
  match finite x with
  | [] => NaN
  | q :: qs => Fin (qmax q qs)
  end.

(** [np.ones(n) / d], exactly: the weight is the rational [1/d].  The
    double that the code has there is [Binary64.b64_ones_over]. *)
Definition ones_over (n : nat) (d : Z) : list float :=
  replicate n (Fin (Qred (1 / inject_Z d))).

(** The sum of products of two equally long windows. *)
Definition dot (xs ys : list float) : float :=
  fold_left fadd (zip_with fmul xs ys) (Fin 0%Q).

(** [np.convolve(a, v, mode='valid')].  numpy swaps the operands when
    [v] is the longer one, refuses an empty operand, and returns the
    [max(M, N) - min(M, N) + 1] positions where the shorter operand,
    reversed, lies entirely inside the longer one. *)
Definition np_convolve_valid (a v : list float) : res (list float) :=
  let '(a, v) := if (length a <? length v)%nat then (v, a) else (a, v) in
  match a, v with
  | [], _ => Raise (ValueError "a cannot be empty")
  | _, [] => Raise (ValueError "v cannot be empty")
  | _, _ =>
      let n := length v in
      Ok (map (fun k => dot (take n (drop k a)) (reverse v))
              (seq 0 (length a - n + 1)))
  end.

(** [np.vstack(rows)] of 1-D rows: at least one row, all of one length. *)
Definition np_vstack (rows : list (list float)) : res (list (list float)) :=
  match rows with
  | [] => Raise (ValueError "need at least one array to concatenate")
  | r :: rs =>
      if forallb (fun r0 => (length r0 =? length r)%nat) rs
      then Ok rows
      else Raise (ValueError "all the input array dimensions except for the concatenation axis must match exactly")
  end.

(** Column [j] of a stacked array, and a reduction along axis 0. *)
Definition column (rows : list (list float)) (j : nat) : list float :=
  map (fun r => nth j r NaN) rows.

Definition along_axis0 (f : list float -> float) (rows : list (list float))
  : list float :=
  match rows with
  | [] => []
  | r :: _ => map (fun j => f (column rows j)) (seq 0 (length r))
  end.

End Reductions.

End Numpy.

(** ** numpy on doubles

    The same calls on IEEE 754 binary64 numbers, every operation rounded
    to the nearest double, ties to even. *)

Module Binary64.

Definition prec : Z := 53.
Definition emax : Z := 1024.

Definition b64_of_Z (n : Z) : spec_float :=
  binary_normalize prec emax n 0 false.

Definition b64_add : spec_float -> spec_float -> spec_float :=
  SFadd prec emax.

Definition b64_mul : spec_float -> spec_float -> spec_float :=
  SFmul prec emax.

Definition b64_div : spec_float -> spec_float -> spec_float :=
  SFdiv prec emax.

(** The double nearest to a rational. *)
Definition b64_of_Q (q : Q) : spec_float :=
  b64_div (b64_of_Z (Qnum q)) (b64_of_Z (Z.pos (Qden q))).

(** The number a finite double stands for. *)
Definition b64_to_Q (x : spec_float) : option Q :=
  match x with
  | S754_zero _ => Some 0%Q
  | S754_finite s m e =>
      let n := if s then Z.neg m else Z.pos m in
      Some (Qred (match e with
                  | Z0 => inject_Z n
                  | Z.pos p => inject_Z (n * Z.pow_pos 2 p)
                  | Z.neg p => Qmake n (Pos.pow 2 p)
                  end))
  | S754_infinity _ | S754_nan => None
  end.

(** [np.ones(n) / d] *)
Definition b64_ones_over (n : nat) (d : Z) : list spec_float :=
  replicate n (b64_div (b64_of_Z 1) (b64_of_Z d)).

(** The sum of products of two equally long windows. *)
Definition b64_dot (xs ys : list spec_float) : spec_float :=
  fold_left b64_add (zip_with b64_mul xs ys) (b64_of_Z 0).

(** [np.convolve(a, v, mode='valid')] *)
Definition b64_convolve_valid (a v : list spec_float)
  : res (list spec_float) :=
  let '(a, v) := if (length a <? length v)%nat then (v, a) else (a, v) in
  match a, v with
  | [], _ => Raise (ValueError "a cannot be empty")
  | _, [] => Raise (ValueError "v cannot be empty")
  | _, _ =>
      let n := length v in
      Ok (map (fun k => b64_dot (take n (drop k a)) (reverse v))
              (seq 0 (length a - n + 1)))
  end.

(** [np.convolve(chain, np.ones(100)/100, mode='valid')] *)
Definition b64_rolling (x : list spec_float) : res (list spec_float) :=
  b64_convolve_valid x (b64_ones_over 100 100).

(** [np.mean] and [np.nanmean] of numbers: the sum, divided by the
    count. *)
Definition b64_mean (x : list spec_float) : spec_float :=
  b64_div (fold_left b64_add x (b64_of_Z 0))
          (b64_of_Z (Z.of_nat (length x))).

(** [100*(count/n)] of the percentage of the plotting cell. *)
Definition b64_share (count n : Z) : spec_float :=
  b64_mul (b64_of_Z 100) (b64_div (b64_of_Z count) (b64_of_Z n)).

End Binary64.

(** ** Python string operations used on the file names *)

Module Str.

(** [s.split(sep)] for a one-character separator. *)
Fixpoint split (sep : ascii) (s : string) : list string :=
  match s with
  | EmptyString => [EmptyString]
  | String c s' =>
      if Ascii.eqb c sep then EmptyString :: split sep s'
      else match split sep s' with
           | [] => [String c EmptyString]
           | w :: ws => String c w :: ws
           end
  end.

(** [s[:n]]. *)
Definition prefix (n : nat) (s : string) : string := substring 0 n s.

(** [sep in s]. *)
Fixpoint contains (sep : ascii) (s : string) : bool :=
  match s with
  | EmptyString => false
  | String c s' => Ascii.eqb c sep || contains sep s'
  end.




(** [a, b = l]. *)
Definition unpack2 (l : list string) : res (string * string) :=
  match l with
  | [a; b] => Ok (a, b)
  | [] | [_] => Raise (ValueError "not enough values to unpack (expected 2)")
  | _ => Raise (ValueError "too many values to unpack (expected 2)")
  end.

End Str.

(** ** analyze_regional_mcmc.ipynb: statistics of the calibration chains *)

Module Mcmc.

Import Numpy.

(** The ["MCMC"] entry of a calibration file, restricted to what the loop
    reads: variable name, then chain name, then the chain's samples. *)
Abbreviation prms := (gmap string (gmap string (list float))).

(** A calibration file: its path, and what [open(f)] followed by
    [json.load(fin)['MCMC']] gives. *)
Record calib_file : Type := {
  path : string;
  load_mcmc : res prms
}.

(** The RGI table: rows of glacier number and area. *)
Abbreviation rgi_table := (list (string * float)).

Definition chain_ns : list nat := [0; 1; 2]%nat.

Definition ks : list string := ["kp"; "tbias"; "ddfsnow"; "ddfice"; "mb_mwea"].

Definition stats_ks : list string :=
  ["min"; "max"; "median"; "mean"; "std"; "iqr"; "n_eff"].

(** [f'chain_{n}'] *)
Definition chain_key (n : nat) : string := "chain_" +:+ pretty n.


(** A path returned by [glob.glob(datpath + '/*-modelprms_dict.json')]
    ends with the literal part of the pattern. *)
Definition from_glob (f : string) : Prop :=
  exists stem, f = stem +:+ "-modelprms_dict.json".

Section Routine.

(** [np.sqrt], [pygem.mcmc.effective_n], and the arviz pipeline
    [az.rhat(az.from_dict(posterior={k: np.array(chains)}))]: external
    libraries, taken as they are.  [effective_n] never raises: it
    returns an [int], or [None] when it cannot compute one. *)
Variable sqrt : Q -> Q.
Variable effective_n : list float -> option Z.
Variable az_rhat : list (list float) -> res float.

(** What [mcmc.effective_n(x)] leaves in the dict. *)
Definition n_eff_of (x : list float) : pyval :=
  match effective_n x with
  | Some n => PInt n
  | None => PNone
  end.

Definition stats : list (list float -> res pyval) :=
  [ (fun x => do v <- np_min x; Ok (PFloat v));
    (fun x => do v <- np_max x; Ok (PFloat v));
    (fun x => Ok (PFloat (np_median x)));
    (fun x => Ok (PFloat (np_mean x)));
    (fun x => Ok (PFloat (np_std sqrt x)));
    (fun x => Ok (PFloat (fsub (np_percentile x 75) (np_percentile x 25))));
    (fun x => Ok (n_eff_of x)) ].

(** [glac_stats[k][c] = v] and [glac_stats[k][c][s] = v]: the dicts are
    created in the loop and reachable only through [glac_stats], so an
    update in place is an update along the path. *)
Definition store2 (k c : string) (v : pyval) (gs : gmap string pyval)
  : res (gmap string pyval) :=
  do vk <- getitem gs k;
  do dk <- as_dict vk;
  Ok (<[k := PDict (<[c := v]> dk)]> gs).

Definition store3 (k c s : string) (v : pyval) (gs : gmap string pyval)
  : res (gmap string pyval) :=
  do vk <- getitem gs k;
  do dk <- as_dict vk;
  do vc <- getitem dk c;
  do dc <- as_dict vc;
  Ok (<[k := PDict (<[c := PDict (<[s := v]> dc)]> dk)]> gs).

(** [glac_stats[k][f'chain_{n}'][s] = stats[i](prms_dict[k][f'chain_{n}'])] *)
Definition stat_body (prms_dict : prms) (k c : string) (ix : nat * string)
    (gs : gmap string pyval) : res (gmap string pyval) :=
  do fn <- list_item stats ix.1;
  do pk <- getitem prms_dict k;
  do x <- getitem pk c;
  do v <- fn x;
  store3 k c ix.2 v gs.

Definition chain_body (prms_dict : prms) (k : string) (n : nat)
    (gs : gmap string pyval) : res (gmap string pyval) :=
  do gs <- store2 k (chain_key n) (PDict ∅) gs;
  for_each (stat_body prms_dict k (chain_key n)) (enumerate stats_ks) gs.

Definition var_body (prms_dict : prms) (k : string)
    (gs : gmap string pyval) : res (gmap string pyval) :=
  let gs := <[k := PDict ∅]> gs in
  do gs <- for_each (chain_body prms_dict k) chain_ns gs;
  do chains <- comprehension
                 (fun n => do pk <- getitem prms_dict k;
                           getitem pk (chain_key n)) chain_ns;
  do r <- az_rhat chains;
  store2 k "rhat" (PFloat r) gs.

(** [stats[i](rolling_ar)] for the keys [stats_ks[:-2]] *)
Definition ar_stat_body (c : string) (rolling_ar : list float)
    (ix : nat * string) (gs : gmap string pyval) : res (gmap string pyval) :=
  do fn <- list_item stats ix.1;
  do v <- fn rolling_ar;
  store3 "ar" c ix.2 v gs.

Definition rolling (x : list float) : res (list float) :=
  np_convolve_valid x (ones_over 100 100).

Definition ar_body (prms_dict : prms) (n : nat)
    (gs : gmap string pyval) : res (gmap string pyval) :=
  do gs <- store2 "ar" (chain_key n) (PDict ∅) gs;
  do par <- getitem prms_dict "ar";
  do x <- getitem par (chain_key n);
  do rolling_ar <- rolling x;
  for_each (ar_stat_body (chain_key n) rolling_ar)
           (enumerate (take (length stats_ks - 2) stats_ks)) gs.

(** The body of the [with open(f)] block, from [glac_stats = {}] on. *)
Definition chain_stats (prms_dict : prms) : res (gmap string pyval) :=
  do gs <- for_each (var_body prms_dict) ks ∅;
  let gs := <["ar" := PDict ∅]> gs in
  for_each (ar_body prms_dict) chain_ns gs.

(** [float(rgi_glacs.loc[rgi_glacs['glacno'] == glacno, 'Area'].iloc[0])] *)
Definition area_of (rgi_glacs : rgi_table) (glacno : string) : res float :=
  match filter (fun row => row.1 = glacno) rgi_glacs with
  | row :: _ => Ok row.2
  | [] => Raise (IndexError "single positional indexer is out-of-bounds")
  end.

(** [reg, glacno = f.split('/')[-1].split('.')[:2]] and
    [glacno = reg + '.' + glacno[:5]] *)
Definition glacno_of (f : string) : res string :=
  do base <- last_item (Str.split "/" f);
  do rg <- Str.unpack2 (take 2 (Str.split "." base));
  Ok (rg.1 +:+ "." +:+ Str.prefix 5 rg.2).

(** Everything in the [try] after [glacno] is bound, up to the value
    stored in [mcmc_stats]. *)
Definition glac_stats_of (rgi_glacs : rgi_table) (f : calib_file)
    (glacno : string) : res (gmap string pyval) :=
  do prms_dict <- load_mcmc f;
  do gs <- chain_stats prms_dict;
  do a <- area_of rgi_glacs glacno;
  Ok (<["area" := PFloat a]> gs).

(** The notebook state the loop touches: the result dictionary, the
    variable [glacno] (unbound before the first file) and what was
    printed, as pairs of the two arguments of [print]. *)
Record state : Type := {
  mcmc_stats : gmap string pyval;
  glacno : option string;
  stdout : list (string * exn)
}.

Definition init : state :=
  {| mcmc_stats := ∅; glacno := None; stdout := [] |}.

(** [except Exception as err: print(glacno, err)] *)
Definition handler (err : exn) (st : state) : res state :=
  match glacno st with
  | None => Raise (NameError "glacno")
  | Some g =>
      Ok {| mcmc_stats := mcmc_stats st;
            glacno := glacno st;
            stdout := stdout st ++ [(g, err)] |}
  end.

(** One iteration of [for f in sorted(glob.glob(...))]. *)
Definition file_body (rgi_glacs : rgi_table) (f : calib_file) (st : state)
  : res state :=
  match glacno_of (path f) with
  | Raise err => handler err st
  | Ok g =>
      let st := {| mcmc_stats := mcmc_stats st;
                   glacno := Some g;
                   stdout := stdout st |} in
      match glac_stats_of rgi_glacs f g with
      | Raise err => handler err st
      | Ok gs =>
          Ok {| mcmc_stats := <[g := PDict gs]> (mcmc_stats st);
                glacno := glacno st;
                stdout := stdout st |}
      end
  end.

Definition run (rgi_glacs : rgi_table) (files : list calib_file) (st : state)
  : res state :=
  for_each (file_body rgi_glacs) files st.

(** *** What the loops build, stated without loops *)

(** The seven statistics of one chain. *)
Definition chain_summary (x : list float) (d : gmap string pyval) : Prop :=
  ∃ mn mx,
    np_min x = Ok mn ∧ np_max x = Ok mx ∧
    d = list_to_map
          [("min", PFloat mn); ("max", PFloat mx);
           ("median", PFloat (np_median x)); ("mean", PFloat (np_mean x));
           ("std", PFloat (np_std sqrt x));
           ("iqr", PFloat (fsub (np_percentile x 75) (np_percentile x 25)));
           ("n_eff", n_eff_of x)].

(** The entry of one variable: a dict per chain and one r-hat. *)
Definition var_summary (prms_dict : prms) (k : string)
    (dk : gmap string pyval) : Prop :=
  ∃ pk x0 x1 x2 d0 d1 d2 r,
    prms_dict !! k = Some pk ∧
    pk !! "chain_0" = Some x0 ∧ pk !! "chain_1" = Some x1 ∧
    pk !! "chain_2" = Some x2 ∧
    chain_summary x0 d0 ∧ chain_summary x1 d1 ∧ chain_summary x2 d2 ∧
    az_rhat [x0; x1; x2] = Ok r ∧
    dk = list_to_map
           [("chain_0", PDict d0); ("chain_1", PDict d1);
            ("chain_2", PDict d2); ("rhat", PFloat r)].

(** The five statistics of one rolling acceptance rate. *)
Definition ar_chain_summary (x : list float) (d : gmap string pyval) : Prop :=
  ∃ rolling_ar mn mx,
    rolling x = Ok rolling_ar ∧
    np_min rolling_ar = Ok mn ∧ np_max rolling_ar = Ok mx ∧
    d = list_to_map
          [("min", PFloat mn); ("max", PFloat mx);
           ("median", PFloat (np_median rolling_ar));
           ("mean", PFloat (np_mean rolling_ar));
           ("std", PFloat (np_std sqrt rolling_ar))].

Definition ar_summary (prms_dict : prms) (dar : gmap string pyval) : Prop :=
  ∃ par x0 x1 x2 d0 d1 d2,
    prms_dict !! "ar" = Some par ∧
    par !! "chain_0" = Some x0 ∧ par !! "chain_1" = Some x1 ∧
    par !! "chain_2" = Some x2 ∧
    ar_chain_summary x0 d0 ∧ ar_chain_summary x1 d1 ∧
    ar_chain_summary x2 d2 ∧
    dar = list_to_map
            [("chain_0", PDict d0); ("chain_1", PDict d1);
             ("chain_2", PDict d2)].

(** The value built for one value of a loop index, and the dict a loop
    of stores leaves at one place. *)
Definition stat_value (prms_dict : prms) (k c : string) (ix : nat * string)
  : res pyval :=
  do fn <- list_item stats ix.1;
  do pk <- getitem prms_dict k;
  do x <- getitem pk c;
  do v <- fn x;
  Ok v.

Definition ar_stat_value (rolling_ar : list float) (ix : nat * string)
  : res pyval :=
  do fn <- list_item stats ix.1;
  do v <- fn rolling_ar;
  Ok v.

Definition fill {A} (val : A -> res pyval) (key : A -> string)
    (l : list A) (d : gmap string pyval) : res (gmap string pyval) :=
  for_each (fun a d => do v <- val a; Ok (<[key a := v]> d)) l d.

End Routine.

End Mcmc.

(** ** The multi-GCM notebook: ensemble bands and period averages *)

Module Gcm.

Import Numpy.

(** [ds['glac_runoff_monthly'][0]] with its time coordinate: consecutive
    months, the first one month [month0] (1 to 12) of year [year0].  The
    monthly runoff values are finite. *)
Record monthly : Type := {
  year0 : Z;
  month0 : nat;
  values : list Q
}.

(** One GCM output file, glacier index 0. *)
Record dataset : Type := {
  glac_runoff_monthly : monthly;
  glac_area_annual : list float;
  glac_mass_annual : list float;
  year : list Z
}.

(** The calendar year of the [i]-th month of a series. *)
Definition year_of_index (s : monthly) (i : nat) : Z :=
  (year0 s + Z.of_nat ((month0 s - 1 + i) / 12))%Z.

(** The values of the months of calendar year [y], in time order. *)
Definition months_of_year (s : monthly) (y : Z) : list Q :=
  (filter (fun iv => year_of_index s iv.1 = y) (enumerate (values s))).*2.

(** [ds.resample(time='YE').sum('time')]: the months are walked in time
    order; [acc] is the sum of the months seen so far in the calendar
    year of the month numbered [month]; December closes the bin. *)
Fixpoint year_bins (month : nat) (acc : Q) (vs : list Q) : list Q :=
  match vs with
  | [] => [acc]
  | v :: vs' =>
      if (month =? 12)%nat then acc :: year_bins 1 v vs'
      else year_bins (S month) (Qred (acc + v)) vs'
  end.

(** A series without any month cannot be resampled: xarray raises. *)
Definition resample_YE_sum (s : monthly) : res (list Q) :=
  match values s with
  | [] => Raise (ValueError "__resample_dim__ must not be empty")
  | v :: vs => Ok (year_bins (month0 s) v vs)
  end.

(** What the three inner loops append for one file. *)
Definition annual_runoff_of (ds : dataset) : res (list float) :=
  do sums <- resample_YE_sum (glac_runoff_monthly ds);
  Ok (map Fin sums).

Definition annual_area_of (ds : dataset) : list float :=
  drop 1 (glac_area_annual ds).

Definition annual_mass_of (ds : dataset) : list float :=
  drop 1 (glac_mass_annual ds).

(** [ds.year.values[:-1]] *)
Definition model_years (ds : dataset) : list Z :=
  take (length (year ds) - 1) (year ds).

Definition scenarios : list string := ["ssp245"; "ssp370"; "ssp585"].

Definition periods : list (Z * Z) :=
  [(2001, 2020); (2021, 2040); (2041, 2060); (2061, 2080); (2081, 2100)]%Z.

(** The notebook variables the two cells share. *)
Record state : Type := {
  results : gmap string (gmap string (list float));
  year_var : option (list Z)
}.

(** [results[scenario][key] = v] *)
Definition store (scenario key : string) (v : list float)
    (r : gmap string (gmap string (list float)))
  : res (gmap string (gmap string (list float))) :=
  do d <- getitem r scenario;
  Ok (<[scenario := <[key := v]> d]> r).

(** The period cell's output.  [print(scenario)] gives a [ScenarioLine];
    the line of a period carries the scenario, the period and the two
    numbers [runoff_avg] and [runoff_sig] that the f-string shows scaled
    by 1e-9 and rounded to three decimals. *)
Record report : Type := {
  rep_scenario : string;
  rep_period : Z * Z;
  runoff_avg : float;
  runoff_sig : float
}.

Inductive line : Type :=
| ScenarioLine (scenario : string)
| PeriodLine (r : report).

(** A loop whose body prints one line or raises: what has been printed
    stays printed when an iteration raises. *)
Fixpoint print_each {A} (body : A -> res line) (l : list A) (out : list line)
  : list line * option exn :=
  match l with
  | [] => (out, None)
  | a :: l' =>
      match body a with
      | Ok ln => print_each body l' (out ++ [ln])
      | Raise e => (out, Some e)
      end
  end.

(** [year.index(val)] *)
Fixpoint index (val : Z) (l : list Z) : res nat :=
  match l with
  | [] => Raise (ValueError (pretty val +:+ " is not in list"))
  | y :: l' => if (y =? val)%Z then Ok 0%nat
               else do i <- index val l'; Ok (S i)
  end.

Section Cells.

Variable sqrt : Q -> Q.

(** The sorted output files of each scenario, opened. *)
Variable fns : string -> list dataset.

(** The body of [for scenario in scenarios]. *)
Definition scenario_body (scenario : string) (st : state) : res state :=
  let r := <[scenario := ∅]> (results st) in
  let files := fns scenario in
  (* runoff *)
  do annual_runoff <- comprehension annual_runoff_of files;
  do stacked_runoff <- np_vstack annual_runoff;
  do r <- store scenario "mean_runoff" (along_axis0 np_nanmean stacked_runoff) r;
  do r <- store scenario "std_runoff" (along_axis0 (np_nanstd sqrt) stacked_runoff) r;
  do r <- store scenario "min_runoff" (along_axis0 np_nanmin stacked_runoff) r;
  do r <- store scenario "max_runoff" (along_axis0 np_nanmax stacked_runoff) r;
  (* area *)
  let annual_area := map annual_area_of files in
  do stacked_area <- np_vstack annual_area;
  do r <- store scenario "mean_area" (along_axis0 np_nanmean stacked_area) r;
  do r <- store scenario "std_area" (along_axis0 (np_nanstd sqrt) stacked_area) r;
  do r <- store scenario "min_area" (along_axis0 np_nanmin stacked_area) r;
  do r <- store scenario "max_area" (along_axis0 np_nanmax stacked_area) r;
  (* mass; the loop over the files also rebinds [year] *)
  let annual_mass := map annual_mass_of files in
  let yr := match last files with
            | Some ds => Some (model_years ds)
            | None => year_var st
            end in
  do stacked_mass <- np_vstack annual_mass;
  do r <- store scenario "std_mass" (along_axis0 (np_nanstd sqrt) stacked_mass) r;
  do r <- store scenario "mean_mass" (along_axis0 np_nanmean stacked_mass) r;
  do r <- store scenario "min_mass" (along_axis0 np_nanmin stacked_mass) r;
  do r <- store scenario "max_mass" (along_axis0 np_nanmax stacked_mass) r;
  Ok {| results := r; year_var := yr |}.

(** The aggregation cell, from [results = {}]. *)
Definition aggregate (st : state) : res state :=
  for_each scenario_body scenarios
           {| results := ∅; year_var := year_var st |}.

(** The body of [for period in periods]. *)
Definition period_body (st : state) (scenario : string) (period : Z * Z)
  : res line :=
  do yr <- match year_var st with
           | Some y => Ok y
           | None => Raise (NameError "year")
           end;
  do i0 <- index period.1 yr;
  do i1 <- index period.2 yr;
  do d <- getitem (results st) scenario;
  do mr <- getitem d "mean_runoff";
  let window := slice i0 (i1 + 1) mr in
  Ok (PeriodLine {| rep_scenario := scenario;
                    rep_period := period;
                    runoff_avg := np_mean window;
                    runoff_sig := np_std sqrt window |}).

(** The period cell: for each scenario, its name and then its periods. *)
Fixpoint period_loop (st : state) (l : list string) (out : list line)
  : list line * option exn :=
  match l with
  | [] => (out, None)
  | scenario :: l' =>
      match print_each (period_body st scenario) periods
                       (out ++ [ScenarioLine scenario]) with
      | (out, None) => period_loop st l' out
      | (out, Some e) => (out, Some e)
      end
  end.

Definition period_averages (st : state) : list line * option exn :=
  period_loop st scenarios [].

(** *** What the cells compute, stated without loops *)

(** [l] is the reduction [f] of the equally long [series], year by
    year across the GCMs. *)
Definition band (f : list float -> float) (series : list (list float))
    (l : list float) : Prop :=
  exists m,
    series <> [] /\ Forall (fun s => length s = m) series /\
    length l = m /\
    forall j, (j < m)%nat -> l !! j = Some (f (column series j)).

Definition bands (q : string) (series : list (list float))
    (d : gmap string (list float)) : Prop :=
  (exists l, d !! ("mean_" +:+ q) = Some l /\ band np_nanmean series l) /\
  (exists l, d !! ("std_" +:+ q) = Some l /\ band (np_nanstd sqrt) series l) /\
  (exists l, d !! ("min_" +:+ q) = Some l /\ band np_nanmin series l) /\
  (exists l, d !! ("max_" +:+ q) = Some l /\ band np_nanmax series l).

(** [i] is [l.index(y)]: the first position of [y]. *)
Definition first_index (l : list Z) (y : Z) (i : nat) : Prop :=
  l !! i = Some y /\ forall j, (j < i)%nat -> l !! j <> Some y.

(** Each entry is the year after the entry before. *)
Definition consecutive (l : list Z) : Prop :=
  forall i a b, l !! i = Some a -> l !! S i = Some b -> b = (a + 1)%Z.

(** What the line of a period holds: the mean and the standard
    deviation of the slice of [results[scenario]['mean_runoff']]
    between the positions of the two years in [year]; the slice has 20
    entries when the years are consecutive, the period spans 20 years
    and the list is as long as [year]. *)
Definition period_line_ok (st : state) (r : report) : Prop :=
  exists yr i0 i1 d mr,
    year_var st = Some yr /\
    first_index yr (rep_period r).1 i0 /\
    first_index yr (rep_period r).2 i1 /\
    results st !! rep_scenario r = Some d /\
    d !! "mean_runoff" = Some mr /\
    runoff_avg r = np_mean (slice i0 (i1 + 1) mr) /\
    runoff_sig r = np_std sqrt (slice i0 (i1 + 1) mr) /\
    (consecutive yr -> (length yr <= length mr)%nat ->
     ((rep_period r).2 = (rep_period r).1 + 19)%Z ->
     length (slice i0 (i1 + 1) mr) = 20%nat).

End Cells.

End Gcm.

(** ** Concrete inputs on which the models are run *)

Module Demo.

Import Numpy.

(** Stand-ins for the external float and diagnostics libraries: a square
    root with three decimals, the chain length for the effective sample
    size, and the constant 1 for r-hat. *)
Definition sqrt (q : Q) : Q :=
  Qred (Z.sqrt (Qfloor (q * 1000000)) # 1000).

Definition effective_n (x : list float) : option Z :=
  Some (Z.of_nat (length x)).

Definition az_rhat (chains : list (list float)) : res float :=
  Ok (Fin 1).

Definition three_chains (x : list float) : gmap string (list float) :=
  list_to_map [("chain_0", x); ("chain_1", x); ("chain_2", x)].

(** A calibration whose parameter chains are [x] and whose
    acceptance-rate chains are [ar]. *)
Definition calibration (x ar : list float) : Mcmc.prms :=
  list_to_map
    [("kp", three_chains x); ("tbias", three_chains x);
     ("ddfsnow", three_chains x); ("ddfice", three_chains x);
     ("mb_mwea", three_chains x); ("ar", three_chains ar)].

Definition samples : list float := [Fin 3; Fin 1; Fin 2; Fin 10].

Definition ramp (n : nat) : list float :=
  map (fun i => Fin (inject_Z (Z.of_nat i))) (seq 0 n).

Definition kennicott : Mcmc.calib_file :=
  {| Mcmc.path := "/data/Output/calibration/01//1.15645-modelprms_dict.json";
     Mcmc.load_mcmc := Ok (calibration samples (ramp 101)) |}.

(** The same glacier number up to the fifth digit. *)
Definition kennicott_long : Mcmc.calib_file :=
  {| Mcmc.path := "/data/Output/calibration/01//1.156450-modelprms_dict.json";
     Mcmc.load_mcmc := Ok (calibration (ramp 5) (ramp 100)) |}.

(** Acceptance-rate chains of four samples. *)
Definition short_ar : Mcmc.calib_file :=
  {| Mcmc.path := "/data/Output/calibration/01//1.00001-modelprms_dict.json";
     Mcmc.load_mcmc := Ok (calibration samples samples) |}.

(** A file that cannot be parsed: [json.load] raises its
    [JSONDecodeError], a [ValueError]. *)
Definition broken : Mcmc.calib_file :=
  {| Mcmc.path := "/data/Output/calibration/01//1.00002-modelprms_dict.json";
     Mcmc.load_mcmc :=
       Raise (ValueError "Expecting value: line 1 column 1 (char 0)") |}.



(** An acceptance-rate chain of 100 samples: 0.546875, 0.0390625 and 98
    zeros, all of them doubles. *)
Definition sparse_ar : list Q :=
  [35 # 64; 5 # 128]%Q ++ replicate 98 0%Q.

Definition rgi_glacs : Mcmc.rgi_table :=
  [("1.00001", Fin 2); ("1.00002", Fin 3); ("1.15645", Fin (4275 # 10))].

(** A GCM output file of a simulation over [n] calendar years from
    January of year [y0]: a runoff of [v] every month, and the annual
    area, mass and year arrays with their [n + 1] entries. *)
Definition gcm_file (y0 : Z) (n : nat) (v : Q) : Gcm.dataset :=
  {| Gcm.glac_runoff_monthly :=
       {| Gcm.year0 := y0; Gcm.month0 := 1; Gcm.values := replicate (12 * n) v |};
     Gcm.glac_area_annual := replicate (S n) (Fin 100);
     Gcm.glac_mass_annual := replicate (S n) (Fin 5);
     Gcm.year := map (fun i => (y0 + Z.of_nat i)%Z) (seq 0 (S n)) |}.

(** Two GCMs per scenario, all simulated from 2000 through 2100. *)
Definition fns (scenario : string) : list Gcm.dataset :=
  [gcm_file 2000 101 1; gcm_file 2000 101 3].

(** The same, except that the files of ssp245 start in 2015. *)
Definition uneven_fns (scenario : string) : list Gcm.dataset :=
  if String.eqb scenario "ssp245"
  then [gcm_file 2015 86 1; gcm_file 2015 86 3]
  else [gcm_file 2000 101 1; gcm_file 2000 101 3].

Definition fresh : Gcm.state :=
  {| Gcm.results := ∅; Gcm.year_var := None |}.



(** A series that starts in October 1999 and ends in March 2001. *)
Definition water_year : Gcm.dataset :=
  {| Gcm.glac_runoff_monthly :=
       {| Gcm.year0 := 1999; Gcm.month0 := 10;
          Gcm.values := map (fun i => inject_Z (Z.of_nat i)) (seq 1 18) |};
     Gcm.glac_area_annual := [];
     Gcm.glac_mass_annual := [];
     Gcm.year := [] |}.

End Demo.

(** ** analyze_regional_mcmc.ipynb: the cells after the loop *)

Module Diagnostics.

Import Numpy.

(** An outcome of a cell that also divides two Python ints. *)
Inductive cell (A : Type) : Type :=
| Done (a : A)
| Raised (e : exn)
| ZeroDivisionError.
Arguments Done {A} a.
Arguments Raised {A} e.
Arguments ZeroDivisionError {A}.

Definition lift {A} (m : res A) : cell A :=
  match m with
  | Ok a => Done a
  | Raise e => Raised e
  end.

(** A stored value read as a number by numpy or [float()]: [None] and
    a dict are not numbers. *)
Definition as_float (v : pyval) : res float :=
  match v with
  | PFloat x => Ok x
  | PInt n => Ok (Fin (inject_Z n))
  | PNone => Raise (TypeError "unsupported operand type(s) for +: 'NoneType' and 'int'")
  | PDict _ => Raise (TypeError "float() argument must be a string or a real number, not 'dict'")
  end.

(** [mcmc_stats[g][k][s]] and [mcmc_stats[g][k][c][s]], read as numbers. *)
Definition stat3 (mcmc_stats : gmap string pyval) (g k s : string) : res float :=
  do vg <- getitem mcmc_stats g;
  do dg <- as_dict vg;
  do vk <- getitem dg k;
  do dk <- as_dict vk;
  do v <- getitem dk s;
  as_float v.

Definition item4 (mcmc_stats : gmap string pyval) (g k c s : string)
  : res pyval :=
  do vg <- getitem mcmc_stats g;
  do dg <- as_dict vg;
  do vk <- getitem dg k;
  do dk <- as_dict vk;
  do vc <- getitem dk c;
  do dc <- as_dict vc;
  getitem dc s.

Definition stat4 (mcmc_stats : gmap string pyval) (g k c s : string)
  : res float :=
  do v <- item4 mcmc_stats g k c s;
  as_float v.

(** [x > c] and [x >= c] on floats: a comparison with NaN is false. *)
Definition gt (x : float) (c : Q) : bool :=
  match x with
  | Fin q => negb (Qle_bool q c)
  | NaN => false
  end.

Definition ge (x : float) (c : Q) : bool :=
  match x with
  | Fin q => Qle_bool c q
  | NaN => false
  end.

(** The variables that the two cells look at. *)
Definition plot_ks : list string := ["mb_mwea"; "kp"; "tbias"; "ddfsnow"].

(** [np.where(np.array(rhats) > 1.1)[0]]: the positions, in order, of the
    entries above the threshold; [j] is the position of the head. *)
Fixpoint where_gt (c : Q) (j : nat) (rhats : list float) : list nat :=
  match rhats with
  | [] => []
  | x :: rhats' =>
      if gt x c then j :: where_gt c (S j) rhats'
      else where_gt c (S j) rhats'
  end.

(** [[mcmc_stats[g][k]['rhat'] for g in mcmc_stats.keys()]] *)
Definition rhats_of (mcmc_stats : gmap string pyval) (glac_ns : list string)
    (k : string) : res (list float) :=
  comprehension (fun g => stat3 mcmc_stats g k "rhat") glac_ns.

(** The cell that collects the glaciers with an r-hat above 1.1.
    [glac_ns] is [list(mcmc_stats.keys())], the keys in dict order. *)
Definition check_body (glac_ns : list string) (j : nat)
    (glacs_check : list string) : res (list string) :=
  do g <- list_item glac_ns j;
  if bool_decide (g ∈ glacs_check) then Ok glacs_check
  else Ok (glacs_check ++ [g]).

Definition check_var (mcmc_stats : gmap string pyval) (glac_ns : list string)
    (k : string) (glacs_check : list string) : res (list string) :=
  do rhats <- rhats_of mcmc_stats glac_ns k;
  let mask := where_gt (11 # 10) 0 rhats in
  for_each (check_body glac_ns) mask glacs_check.

Definition glacs_check_cell (mcmc_stats : gmap string pyval)
    (glac_ns : list string) : res (list string) :=
  for_each (check_var mcmc_stats glac_ns) plot_ks [].

(** [round(x)] of Python: to the nearest integer, a tie to the even one. *)
Definition py_round (q : Q) : Z :=
  let f := Qfloor q in
  let r := (q - inject_Z f)%Q in
  match Qcompare r (1 # 2) with
  | Lt => f
  | Gt => (f + 1)%Z
  | Eq => if Z.even f then f else (f + 1)%Z
  end.

(** [np.nanmean([mcmc_stats[g][k][f'chain_{n}'][s] for n in [0,1,2]])]:
    the list is built first; [np.nanmean] then raises [TypeError] when
    an entry is [None]. *)
Definition chains_mean (mcmc_stats : gmap string pyval) (g k s : string)
  : res float :=
  do vs <- comprehension
             (fun n => item4 mcmc_stats g k (Mcmc.chain_key n) s)
             [0; 1; 2]%nat;
  do xs <- comprehension as_float vs;
  Ok (np_nanmean xs).

(** [int(round(100*(np.count_nonzero(np.asarray(n_effs)>=100)/len(n_effs))))],
    with the quotient and the product computed exactly.  On doubles the
    product is [Binary64.b64_share], which can fall on the other side
    of a half: 23 glaciers of 40 give 58 here and 57 there. *)
Definition percentage (n_effs : list float) : cell Z :=
  let count := length (filter (fun x => ge x 100 = true) n_effs) in
  match n_effs with
  | [] => ZeroDivisionError
  | _ => Done (py_round (100 * (inject_Z (Z.of_nat count)
                                / inject_Z (Z.of_nat (length n_effs)))))
  end.

(** What the plotting cell computes for one variable: the r-hat and the
    mean effective sample size of every glacier, and the percentage of
    glaciers whose mean effective sample size is at least 100. *)
Record panel : Type := {
  rhats : list float;
  n_effs : list float;
  pct : Z
}.

Definition panel_of (mcmc_stats : gmap string pyval) (glac_ns : list string)
    (k : string) : cell panel :=
  match rhats_of mcmc_stats glac_ns k with
  | Raise e => Raised e
  | Ok rh =>
      match comprehension (fun g => chains_mean mcmc_stats g k "n_eff")
                          glac_ns with
      | Raise e => Raised e
      | Ok ne =>
          match percentage ne with
          | Done p => Done {| rhats := rh; n_effs := ne; pct := p |}
          | Raised e => Raised e
          | ZeroDivisionError => ZeroDivisionError
          end
      end
  end.

(** The plotting cell: the areas, one panel per variable of [plot_ks], and
    the mean acceptance rate of every glacier, computed in the order of
    the cell.  The calls that draw are left out. *)
Fixpoint panels (mcmc_stats : gmap string pyval) (glac_ns : list string)
    (l : list string) : cell (list panel) :=
  match l with
  | [] => Done []
  | k :: l' =>
      match panel_of mcmc_stats glac_ns k with
      | Done p =>
          match panels mcmc_stats glac_ns l' with
          | Done ps => Done (p :: ps)
          | Raised e => Raised e
          | ZeroDivisionError => ZeroDivisionError
          end
      | Raised e => Raised e
      | ZeroDivisionError => ZeroDivisionError
      end
  end.

Record figure : Type := {
  xs : list float;
  fig_panels : list panel;
  ars : list float
}.

Definition as_top_float (mcmc_stats : gmap string pyval) (g s : string)
  : res float :=
  do vg <- getitem mcmc_stats g;
  do dg <- as_dict vg;
  do v <- getitem dg s;
  as_float v.

Definition plot_cell (mcmc_stats : gmap string pyval) (glac_ns : list string)
  : cell figure :=
  match comprehension (fun g => as_top_float mcmc_stats g "area") glac_ns with
  | Raise e => Raised e
  | Ok areas =>
      match panels mcmc_stats glac_ns plot_ks with
      | Raised e => Raised e
      | ZeroDivisionError => ZeroDivisionError
      | Done ps =>
          match comprehension (fun g => chains_mean mcmc_stats g "ar" "mean")
                              glac_ns with
          | Raise e => Raised e
          | Ok a => Done {| xs := areas; fig_panels := ps; ars := a |}
          end
      end
  end.

(** [mcmc_stats[list(mcmc_stats.keys())[0]]] *)
Definition first_entry (mcmc_stats : gmap string pyval) (glac_ns : list string)
  : res pyval :=
  do g <- list_item glac_ns 0;
  getitem mcmc_stats g.

(** An entry of [mcmc_stats] as the loop leaves it: the area, the r-hat
    of each plotted variable and the mean acceptance rate of each chain
    are numbers; the effective sample size of a chain is an int or
    [None]. *)
Definition left_by_loop (mcmc_stats : gmap string pyval) (g : string) : Prop :=
  is_ok (as_top_float mcmc_stats g "area") = true /\
  (forall k, k ∈ plot_ks ->
     is_ok (stat3 mcmc_stats g k "rhat") = true /\
     forall n, n ∈ Mcmc.chain_ns ->
       item4 mcmc_stats g k (Mcmc.chain_key n) "n_eff" = Ok PNone \/
       exists z, item4 mcmc_stats g k (Mcmc.chain_key n) "n_eff" = Ok (PInt z)) /\
  (forall n, n ∈ Mcmc.chain_ns ->
     is_ok (stat4 mcmc_stats g "ar" (Mcmc.chain_key n) "mean") = true).

(** An entry of [mcmc_stats] in which the cells find what they read:
    the area, and for each plotted variable the r-hat and the effective
    sample size of each chain, and the mean acceptance rate of each
    chain. *)
Definition readable (mcmc_stats : gmap string pyval) (g : string) : Prop :=
  is_ok (as_top_float mcmc_stats g "area") = true /\
  (forall k, k ∈ plot_ks ->
     is_ok (stat3 mcmc_stats g k "rhat") = true /\
     forall n, n ∈ Mcmc.chain_ns ->
       is_ok (stat4 mcmc_stats g k (Mcmc.chain_key n) "n_eff") = true) /\
  (forall n, n ∈ Mcmc.chain_ns ->
     is_ok (stat4 mcmc_stats g "ar" (Mcmc.chain_key n) "mean") = true).

End Diagnostics.

(** ** analyze_regional_mcmc.ipynb: which files are stored, which printed *)

Module Outcome.

Import Numpy Mcmc.

Section Routine.

Variable sqrt : Q -> Q.
Variable effective_n : list float -> option Z.
Variable az_rhat : list (list float) -> res float.

(** The three chains of a variable, as the loop reads them. *)
Definition chains_of (pk : gmap string (list float)) : option (list (list float)) :=
  x0 ← pk !! chain_key 0; x1 ← pk !! chain_key 1; x2 ← pk !! chain_key 2;
  Some [x0; x1; x2].

(** A variable that the loop can process: its three chains are there
    and non-empty, and the r-hat pipeline accepts them. *)
Definition var_ok (prms_dict : prms) (k : string) : Prop :=
  exists pk chains,
    prms_dict !! k = Some pk /\ chains_of pk = Some chains /\
    Forall (fun x => x <> []) chains /\
    is_ok (az_rhat chains) = true.

(** Acceptance rates that the loop can process: three non-empty chains. *)
Definition ar_ok (prms_dict : prms) : Prop :=
  exists par chains,
    prms_dict !! "ar" = Some par /\ chains_of par = Some chains /\
    Forall (fun x => x <> []) chains.

(** The lines printed by the loop: one per file whose [try] raises. *)
Definition failure (rgi_glacs : rgi_table) (f : calib_file)
  : option (string * exn) :=
  match glacno_of (path f) with
  | Ok g =>
      match glac_stats_of sqrt effective_n az_rhat rgi_glacs f g with
      | Ok _ => None
      | Raise err => Some (g, err)
      end
  | Raise _ => None
  end.

Definition failures (rgi_glacs : rgi_table) (files : list calib_file)
  : list (string * exn) :=
  omap (failure rgi_glacs) files.

(** [list(mcmc_stats.keys())] after the loop: a dict keeps its keys in
    the order of their first insertion. *)
Definition keys_step (rgi_glacs : rgi_table) (keys : list string)
    (f : calib_file) : list string :=
  match glacno_of (path f) with
  | Ok g =>
      match glac_stats_of sqrt effective_n az_rhat rgi_glacs f g with
      | Ok _ => if bool_decide (g ∈ keys) then keys else keys ++ [g]
      | Raise _ => keys
      end
  | Raise _ => keys
  end.

Definition keys_after (rgi_glacs : rgi_table) (files : list calib_file)
  : list string :=
  foldl (keys_step rgi_glacs) [] files.

End Routine.

End Outcome.

(** ** The multi-GCM notebook: when the aggregation goes through *)

Module Ensemble.

Import Numpy Gcm.

(** Series that [np.vstack] accepts: at least one, all of one length. *)
Definition stackable (series : list (list float)) : Prop :=
  series <> [] /\ exists m, Forall (fun s => length s = m) series.

(** The three stacks of one scenario: the monthly runoff of every file
    has at least one month, and the annual series of the files can be
    stacked. *)
Definition scenario_ok (fns : string -> list dataset) (scenario : string)
  : Prop :=
  (exists series,
     Forall2 (fun ds s => annual_runoff_of ds = Ok s) (fns scenario) series /\
     stackable series) /\
  stackable (map annual_area_of (fns scenario)) /\
  stackable (map annual_mass_of (fns scenario)).

(** The year that [list.index] names when an end of a period is not
    in [yr]: the first year of the period when that one is missing,
    else the last. *)
Definition missing_year (yr : list Z) (period : Z * Z) : Z :=
  if decide (period.1 ∈ yr) then period.2 else period.1.

(** [a <= m <= b] on floats that are all numbers, or all three NaN. *)
Definition between (a m b : float) : Prop :=
  match a, m, b with
  | Fin x, Fin y, Fin z => (x <= y <= z)%Q
  | NaN, NaN, NaN => True
  | _, _, _ => False
  end.

End Ensemble.

(** ** A region with one glacier to check *)

Module Survey.

Import Numpy.

(** A stand-in for r-hat that grows with the spread of the first chain. *)
Definition spread_rhat (chains : list (list float)) : res float :=
  match chains with
  | x :: _ =>
      do mx <- np_max x;
      do mn <- np_min x;
      Ok (fadd (Fin 1) (fmul (fsub mx mn) (Fin (1 # 20))))
  | [] => Raise (ValueError "need at least one array to stack")
  end.

(** Chains of two samples, 0 and 1. *)
Definition gulkana : Mcmc.calib_file :=
  {| Mcmc.path := "/data/Output/calibration/01//1.00570-modelprms_dict.json";
     Mcmc.load_mcmc := Ok (Demo.calibration (Demo.ramp 2) (Demo.ramp 100)) |}.

Definition glaciers : Mcmc.rgi_table :=
  [("1.00570", Fin (16 # 1)); ("1.15645", Fin (4275 # 10))].

Definition files : list Mcmc.calib_file := [gulkana; Demo.kennicott].

(** A stand-in for [effective_n] that gives up on chains of fewer than
    three samples. *)
Definition cautious_n (x : list float) : option Z :=
  if (length x <? 3)%nat then None else Some (Z.of_nat (length x)).

(** [mcmc_stats] after the loop over the two files. *)
Definition region_stats : gmap string pyval :=
  match Mcmc.run Demo.sqrt Demo.effective_n spread_rhat glaciers files Mcmc.init with
  | Ok st => Mcmc.mcmc_stats st
  | Raise _ => ∅
  end.

End Survey.

(** ** Simulations that end a year early *)

Module Shorter.

(** Two GCMs per scenario, simulated from 2000 through 2099. *)
Definition files_of (scenario : string) : list Gcm.dataset :=
  [Demo.gcm_file 2000 100 1; Demo.gcm_file 2000 100 3].

(** The notebook state after the aggregation cell. *)
Definition aggregated : Gcm.state :=
  match Gcm.aggregate Demo.sqrt files_of Demo.fresh with
  | Ok st => st
  | Raise _ => Demo.fresh
  end.

End Shorter.

(** ** analyze_mcmc.ipynb: one glacier *)

Module Single.

Import Diagnostics.

(** [s.zfill(width)]: zeros on the left, after a leading sign. *)
Fixpoint zeros (n : nat) : string :=
  match n with
  | O => ""
  | S n' => String "0" (zeros n')
  end.

Definition zfill (width : nat) (s : string) : string :=
  let pad := zeros (width - String.length s) in
  match s with
  | String c rest =>
      if (Ascii.eqb c "+" || Ascii.eqb c "-")%bool
      then String c (pad +:+ rest)
      else pad +:+ s
  | EmptyString => pad
  end.

(** [prms_path], with [glac_no] standing for [str(glac_no)] and [root]
    for [pygem_prms['root']]. *)
Definition prms_path (root glac_no : string) : res string :=
  do reg <- list_item (Str.split "." glac_no) 0;
  Ok (root +:+ "/Output/calibration/" +:+ zfill 2 reg +:+ "/"
      +:+ glac_no +:+ "-modelprms_dict.json").

(** The variables of the kernel that the first cells bind, and what they
    print. *)
Record kernel : Type := {
  prms : option (gmap string pyval);
  printed : list string
}.

Definition print (s : string) (k : kernel) : kernel :=
  {| prms := prms k; printed := printed k ++ [s] |}.

(** The cell that loads the calibration file.  [file] is [None] when
    [os.path.isfile(prms_path)] is false, and otherwise what
    [json.load(f)] gives. *)
Definition load_cell (glac_no : string)
    (file : option (res (gmap string pyval))) (k : kernel) : res kernel :=
  match file with
  | Some loaded =>
      do d <- loaded;
      let k := {| prms := Some d; printed := printed k |} in
      if bool_decide ("MCMC" ∈ dom d)
      then Ok (print ("MCMC calibration parameters found for " +:+ glac_no
                      +:+ ", proceed!") k)
      else Ok (print ("Warning: MCMC calibration parameters not found for "
                      +:+ glac_no
                      +:+ "! Has MCMC calibration been completed successfully for this glacier?") k)
  | None =>
      Ok (print ("Warning: Calibration parameter data does not exist for "
                 +:+ glac_no
                 +:+ "! Has calibration been completed successfully for this glacier?") k)
  end.

(** [prms['MCMC']], the first thing the plotting cell evaluates. *)
Definition mcmc_of (k : kernel) : res pyval :=
  match prms k with
  | None => Raise (NameError "prms")
  | Some d => getitem d "MCMC"
  end.

(** The bounds handed to [truncnorm] for the prior of ddfsnow:
    [a, b = (lower_bound - mean) / std_dev, (upper_bound - mean) / std_dev]
    after the four values are scaled by [1e3].  The operands are Python
    floats, so a zero [std_dev] raises. *)
Definition trunc_bounds (mu sigma low high : Q) : cell (Q * Q) :=
  let mean := (mu * 1000)%Q in
  let std_dev := (sigma * 1000)%Q in
  let lower_bound := (low * 1000)%Q in
  let upper_bound := (high * 1000)%Q in
  if Qeq_bool std_dev 0 then ZeroDivisionError
  else Done (Qred ((lower_bound - mean) / std_dev),
             Qred ((upper_bound - mean) / std_dev)).

End Single.

(** ** The statistics in the words of the description

    Stated on rationals and without the functions of [Numpy]: what it
    means for a number to be the mean, the median, a percentile, the
    variance, the least or the greatest of a list of numbers. *)

Module Described.

(** The sum of the numbers. *)
Definition total (qs : list Q) : Q := fold_right Qplus 0%Q qs.

(** [m] is the arithmetic mean of [qs]: their sum divided by their
    number. *)
Definition mean_of (qs : list Q) (m : Q) : Prop :=
  qs <> [] /\ (m * inject_Z (Z.of_nat (length qs)) == total qs)%Q.











End Described.

(** * Properties *)

(** ** The error monad and the loops *)

Module MonadFacts.

Lemma bind_Ok {A B} (m : res A) (k : A -> res B) b :
  bind m k = Ok b -> exists a, m = Ok a /\ k a = Ok b.
Proof. destruct m as [a|e]; simpl; [eauto | discriminate]. Qed.

Lemma is_ok_true {A} (m : res A) : is_ok m = true -> exists a, m = Ok a.
Proof. destruct m as [a|e]; [by exists a | discriminate]. Defined.

Lemma bind_assoc {A B C} (m : res A) (k : A -> res B) (h : B -> res C) :
  bind (bind m k) h = bind m (fun a => bind (k a) h).
Proof. by destruct m. Qed.

Lemma for_each_app {A S} (body : A -> S -> res S) l1 l2 s :
  for_each body (l1 ++ l2) s
  = bind (for_each body l1 s) (for_each body l2).
Proof.
  revert s. induction l1 as [|a l1 IH]; intros s; simpl; [done|].
  destruct (body a s); simpl; [apply IH | done].
Qed.

Lemma for_each_ext {A S} (body body' : A -> S -> res S) l s :
  (forall a s, body a s = body' a s) ->
  for_each body l s = for_each body' l s.
Proof.
  intros E. revert s. induction l as [|a l IH]; intros s; simpl; [done|].
  rewrite E. destruct (body' a s); simpl; [apply IH | done].
Qed.

Lemma getitem_Ok {V} (d : gmap string V) k v :
  getitem d k = Ok v <-> d !! k = Some v.
Proof. unfold getitem. destruct (d !! k); split; congruence. Qed.

End MonadFacts.

(** Splits a hypothesis [do x <- m; k = Ok b] into its two steps. *)
Tactic Notation "inv_bind" hyp(H) "as" simple_intropattern(a) ident(E) :=
  apply MonadFacts.bind_Ok in H; destruct H as (a & E & H).

(** Comprehensions over a fallible function. *)

Lemma comprehension_Forall2 {A B} (f : A -> res B) l bs :
  comprehension f l = Ok bs <-> Forall2 (fun a b => f a = Ok b) l bs.
Proof.
  revert bs. induction l as [|a l IH]; intros bs; simpl.
  - split.
    + intros [= <-]. constructor.
    + intros H. by apply Forall2_nil_inv_l in H as ->.
  - split.
    + intros H. inv_bind H as b Hb. inv_bind H as bs' Hbs.
      injection H as <-. constructor; [done|]. by apply IH.
    + intros H. apply Forall2_cons_inv_l in H as (b & bs' & Hb & Hbs & ->).
      apply IH in Hbs. by rewrite Hb, Hbs.
Qed.

Lemma comprehension_ok {A B} (f : A -> res B) l :
  (forall a, a ∈ l -> is_ok (f a) = true) ->
  exists bs, comprehension f l = Ok bs.
Proof.
  induction l as [|a l IH]; intros H; [by eexists|]. simpl.
  destruct (MonadFacts.is_ok_true (f a)) as [b ->]; [apply H; left|].
  destruct IH as [bs ->]; [intros a' Ha'; apply H; by right|].
  by eexists.
Qed.

(** ** The numpy models *)

Module NumpyFacts.

Import Numpy.

#[export] Instance feq_equiv : Equivalence feq.
Proof.
  split.
  - intros [q|]; simpl; [reflexivity | exact I].
  - by intros [x|] [y|].
  - intros [x|] [y|] [z|]; simpl; try done. intros H1 H2. by etransitivity.
Qed.

#[export] Instance fadd_proper : Proper (feq ==> feq ==> feq) fadd.
Proof.
  intros [x|] [x'|] Hx [y|] [y'|] Hy; simpl in *; try done.
  by rewrite !Qred_correct, Hx, Hy.
Qed.

#[export] Instance fmul_proper : Proper (feq ==> feq ==> feq) fmul.
Proof.
  intros [x|] [x'|] Hx [y|] [y'|] Hy; simpl in *; try done.
  by rewrite !Qred_correct, Hx, Hy.
Qed.

Lemma fold_fadd_nan l : fold_left fadd l NaN = NaN.
Proof. induction l as [|a l IH]; simpl; [done|]. by rewrite IH. Qed.

Lemma fold_fadd_proper l a a' :
  feq a a' -> feq (fold_left fadd l a) (fold_left fadd l a').
Proof.
  revert a a'. induction l as [|b l IH]; intros a a' H; simpl; [done|].
  apply IH. by rewrite H.
Qed.

(** *** Sums *)

Lemma qsum_from l a :
  (fold_left (fun s q => Qred (s + q)) l a == a + qsum l)%Q.
Proof.
  unfold qsum. revert a. induction l as [|q l IH]; intros a; simpl.
  - ring.
  - rewrite (IH (Qred (a + q))), (IH (Qred (0 + q))), !Qred_correct. ring.
Qed.

Lemma qsum_cons q l : (qsum (q :: l) == q + qsum l)%Q.
Proof.
  unfold qsum at 1. simpl. rewrite qsum_from, Qred_correct. ring.
Qed.

Lemma qsum_app l1 l2 : (qsum (l1 ++ l2) == qsum l1 + qsum l2)%Q.
Proof.
  induction l1 as [|q l1 IH]; simpl.
  - unfold qsum at 2. simpl. ring.
  - rewrite !qsum_cons, IH. ring.
Qed.

Lemma finite_app l1 l2 : finite (l1 ++ l2) = finite l1 ++ finite l2.
Proof.
  induction l1 as [|[q|] l1 IH]; simpl; [done| |done]. by rewrite IH.
Qed.

Lemma has_nan_app l1 l2 : has_nan (l1 ++ l2) = has_nan l1 || has_nan l2.
Proof. apply existsb_app. Qed.

Lemma finite_length l : has_nan l = false -> length (finite l) = length l.
Proof.
  induction l as [|[q|] l IH]; simpl; [done| |done].
  intros H. by rewrite IH.
Qed.

(** *** Minimum and maximum *)

Lemma qmin_least x l :
  qmin x l ∈ x :: l /\ forall y, y ∈ x :: l -> (qmin x l <= y)%Q.
Proof.
  unfold qmin. revert x. induction l as [|z l IH]; intros x; simpl.
  - split; [left|]. intros y Hy. apply list_elem_of_singleton in Hy as ->.
    apply Qle_refl.
  - destruct (IH (if Qle_bool x z then x else z)) as [Hin Hle]. split.
    + apply elem_of_cons in Hin as [->|Hin].
      * destruct (Qle_bool x z); [left | right; left].
      * right. by right.
    + intros y Hy.
      assert (Hm : ((if Qle_bool x z then x else z) <= x
                    /\ (if Qle_bool x z then x else z) <= z)%Q).
      { destruct (Qle_bool x z) eqn:E.
        - apply Qle_bool_iff in E. split; [apply Qle_refl | done].
        - split; [|apply Qle_refl]. apply Qlt_le_weak, Qnot_le_lt.
          intros C. apply Qle_bool_iff in C. congruence. }
      destruct Hm as [Hx Hz].
      apply elem_of_cons in Hy as [->|Hy].
      * eapply Qle_trans; [apply Hle; left | done].
      * apply elem_of_cons in Hy as [->|Hy].
        -- eapply Qle_trans; [apply Hle; left | done].
        -- apply Hle. by right.
Qed.

Lemma qmax_greatest x l :
  qmax x l ∈ x :: l /\ forall y, y ∈ x :: l -> (y <= qmax x l)%Q.
Proof.
  unfold qmax. revert x. induction l as [|z l IH]; intros x; simpl.
  - split; [left|]. intros y Hy. apply list_elem_of_singleton in Hy as ->.
    apply Qle_refl.
  - destruct (IH (if Qle_bool x z then z else x)) as [Hin Hle]. split.
    + apply elem_of_cons in Hin as [->|Hin].
      * destruct (Qle_bool x z); [right; left | left].
      * right. by right.
    + intros y Hy.
      assert (Hm : (x <= (if Qle_bool x z then z else x)
                    /\ z <= (if Qle_bool x z then z else x))%Q).
      { destruct (Qle_bool x z) eqn:E.
        - apply Qle_bool_iff in E. split; [done | apply Qle_refl].
        - split; [apply Qle_refl|]. apply Qlt_le_weak, Qnot_le_lt.
          intros C. apply Qle_bool_iff in C. congruence. }
      destruct Hm as [Hx Hz].
      apply elem_of_cons in Hy as [->|Hy].
      * eapply Qle_trans; [done | apply Hle; left].
      * apply elem_of_cons in Hy as [->|Hy].
        -- eapply Qle_trans; [done | apply Hle; left].
        -- apply Hle. by right.
Qed.





(** *** The rolling mean as a convolution *)

Lemma zip_with_replicate_r {A B C} (f : A -> B -> C) w y n :
  length w <= n -> zip_with f w (replicate n y) = map (fun a => f a y) w.
Proof.
  revert n. induction w as [|a w IH]; intros [|n] H; simpl in *;
    [done | done | lia |].
  f_equal. apply IH. lia.
Qed.

Lemma zip_with_replicate_l {A B C} (f : A -> B -> C) w x n :
  length w <= n -> zip_with f (replicate n x) w = map (f x) w.
Proof.
  revert n. induction w as [|a w IH]; intros [|n] H; simpl in *;
    [done | done | lia |].
  f_equal. apply IH. lia.
Qed.

(** A sum of entries that are each scaled by [c]. *)
Lemma scaled_sum (g : float -> float) (c : Q) :
  g NaN = NaN ->
  (forall q, feq (g (Fin q)) (Fin (q * c))) ->
  forall w a,
    feq (fold_left fadd (map g w) (Fin a))
        (if has_nan w then NaN else Fin (a + qsum (finite w) * c)).
Proof.
  intros Hnan Hfin. induction w as [|[q|] w IH]; intros a; simpl.
  - unfold qsum. simpl. ring.
  - specialize (Hfin q). destruct (g (Fin q)) as [q'|]; [|done].
    simpl in Hfin. simpl. rewrite IH.
    destruct (has_nan w); simpl; [done|].
    rewrite Qred_correct, qsum_cons, Hfin. ring.
  - by rewrite Hnan, fold_fadd_nan.
Qed.

Lemma dot_ones_r w n d :
  length w <= n ->
  feq (dot w (ones_over n d))
      (if has_nan w then NaN else Fin (qsum (finite w) / inject_Z d)).
Proof.
  intros H. unfold dot, ones_over. rewrite zip_with_replicate_r by done.
  rewrite (scaled_sum _ (1 / inject_Z d)).
  - destruct (has_nan w); simpl; [done|]. unfold Qdiv. ring.
  - done.
  - intros q. simpl. by rewrite !Qred_correct.
Qed.

Lemma dot_ones_l w n d :
  length w <= n ->
  feq (dot (ones_over n d) w)
      (if has_nan w then NaN else Fin (qsum (finite w) / inject_Z d)).
Proof.
  intros H. unfold dot, ones_over. rewrite zip_with_replicate_l by done.
  rewrite (scaled_sum _ (1 / inject_Z d)).
  - destruct (has_nan w); simpl; [done|]. unfold Qdiv. ring.
  - done.
  - intros q. simpl. rewrite !Qred_correct. ring.
Qed.

Lemma has_nan_reverse l : has_nan (reverse l) = has_nan l.
Proof.
  induction l as [|a l IH]; [done|].
  rewrite reverse_cons, has_nan_app, IH. simpl.
  rewrite orb_false_r. apply orb_comm.
Qed.

Lemma qsum_finite_reverse l :
  (qsum (finite (reverse l)) == qsum (finite l))%Q.
Proof.
  induction l as [|[q|] l IH]; [done| |].
  - rewrite reverse_cons, finite_app, qsum_app, IH. simpl.
    rewrite !qsum_cons. unfold qsum at 2. simpl. ring.
  - rewrite reverse_cons, finite_app, qsum_app, IH. simpl.
    unfold qsum at 2. simpl. ring.
Qed.

Lemma reverse_ones n d : reverse (ones_over n d) = ones_over n d.
Proof. apply reverse_replicate. Qed.

Lemma window_ones m k n d :
  take m (drop k (ones_over n d)) = ones_over (Nat.min m (n - k)) d.
Proof. unfold ones_over. by rewrite drop_replicate, take_replicate. Qed.

(** [np.mean] of an array of [n > 0] entries. *)
Lemma np_mean_sum w :
  w <> [] ->
  feq (np_mean w)
      (if has_nan w then NaN
       else Fin (qsum (finite w) / inject_Z (Z.of_nat (length w)))).
Proof.
  intros Hw. unfold np_mean. destruct (has_nan w) eqn:Hn; [done|].
  pose proof (finite_length _ Hn) as Hl.
  destruct (finite w) as [|q qs] eqn:Hf.
  - destruct w; [done | discriminate].
  - simpl. unfold qmean. by rewrite Qred_correct, Hl.
Qed.

(** The 'valid' convolution with a window of [n] equal weights [1/n],
    when the array is at least as long as the window: a rolling mean. *)
Lemma convolve_window x n :
  (0 < n)%nat -> (n <= length x)%nat ->
  exists r,
    np_convolve_valid x (ones_over n (Z.of_nat n)) = Ok r /\
    length r = (length x - n + 1)%nat /\
    forall i, (i < length r)%nat ->
      exists v, r !! i = Some v /\
                v = dot (slice i (i + n) x) (ones_over n (Z.of_nat n)) /\
                feq v (np_mean (slice i (i + n) x)).
Proof.
  intros Hn Hx. unfold np_convolve_valid.
  assert (Hlen : length (ones_over n (Z.of_nat n)) = n)
    by apply length_replicate.
  rewrite Hlen. destruct (Nat.ltb_spec (length x) n) as [|_]; [lia|].
  destruct x as [|a x]; [simpl in Hx; lia|].
  destruct (ones_over n (Z.of_nat n)) as [|o os] eqn:Ho; [simpl in Hlen; lia|].
  rewrite <- Ho in Hlen |- *. eexists. split; [done|].
  rewrite length_map, length_seq, !Hlen. split; [done|].
  intros i Hi. rewrite list_lookup_fmap, lookup_seq_lt by done. simpl.
  eexists. split; [done|].
  rewrite reverse_ones.
  assert (Hs : slice i (i + n) (a :: x) = take n (drop i (a :: x))).
  { unfold slice. f_equal. lia. }
  rewrite Hs. split; [done|].
  assert (Hw : length (take n (drop i (a :: x))) = n).
  { rewrite length_take, length_drop. lia. }
  rewrite dot_ones_r by lia.
  rewrite np_mean_sum; [by rewrite Hw|].
  intros C. rewrite C in Hw. simpl in Hw. lia.
Qed.

(** The same call when the array is the shorter operand: numpy swaps
    the operands, and every entry is the sum of the whole array divided
    by [n]. *)
Lemma convolve_short x n :
  x <> [] -> (length x < n)%nat ->
  exists r,
    np_convolve_valid x (ones_over n (Z.of_nat n)) = Ok r /\
    length r = (n - length x + 1)%nat /\
    forall v, v ∈ r ->
      feq v (if has_nan x then NaN
             else Fin (qsum (finite x) / inject_Z (Z.of_nat n))).
Proof.
  intros Hne Hx. unfold np_convolve_valid.
  assert (Hlen : length (ones_over n (Z.of_nat n)) = n)
    by apply length_replicate.
  rewrite Hlen. destruct (Nat.ltb_spec (length x) n) as [_|]; [|lia].
  destruct x as [|a x]; [done|].
  destruct (ones_over n (Z.of_nat n)) as [|o os] eqn:Ho; [simpl in Hlen; lia|].
  rewrite <- Ho in Hlen |- *. eexists. split; [done|].
  rewrite length_map, length_seq, !Hlen. split; [done|].
  intros v Hv. apply list_elem_of_fmap in Hv as (i & -> & Hi).
  apply elem_of_seq in Hi.
  rewrite window_ones, dot_ones_l by (rewrite length_reverse; lia).
  rewrite has_nan_reverse. destruct (has_nan (a :: x)); [done|].
  simpl. by rewrite qsum_finite_reverse.
Qed.

Lemma convolve_empty v : v <> [] ->
  np_convolve_valid [] v = Raise (ValueError "v cannot be empty").
Proof. by destruct v. Qed.

End NumpyFacts.

(** ** The numpy models compute the described statistics *)

Module DescribedFacts.

Import Numpy Described NumpyFacts.

Lemma qsum_total qs : (qsum qs == total qs)%Q.
Proof.
  induction qs as [|q qs IH]; [done|].
  rewrite qsum_cons, IH. done.
Qed.


Lemma length_pos_Q {A} (l : list A) :
  l <> [] -> ~ (inject_Z (Z.of_nat (length l)) == 0)%Q.
Proof.
  intros Hl. change 0%Q with (inject_Z 0). rewrite inject_Z_injective.
  destruct l; [done|]. simpl. lia.
Qed.

Lemma qmean_mean qs : qs <> [] -> mean_of qs (qmean qs).
Proof.
  intros Hne. split; [done|]. unfold qmean.
  rewrite Qred_correct, qsum_total.
  field. by apply length_pos_Q.
Qed.


(** *** Sorting *)







(** *** Median and percentiles *)




(** *** Arrays of numbers *)

Lemma finite_numbers qs : finite (map Fin qs) = qs.
Proof. induction qs as [|q qs IH]; [done|]. simpl. by rewrite IH. Qed.

Lemma has_nan_numbers qs : has_nan (map Fin qs) = false.
Proof. by induction qs. Qed.


(** *** The NaN-ignoring reductions *)






End DescribedFacts.

(** ** Where doubles part from exact arithmetic *)

Module Binary64Facts.

Import Numpy Binary64.

(** The samples of [Demo.sparse_ar] are doubles. *)
Lemma sparse_ar_doubles :
  omap b64_to_Q (map b64_of_Q Demo.sparse_ar) = Demo.sparse_ar.
Proof. vm_compute. reflexivity. Qed.

(** The weight of the rolling window is the double nearest to 0.01,
    which is not 1/100. *)
Lemma weight_is_rounded :
  b64_ones_over 100 100
  = replicate 100 (S754_finite false 5764607523034235 (-59)) /\
  b64_to_Q (S754_finite false 5764607523034235 (-59))
  = Some (5764607523034235 # 576460752303423488)%Q /\
  ~ (5764607523034235 # 576460752303423488 == 1 # 100)%Q.
Proof.
  split; [vm_compute; reflexivity|]. split; [vm_compute; reflexivity|].
  intros H. vm_compute in H. discriminate H.
Qed.

(** Three GCMs with 0.1 in a year: the mean that [np.nanmean] computes
    on doubles, [(0.1 + 0.1 + 0.1) / 3], is above the maximum 0.1. *)
Lemma mean_above_the_maximum :
  SFltb (b64_of_Q (1 # 10)) (b64_mean (replicate 3 (b64_of_Q (1 # 10))))
  = true.
Proof. vm_compute. reflexivity. Qed.

(** 23 glaciers of 40: the product [100*(23/40)] is below 57.5 on
    doubles and rounds to 57; the exact product is 57.5 and rounds to
    58. *)
Lemma share_below_the_half :
  exists q,
    b64_to_Q (b64_share 23 40) = Some q /\ (q < 115 # 2)%Q /\
    (57 < q)%Q /\
    Diagnostics.py_round (100 * (23 / 40)) = 58%Z.
Proof.
  eexists. split; [vm_compute; reflexivity|].
  repeat split; vm_compute; reflexivity.
Qed.

End Binary64Facts.

(** ** Splitting file names *)

Module StrFacts.

Import Str.

Lemma contains_app sep a b :
  contains sep (a +:+ b) = contains sep a || contains sep b.
Proof.
  induction a as [|c a IH]; simpl; [done|].
  rewrite IH. by destruct (Ascii.eqb c sep).
Qed.

Lemma split_without sep s : contains sep s = false -> split sep s = [s].
Proof.
  induction s as [|c s IH]; simpl; [done|].
  destruct (Ascii.eqb c sep); simpl; [done|].
  intros H. by rewrite IH.
Qed.

(** A string with a separator splits into at least two parts. *)
Lemma split_with sep s :
  contains sep s = true -> exists a b rest, split sep s = a :: b :: rest.
Proof.
  induction s as [|c s IH]; simpl; [done|].
  destruct (Ascii.eqb c sep); simpl.
  - intros _. destruct s as [|c' s]; simpl; [by eexists _, _, _|].
    destruct (Ascii.eqb c' sep); [by eexists _, _, _|].
    destruct (split sep s); by eexists _, _, _.
  - intros H. destruct (IH H) as (a & b & rest & ->). by eexists _, _, _.
Qed.

(** Appending text without separators only extends the last part. *)
Lemma split_app_without sep suf :
  contains sep suf = false ->
  forall p, exists ws w,
    split sep p = ws ++ [w] /\ split sep (p +:+ suf) = ws ++ [w +:+ suf].
Proof.
  intros Hsuf. induction p as [|c p (ws & w & Hp & Hps)]; simpl.
  - exists [], "". by rewrite split_without.
  - destruct (Ascii.eqb c sep).
    + exists ("" :: ws), w. by rewrite Hp, Hps.
    + rewrite Hp, Hps. destruct ws as [|w0 ws]; simpl.
      * by exists [], (String c w).
      * by exists (String c w0 :: ws), w.
Qed.

Lemma split_nonempty sep s : split sep s <> [].
Proof.
  destruct s as [|c s]; simpl; [done|].
  destruct (Ascii.eqb c sep); [done|]. by destruct (split sep s).
Qed.

(** Splitting at a separator that is there splits on both sides of it. *)
Lemma split_app_sep sep a b :
  split sep (a +:+ String sep b) = split sep a ++ split sep b.
Proof.
  induction a as [|c a IH]; simpl.
  - by rewrite Ascii.eqb_refl.
  - destruct (Ascii.eqb c sep); [rewrite IH; reflexivity|].
    rewrite IH. destruct (split sep a) eqn:E; [|reflexivity].
    by apply split_nonempty in E.
Qed.



End StrFacts.

(** ** The per-glacier statistics *)

Module McmcFacts.

Import Numpy Mcmc Described MonadFacts NumpyFacts DescribedFacts StrFacts.

Section WithLibraries.

Variable sqrt : Q -> Q.
Variable effective_n : list float -> option Z.
Variable az_rhat : list (list float) -> res float.

Local Abbreviation stats := (stats sqrt effective_n).
Local Abbreviation stat_body := (stat_body sqrt effective_n).
Local Abbreviation stat_value := (stat_value sqrt effective_n).
Local Abbreviation ar_stat_body := (ar_stat_body sqrt effective_n).
Local Abbreviation ar_stat_value := (ar_stat_value sqrt effective_n).
Local Abbreviation chain_body := (chain_body sqrt effective_n).
Local Abbreviation var_body := (var_body sqrt effective_n az_rhat).
Local Abbreviation ar_body := (ar_body sqrt effective_n).
Local Abbreviation chain_stats := (chain_stats sqrt effective_n az_rhat).
Local Abbreviation glac_stats_of := (glac_stats_of sqrt effective_n az_rhat).
Local Abbreviation file_body := (file_body sqrt effective_n az_rhat).
Local Abbreviation run := (run sqrt effective_n az_rhat).
Local Abbreviation chain_summary := (chain_summary sqrt effective_n).
Local Abbreviation var_summary := (var_summary sqrt effective_n az_rhat).
Local Abbreviation ar_chain_summary := (ar_chain_summary sqrt).
Local Abbreviation ar_summary := (ar_summary sqrt).

(** Two dicts built by stores to distinct literal keys, in different
    orders. *)
Ltac same_dict :=
  apply map_eq; intros ?; simpl;
  repeat rewrite lookup_insert;
  repeat (case_decide; simplify_eq; try done).

(** A key is not one of the five variables. *)
Lemma not_in_ks k :
  bool_decide (k ∈ ks) = false -> k ∉ ks.
Proof. apply bool_decide_eq_false_1. Qed.

Lemma store2_at k c v (gs dk : gmap string pyval) :
  gs !! k = Some (PDict dk) ->
  store2 k c v gs = Ok (<[k := PDict (<[c := v]> dk)]> gs).
Proof. intros H. unfold store2, getitem. by rewrite H. Qed.

Lemma store3_at k c s v (gs dk dc : gmap string pyval) :
  gs !! k = Some (PDict dk) -> dk !! c = Some (PDict dc) ->
  store3 k c s v gs
  = Ok (<[k := PDict (<[c := PDict (<[s := v]> dc)]> dk)]> gs).
Proof. intros H1 H2. unfold store3, getitem. rewrite H1. simpl. by rewrite H2. Qed.

(** A loop of stores into [glac_stats[k][c]] fills that dict and leaves
    the rest of [glac_stats] alone. *)
Lemma loop_store3 {A} (val : A -> res pyval) (key : A -> string)
    (body : A -> gmap string pyval -> res (gmap string pyval)) k c :
  (forall a gs, body a gs = do v <- val a; store3 k c (key a) v gs) ->
  forall l (gs dk dc : gmap string pyval),
    gs !! k = Some (PDict dk) -> dk !! c = Some (PDict dc) ->
    for_each body l gs
    = do d <- fill val key l dc;
      Ok (<[k := PDict (<[c := PDict d]> dk)]> gs).
Proof.
  intros Hbody. unfold fill.
  induction l as [|a l IH]; intros gs dk dc Hk Hc; simpl.
  - by rewrite (insert_id dk c), (insert_id gs k).
  - rewrite Hbody. destruct (val a) as [v|e]; simpl; [|done].
    rewrite (store3_at _ _ _ _ _ _ _ Hk Hc). simpl.
    erewrite IH; [| apply lookup_insert_eq | apply lookup_insert_eq].
    destruct (for_each _ l _) as [d|e]; simpl; [|done].
    by rewrite !insert_insert_eq.
Qed.

Lemma stat_body_value prms_dict k c ix gs :
  stat_body prms_dict k c ix gs
  = do v <- stat_value prms_dict k c ix; store3 k c ix.2 v gs.
Proof.
  unfold Mcmc.stat_body, Mcmc.stat_value.
  destruct (list_item _ _); simpl; [|done].
  destruct (getitem prms_dict k); simpl; [|done].
  destruct (getitem _ c); simpl; [|done].
  by destruct (a _).
Qed.

Lemma ar_stat_body_value c rolling_ar ix gs :
  ar_stat_body c rolling_ar ix gs
  = do v <- ar_stat_value rolling_ar ix; store3 "ar" c ix.2 v gs.
Proof.
  unfold Mcmc.ar_stat_body, Mcmc.ar_stat_value.
  destruct (list_item _ _); simpl; [|done].
  by destruct (a _).
Qed.

Lemma fill_chain prms_dict k c d :
  fill (stat_value prms_dict k c) snd (enumerate stats_ks) ∅ = Ok d ->
  exists pk x,
    prms_dict !! k = Some pk /\ pk !! c = Some x /\ chain_summary x d.
Proof.
  unfold fill, enumerate, stats_ks, Mcmc.stat_value. simpl.
  unfold getitem.
  destruct (prms_dict !! k) as [pk|] eqn:Hk; simpl; [|intros [=]].
  destruct (pk !! c) as [x|] eqn:Hc; simpl; [|intros [=]].
  intros H. exists pk, x. split; [done|]. split; [done|].
  unfold Mcmc.chain_summary.
  destruct (np_min x) as [mn|]; simpl in H; [|done].
  destruct (np_max x) as [mx|]; simpl in H; [|done].
  exists mn, mx. repeat split. injection H as <-.
  same_dict.
Qed.

Lemma chain_body_inv prms_dict k n (gs gs' dk : gmap string pyval) :
  gs !! k = Some (PDict dk) ->
  chain_body prms_dict k n gs = Ok gs' ->
  exists pk x d,
    prms_dict !! k = Some pk /\ pk !! chain_key n = Some x /\
    chain_summary x d /\
    gs' = <[k := PDict (<[chain_key n := PDict d]> dk)]> gs.
Proof.
  intros Hk H. unfold Mcmc.chain_body in H.
  rewrite (store2_at _ _ _ _ _ Hk) in H. cbn [bind] in H.
  erewrite (loop_store3 _ snd) in H;
    [| apply stat_body_value | apply lookup_insert_eq | apply lookup_insert_eq].
  inv_bind H as d E. injection H as <-.
  apply fill_chain in E as (pk & x & Hpk & Hx & Hd).
  exists pk, x, d. repeat split; try done.
  by rewrite !insert_insert_eq.
Qed.

Lemma var_body_inv prms_dict k (gs gs' : gmap string pyval) :
  var_body prms_dict k gs = Ok gs' ->
  exists dk, var_summary prms_dict k dk /\ gs' = <[k := PDict dk]> gs.
Proof.
  unfold Mcmc.var_body, chain_ns. simpl. intros H.
  inv_bind H as gs3 L. inv_bind L as gs0 E0.
  destruct (chain_body_inv _ _ _ _ _ _ (lookup_insert_eq _ _ _) E0)
    as (pk & x0 & d0 & Hpk & Hx0 & Hd0 & ->).
  inv_bind L as gs1 E1.
  destruct (chain_body_inv _ _ _ _ _ _ (lookup_insert_eq _ _ _) E1)
    as (pk1 & x1 & d1 & Hpk1 & Hx1 & Hd1 & ->).
  inv_bind L as gs2 E2.
  destruct (chain_body_inv _ _ _ _ _ _ (lookup_insert_eq _ _ _) E2)
    as (pk2 & x2 & d2 & Hpk2 & Hx2 & Hd2 & ->).
  injection L as <-. simplify_eq.
  unfold getitem in H. rewrite Hpk in H. simpl in H.
  change (chain_key 0) with "chain_0" in *.
  change (chain_key 1) with "chain_1" in *.
  change (chain_key 2) with "chain_2" in *.
  rewrite Hx0, Hx1, Hx2 in H. simpl in H.
  destruct (az_rhat [x0; x1; x2]) as [r|] eqn:Hr; simpl in H; [|done].
  rewrite (store2_at _ _ _ _ _ (lookup_insert_eq _ _ _)) in H.
  injection H as <-.
  eexists. split.
  - exists pk, x0, x1, x2, d0, d1, d2, r. repeat split; try done.
  - rewrite !insert_insert_eq. by f_equal.
Qed.

(** The loop over the variables: each variable of the list gets its
    entry, every other key keeps its value. *)
Lemma vars_loop prms_dict l (gs gs' : gmap string pyval) :
  for_each (var_body prms_dict) l gs = Ok gs' ->
  (forall k, k ∈ l ->
     exists dk, gs' !! k = Some (PDict dk) /\ var_summary prms_dict k dk) /\
  (forall k, k ∉ l -> gs' !! k = gs !! k).
Proof.
  revert gs. induction l as [|a l IH]; intros gs H; simpl in H.
  - injection H as <-. split; [|done]. intros k Hk. by apply elem_of_nil in Hk.
  - inv_bind H as gs1 E. apply var_body_inv in E as (da & Hda & ->).
    apply IH in H as [Hin Hout]. split.
    + intros k Hk. destruct (decide (k ∈ l)) as [Hl|Hl]; [by apply Hin|].
      apply elem_of_cons in Hk as [->|Hk]; [|done].
      exists da. by rewrite (Hout _ Hl), lookup_insert_eq.
    + intros k Hk. apply not_elem_of_cons in Hk as [Hne Hl].
      by rewrite (Hout _ Hl), lookup_insert_ne.
Qed.

Lemma fill_ar rolling_ar d :
  fill (ar_stat_value rolling_ar) snd
       (enumerate (take (length stats_ks - 2) stats_ks)) ∅ = Ok d ->
  exists mn mx,
    np_min rolling_ar = Ok mn /\ np_max rolling_ar = Ok mx /\
    d = list_to_map
          [("min", PFloat mn); ("max", PFloat mx);
           ("median", PFloat (np_median rolling_ar));
           ("mean", PFloat (np_mean rolling_ar));
           ("std", PFloat (np_std sqrt rolling_ar))].
Proof.
  unfold fill, enumerate, stats_ks, Mcmc.ar_stat_value. simpl. intros H.
  destruct (np_min rolling_ar) as [mn|]; simpl in H; [|done].
  destruct (np_max rolling_ar) as [mx|]; simpl in H; [|done].
  exists mn, mx. by injection H as <-.
Qed.

Lemma ar_body_inv prms_dict n (gs gs' dar : gmap string pyval) :
  gs !! "ar" = Some (PDict dar) ->
  ar_body prms_dict n gs = Ok gs' ->
  exists par x d,
    prms_dict !! "ar" = Some par /\ par !! chain_key n = Some x /\
    ar_chain_summary x d /\
    gs' = <["ar" := PDict (<[chain_key n := PDict d]> dar)]> gs.
Proof.
  intros Har H. unfold Mcmc.ar_body in H.
  rewrite (store2_at _ _ _ _ _ Har) in H. cbn [bind] in H.
  inv_bind H as par Hpar. apply getitem_Ok in Hpar.
  inv_bind H as x Hx. apply getitem_Ok in Hx.
  inv_bind H as rolling_ar Hroll.
  erewrite (loop_store3 _ snd) in H;
    [| apply ar_stat_body_value | apply lookup_insert_eq | apply lookup_insert_eq].
  inv_bind H as d E. injection H as <-.
  apply fill_ar in E as (mn & mx & Hmn & Hmx & ->).
  exists par, x. eexists. repeat split; try done.
  - by exists rolling_ar, mn, mx.
  - by rewrite !insert_insert_eq.
Qed.

(** The whole [with] block. *)
Lemma chain_stats_inv prms_dict (gs : gmap string pyval) :
  chain_stats prms_dict = Ok gs ->
  (forall k, k ∈ ks ->
     exists dk, gs !! k = Some (PDict dk) /\ var_summary prms_dict k dk) /\
  (exists dar, gs !! "ar" = Some (PDict dar) /\ ar_summary prms_dict dar) /\
  (forall k, k ∉ ks -> k <> "ar" -> gs !! k = None).
Proof.
  unfold Mcmc.chain_stats, chain_ns. intros H.
  inv_bind H as gs0 Hvars. apply vars_loop in Hvars as [Hin Hout].
  simpl in H.
  inv_bind H as gs1 E0.
  destruct (ar_body_inv _ _ _ _ _ (lookup_insert_eq _ _ _) E0)
    as (par & x0 & d0 & Hpar & Hx0 & Hd0 & ->).
  inv_bind H as gs2 E1.
  destruct (ar_body_inv _ _ _ _ _ (lookup_insert_eq _ _ _) E1)
    as (par1 & x1 & d1 & Hpar1 & Hx1 & Hd1 & ->).
  inv_bind H as gs3 E2.
  destruct (ar_body_inv _ _ _ _ _ (lookup_insert_eq _ _ _) E2)
    as (par2 & x2 & d2 & Hpar2 & Hx2 & Hd2 & ->).
  injection H as <-. simplify_eq.
  rewrite !insert_insert_eq. repeat split.
  - intros k Hk. rewrite lookup_insert_ne; [by apply Hin|].
    intros <-. by apply not_in_ks in Hk.
  - eexists. rewrite lookup_insert_eq. split; [done|].
    by exists par, x0, x1, x2, d0, d1, d2.
  - intros k Hk Hne. by rewrite lookup_insert_ne, Hout.
Qed.

(** What one calibration file leaves in [glac_stats]. *)
Lemma glac_stats_inv rgi_glacs f g (gs : gmap string pyval) :
  glac_stats_of rgi_glacs f g = Ok gs ->
  exists prms_dict gs0 a,
    load_mcmc f = Ok prms_dict /\ chain_stats prms_dict = Ok gs0 /\
    area_of rgi_glacs g = Ok a /\ gs = <["area" := PFloat a]> gs0.
Proof.
  unfold Mcmc.glac_stats_of. intros H.
  inv_bind H as prms_dict Hload. inv_bind H as gs0 Hgs0.
  inv_bind H as a Ha. injection H as <-. by exists prms_dict, gs0, a.
Qed.









(** The rolling mean of an acceptance-rate chain of at least 100
    samples. *)
Lemma rolling_long x :
  (100 <= length x)%nat ->
  exists r,
    rolling x = Ok r /\ length r = (length x - 99)%nat /\
    forall i, (i < length r)%nat ->
      exists v, r !! i = Some v /\
                v = dot (slice i (i + 100) x) (ones_over 100 100) /\
                feq v (np_mean (slice i (i + 100) x)).
Proof.
  intros H. destruct (convolve_window x 100) as (r & Hr & Hlen & Hi);
    [lia | done |].
  exists r. repeat split; [done | lia | done].
Qed.

(** An acceptance-rate chain of 1 to 99 samples. *)
Lemma rolling_short x :
  x <> [] -> (length x < 100)%nat ->
  exists r,
    rolling x = Ok r /\ length r = (101 - length x)%nat /\
    forall v, v ∈ r ->
      feq v (if has_nan x then NaN else Fin (qsum (finite x) / 100)).
Proof.
  intros Hne H. destruct (convolve_short x 100) as (r & Hr & Hlen & Hv);
    [done | done |].
  exists r. repeat split; [done | lia | done].
Qed.

Lemma rolling_empty : rolling [] = Raise (ValueError "v cannot be empty").
Proof. done. Qed.

Lemma mean_feq_described v qs :
  qs <> [] -> feq v (np_mean (map Fin qs)) ->
  exists m, v = Fin m /\ mean_of qs m.
Proof.
  intros Hne. unfold np_mean. rewrite has_nan_numbers, finite_numbers.
  destruct qs as [|q qs']; [done|]. destruct v as [m|]; [|done].
  simpl. intros Hm. exists m. split; [done|].
  destruct (qmean_mean (q :: qs')) as [_ Hq]; [done|].
  split; [done|]. by rewrite Hm.
Qed.

(** C4. For a calibration file whose statistics are computed and every
    chain [n] of [chain_ns], the acceptance-rate entry
    [glac_stats['ar'][chain_n]] holds exactly the five statistics min,
    max, median, mean, std of the rolling array [np.convolve(chain,
    np.ones(100)/100, mode='valid')], and neither iqr nor n_eff; for a
    chain of [L >= 100] samples the rolling array has [L - 99] entries
    and entry [i] is the sum of the products of the samples [i] to
    [i + 99] with the weight; in exact arithmetic, where the weight is
    1/100, that is the mean of these samples, their sum divided by
    100. *)
Theorem C4_acceptance_rate rgi_glacs f g gs n :
  glac_stats_of rgi_glacs f g = Ok gs ->
  n ∈ chain_ns ->
  exists prms_dict par x rolling_ar mn mx dar d,
    load_mcmc f = Ok prms_dict /\
    prms_dict !! "ar" = Some par /\ par !! chain_key n = Some x /\
    rolling x = Ok rolling_ar /\
    np_min rolling_ar = Ok mn /\ np_max rolling_ar = Ok mx /\
    gs !! "ar" = Some (PDict dar) /\
    dar !! chain_key n = Some (PDict d) /\
    d = list_to_map
          [("min", PFloat mn); ("max", PFloat mx);
           ("median", PFloat (np_median rolling_ar));
           ("mean", PFloat (np_mean rolling_ar));
           ("std", PFloat (np_std sqrt rolling_ar))] /\
    d !! "iqr" = None /\ d !! "n_eff" = None /\
    ((100 <= length x)%nat ->
     length rolling_ar = (length x - 99)%nat /\
     forall i, (i < length rolling_ar)%nat ->
       exists v, rolling_ar !! i = Some v /\
                 v = dot (slice i (i + 100) x) (ones_over 100 100) /\
                 feq v (np_mean (slice i (i + 100) x)) /\
                 forall qs, slice i (i + 100) x = map Fin qs ->
                            exists m, v = Fin m /\ mean_of qs m).
Proof.
  intros H Hn.
  apply glac_stats_inv in H as (prms_dict & gs0 & a & Hload & Hgs0 & _ & ->).
  apply chain_stats_inv in Hgs0 as (_ & (dar & Hdar & Hsum) & _).
  destruct Hsum as (par & x0 & x1 & x2 & d0 & d1 & d2
                    & Hpar & Hx0 & Hx1 & Hx2 & Hd0 & Hd1 & Hd2 & ->).
  assert (Hcase : exists x d, par !! chain_key n = Some x /\
            ar_chain_summary x d /\
            (list_to_map [("chain_0", PDict d0); ("chain_1", PDict d1);
                          ("chain_2", PDict d2)]
               : gmap string pyval) !! chain_key n = Some (PDict d)).
  { unfold chain_ns in Hn.
    repeat (apply elem_of_cons in Hn as [->|Hn]);
      [by exists x0, d0 | by exists x1, d1 | by exists x2, d2 |].
    by apply elem_of_nil in Hn. }
  destruct Hcase as (x & d & Hx & (r & mn & mx & Hr & Hmn & Hmx & ->) & Hd).
  exists prms_dict, par, x, r, mn, mx. eexists. eexists.
  do 6 (split; [done|]).
  split; [by rewrite lookup_insert_ne|].
  split; [exact Hd|].
  do 3 (split; [done|]).
  intros HL. destruct (rolling_long x HL) as (r' & Hr' & Hlen & Hi).
  assert (r' = r) as -> by congruence. split; [done|].
  intros i Hlt. destruct (Hi i Hlt) as (v & Hv & Hdot & Hmean).
  exists v. do 3 (split; [done|]). intros qs Hqs.
  rewrite Hqs in Hmean. apply mean_feq_described; [|done].
  intros ->. rewrite Hqs in Hdot. subst v. done.
Qed.

(** *** The loop over the files *)

(** Every path of the glob has a glacier number: the [try] binds
    [glacno] before anything can raise. *)
Lemma glacno_of_glob p : from_glob p -> exists g, glacno_of p = Ok g.
Proof.
  intros [stem ->]. unfold glacno_of.
  destruct (split_app_without "/" "-modelprms_dict.json" eq_refl stem)
    as (ws & w & _ & ->).
  unfold last_item. rewrite last_snoc. cbn [bind].
  destruct (split_with "." (w +:+ "-modelprms_dict.json"))
    as (a & b & rest & ->).
  - rewrite contains_app. apply orb_true_r.
  - by eexists.
Qed.


(** One file whose path comes from the glob: either its statistics
    are stored under its glacier number, or the exception is printed
    and the dictionary is left as it was. *)
Lemma file_body_glob rgi_glacs f st g :
  glacno_of (path f) = Ok g ->
  file_body rgi_glacs f st
  = Ok match glac_stats_of rgi_glacs f g with
       | Ok gs => {| mcmc_stats := <[g := PDict gs]> (mcmc_stats st);
                     glacno := Some g;
                     stdout := stdout st |}
       | Raise err => {| mcmc_stats := mcmc_stats st;
                         glacno := Some g;
                         stdout := stdout st ++ [(g, err)] |}
       end.
Proof.
  intros Hg. unfold Mcmc.file_body. rewrite Hg.
  by destruct (glac_stats_of rgi_glacs f g).
Qed.

Lemma run_glob rgi_glacs files st :
  Forall (fun f => from_glob (path f)) files ->
  exists st', run rgi_glacs files st = Ok st'.
Proof.
  intros H. revert st. induction H as [|f files Hf _ IH]; intros st.
  - by eexists.
  - destruct (glacno_of_glob _ Hf) as [g Hg]. unfold Mcmc.run. simpl.
    rewrite (file_body_glob _ _ _ _ Hg). cbn [bind]. apply IH.
Qed.

(** An entry of the final dictionary was there at the start or is the
    statistics of a file of the list. *)
Lemma run_entry rgi_glacs files st st' g v :
  run rgi_glacs files st = Ok st' ->
  mcmc_stats st' !! g = Some v ->
  mcmc_stats st !! g = Some v \/
  exists f gs, f ∈ files /\ glacno_of (path f) = Ok g /\
               glac_stats_of rgi_glacs f g = Ok gs /\ v = PDict gs.
Proof.
  unfold Mcmc.run. revert st.
  induction files as [|f files IH]; intros st H Hv; simpl in H.
  - injection H as <-. by left.
  - inv_bind H as st1 Hf.
    destruct (IH _ H Hv) as [Hst1|(f' & gs & Hin & Hg & Hgs & ->)].
    + unfold Mcmc.file_body, handler in Hf.
      destruct (glacno_of (path f)) as [g'|e] eqn:Hg.
      * destruct (glac_stats_of rgi_glacs f g') as [gs|e] eqn:Hgs.
        -- injection Hf as <-. simpl in Hst1.
           destruct (decide (g' = g)) as [->|Hne].
           ++ rewrite lookup_insert_eq in Hst1. injection Hst1 as <-.
              right. exists f, gs. repeat split; try done. left.
           ++ rewrite lookup_insert_ne in Hst1 by done. by left.
        -- simpl in Hf. injection Hf as <-. by left.
      * destruct (glacno st); [|done]. injection Hf as <-. by left.
    + right. exists f', gs. repeat split; try done. by right.
Qed.

(** Entries are never removed, and a file whose statistics are
    computed has an entry at the end. *)
Lemma file_body_keeps rgi_glacs f st st' g :
  file_body rgi_glacs f st = Ok st' ->
  g ∈ dom (mcmc_stats st) -> g ∈ dom (mcmc_stats st').
Proof.
  unfold Mcmc.file_body, handler. intros H Hg.
  destruct (glacno_of (path f)) as [g'|e].
  - destruct (glac_stats_of rgi_glacs f g') as [gs|e].
    + injection H as <-. simpl. rewrite dom_insert_L. set_solver.
    + simpl in H. by injection H as <-.
  - destruct (glacno st); [|done]. by injection H as <-.
Qed.

Lemma run_keeps rgi_glacs files st st' g :
  run rgi_glacs files st = Ok st' ->
  g ∈ dom (mcmc_stats st) -> g ∈ dom (mcmc_stats st').
Proof.
  unfold Mcmc.run. revert st.
  induction files as [|f files IH]; intros st H Hg; simpl in H.
  - by injection H as <-.
  - inv_bind H as st1 Hf. eapply IH; [done|]. by eapply file_body_keeps.
Qed.

Lemma run_stores rgi_glacs files st st' f g gs :
  run rgi_glacs files st = Ok st' ->
  f ∈ files -> glacno_of (path f) = Ok g ->
  glac_stats_of rgi_glacs f g = Ok gs ->
  g ∈ dom (mcmc_stats st').
Proof.
  unfold Mcmc.run. revert st.
  induction files as [|f' files IH]; intros st H Hin Hg Hgs; simpl in H.
  - by apply elem_of_nil in Hin.
  - inv_bind H as st1 Hf. apply elem_of_cons in Hin as [<-|Hin].
    + eapply run_keeps; [done|].
      rewrite (file_body_glob _ _ _ _ Hg), Hgs in Hf. injection Hf as <-.
      simpl. rewrite dom_insert_L. set_solver.
    + by eapply IH.
Qed.

Lemma run_app rgi_glacs l1 l2 st :
  run rgi_glacs (l1 ++ l2) st
  = do st1 <- run rgi_glacs l1 st; run rgi_glacs l2 st1.
Proof. apply for_each_app. Qed.

(** C10, as the code has it.  [np.convolve] swaps its operands when the
    chain is the shorter one: a chain of 1 to 99 samples gives a
    rolling array of [101 - L] entries, of which [np.min] is taken
    without an exception, and only an empty chain makes the call raise.
    So a file with an empty acceptance-rate chain gets no statistics,
    and every glacier present in [mcmc_stats] was stored by a file
    whose three acceptance-rate chains are non-empty. *)
Theorem C10_acceptance_chains_nonempty rgi_glacs :
  (forall f g prms_dict par n x,
     load_mcmc f = Ok prms_dict -> prms_dict !! "ar" = Some par ->
     n ∈ chain_ns -> par !! chain_key n = Some x ->
     (x = [] ->
      (exists e, rolling x = Raise e) /\
      exists e, glac_stats_of rgi_glacs f g = Raise e) /\
     (x <> [] -> (length x < 100)%nat ->
      exists r mn, rolling x = Ok r /\ length r = (101 - length x)%nat /\
                   np_min r = Ok mn)) /\
  (forall files st' g,
     run rgi_glacs files init = Ok st' ->
     g ∈ dom (mcmc_stats st') ->
     exists f prms_dict par,
       f ∈ files /\ glacno_of (path f) = Ok g /\
       load_mcmc f = Ok prms_dict /\ prms_dict !! "ar" = Some par /\
       forall n, n ∈ chain_ns ->
         exists x, par !! chain_key n = Some x /\ x <> []).
Proof.
  assert (Hne : forall f g gs,
            glac_stats_of rgi_glacs f g = Ok gs ->
            exists prms_dict par,
              load_mcmc f = Ok prms_dict /\ prms_dict !! "ar" = Some par /\
              forall n, n ∈ chain_ns ->
                exists x, par !! chain_key n = Some x /\ x <> []).
  { intros f g gs H.
    apply glac_stats_inv in H as (prms_dict & gs0 & a & Hload & Hgs0 & _ & ->).
    apply chain_stats_inv in Hgs0 as (_ & (dar & _ & Hsum) & _).
    destruct Hsum as (par & x0 & x1 & x2 & d0 & d1 & d2
                      & Hpar & Hx0 & Hx1 & Hx2 & Hd0 & Hd1 & Hd2 & _).
    exists prms_dict, par. repeat split; try done.
    intros n Hn. unfold chain_ns in Hn.
    destruct Hd0 as (r0 & _ & _ & Hr0 & _).
    destruct Hd1 as (r1 & _ & _ & Hr1 & _).
    destruct Hd2 as (r2 & _ & _ & Hr2 & _).
    repeat (apply elem_of_cons in Hn as [->|Hn]);
      [exists x0 | exists x1 | exists x2 | by apply elem_of_nil in Hn];
      (split; [done|]); by intros ->. }
  split.
  - intros f g prms_dict par n x Hload Hpar Hn Hx. split.
    + intros ->. split; [by eexists|].
      destruct (glac_stats_of rgi_glacs f g) as [gs|e] eqn:Hgs; [|by eexists].
      destruct (Hne _ _ _ Hgs) as (prms' & par' & Hload' & Hpar' & Hall).
      destruct (Hall n Hn) as (x & Hx' & Hxne). congruence.
    + intros Hxne Hlt.
      destruct (rolling_short x Hxne Hlt) as (r & Hr & Hlen & _).
      destruct r as [|a r]; [simpl in Hlen; lia|].
      exists (a :: r). eexists. split; [done|]. split; [done|]. reflexivity.
  - intros files st' g Hrun Hg. apply elem_of_dom in Hg as [v Hv].
    destruct (run_entry _ _ _ _ _ _ Hrun Hv)
      as [Hinit|(f & gs & Hin & Hgl & Hgs & _)]; [done|].
    destruct (Hne _ _ _ Hgs) as (prms_dict & par & Hload & Hpar & Hall).
    by exists f, prms_dict, par.
Qed.



(** C5. Over the files returned by the glob, the loop always runs to
    its end.  A file whose loading or processing raises has the
    exception caught: the pair (glacno, err) is printed, the dictionary
    [mcmc_stats] is left exactly as it was, and the loop goes on with
    the remaining files.  At the end a glacier number is a key of
    [mcmc_stats] if and only if some file with that number had every
    step of its computation succeed. *)
Theorem C5_failed_files_are_skipped rgi_glacs files :
  Forall (fun f => from_glob (path f)) files ->
  exists st',
    run rgi_glacs files init = Ok st' /\
    (forall g, g ∈ dom (mcmc_stats st') <->
       exists f gs, f ∈ files /\ glacno_of (path f) = Ok g /\
                    glac_stats_of rgi_glacs f g = Ok gs) /\
    (forall pre f post, files = pre ++ f :: post ->
       exists st1 st2 g,
         run rgi_glacs pre init = Ok st1 /\
         file_body rgi_glacs f st1 = Ok st2 /\
         run rgi_glacs post st2 = Ok st' /\
         glacno_of (path f) = Ok g /\
         forall err, glac_stats_of rgi_glacs f g = Raise err ->
           mcmc_stats st2 = mcmc_stats st1 /\
           stdout st2 = stdout st1 ++ [(g, err)]).
Proof.
  intros Hglob. destruct (run_glob rgi_glacs _ init Hglob) as [st' Hrun].
  exists st'. split; [done|]. split.
  - intros g. split.
    + intros Hg. apply elem_of_dom in Hg as [v Hv].
      destruct (run_entry _ _ _ _ _ _ Hrun Hv)
        as [Hinit|(f & gs & Hin & Hgl & Hgs & _)]; [done|].
      by exists f, gs.
    + intros (f & gs & Hin & Hgl & Hgs). by eapply run_stores.
  - intros pre f post ->. rewrite run_app in Hrun.
    inv_bind Hrun as st1 Hpre.
    change (run rgi_glacs (f :: post) st1)
      with (do st2 <- file_body rgi_glacs f st1; run rgi_glacs post st2)
      in Hrun.
    inv_bind Hrun as st2 Hf.
    apply Forall_app in Hglob as [_ Hglob].
    apply Forall_cons in Hglob as [Hfglob _].
    destruct (glacno_of_glob _ Hfglob) as [g Hg].
    exists st1, st2, g. do 4 (split; [done|]). intros err Herr.
    rewrite (file_body_glob _ _ _ _ Hg), Herr in Hf. by injection Hf as <-.
Qed.




End WithLibraries.

(** *** The theorems on the calibrations of [Demo] *)

Local Abbreviation demo_stats :=
  (glac_stats_of Demo.sqrt Demo.effective_n Demo.az_rhat Demo.rgi_glacs).
Local Abbreviation demo_run :=
  (run Demo.sqrt Demo.effective_n Demo.az_rhat Demo.rgi_glacs).


Lemma chain_0_in_chain_ns : 0%nat ∈ chain_ns.
Proof. left. Defined.

Lemma kennicott_stats : exists gs, demo_stats Demo.kennicott "1.15645" = Ok gs.
Proof. apply is_ok_true. vm_compute. reflexivity. Defined.



Lemma ar_chains :
  Demo.calibration Demo.samples (Demo.ramp 101) !! "ar"
  = Some (Demo.three_chains (Demo.ramp 101)).
Proof. vm_compute. reflexivity. Defined.

Lemma chain_0_of x : Demo.three_chains x !! chain_key 0 = Some x.
Proof. reflexivity. Defined.




Lemma C4_witness :
  exists gs dar d rolling_ar,
    demo_stats Demo.kennicott "1.15645" = Ok gs /\
    gs !! "ar" = Some (PDict dar) /\
    dar !! chain_key 0 = Some (PDict d) /\
    rolling (Demo.ramp 101) = Ok rolling_ar /\
    length rolling_ar = 2%nat /\
    d !! "mean" = Some (PFloat (np_mean rolling_ar)) /\
    d !! "iqr" = None /\ d !! "n_eff" = None.
Proof.
  destruct kennicott_stats as [gs H].
  destruct (C4_acceptance_rate _ _ _ _ _ _ _ _ H chain_0_in_chain_ns)
    as (prms_dict & par & x & rolling_ar & mn & mx & dar & d
        & Hload & Hpar & Hx & Hroll & Hmn & Hmx & Hgs & Hdar & Hd
        & Hiqr & Hneff & Hlong).
  injection Hload as <-.
  rewrite ar_chains in Hpar. injection Hpar as <-.
  rewrite chain_0_of in Hx. injection Hx as <-.
  destruct Hlong as [Hlen _]; [vm_compute; lia|].
  exists gs, dar, d, rolling_ar.
  split; [exact H|]. split; [exact Hgs|]. split; [exact Hdar|].
  split; [exact Hroll|]. split; [exact Hlen|].
  split; [by rewrite Hd|]. split; [exact Hiqr | exact Hneff].
Defined.

(** C4 as stated fails on doubles: the weight is the double nearest to
    0.01, not 1/100.  On the 100 samples of [Demo.sparse_ar], which are
    doubles, the one entry of the rolling array is
    0.005859375000000001, the sum of the products of the samples with
    that weight, while the mean of the samples is 0.005859375, whether
    taken exactly or as [np.mean] takes it.  Only two samples are not
    zero, so the order of the additions plays no part.  In exact
    arithmetic the entry is the mean. *)
Lemma C4_entry_is_not_the_mean :
  let x := map Binary64.b64_of_Q Demo.sparse_ar in
  length x = 100%nat /\
  omap Binary64.b64_to_Q x = Demo.sparse_ar /\
  exists v,
    Binary64.b64_rolling x = Ok [v] /\
    Binary64.b64_to_Q v
    = Some (6755399441055745 # 1152921504606846976)%Q /\
    mean_of Demo.sparse_ar (3 # 512) /\
    Binary64.b64_to_Q (Binary64.b64_mean x) = Some (3 # 512)%Q /\
    ~ (6755399441055745 # 1152921504606846976 == 3 # 512)%Q /\
    rolling (map Fin Demo.sparse_ar) = Ok [Fin (3 # 512)].
Proof.
  split; [reflexivity|]. split; [vm_compute; reflexivity|].
  eexists. split; [vm_compute; reflexivity|].
  split; [vm_compute; reflexivity|].
  split; [split; [done | vm_compute; reflexivity]|].
  split; [vm_compute; reflexivity|].
  split; [|vm_compute; reflexivity].
  intros H. vm_compute in H. discriminate H.
Qed.

Lemma demo_files_from_glob :
  Forall (fun f => from_glob (path f))
         [Demo.kennicott; Demo.broken; Demo.short_ar].
Proof.
  repeat constructor.
  - by exists "/data/Output/calibration/01//1.15645".
  - by exists "/data/Output/calibration/01//1.00002".
  - by exists "/data/Output/calibration/01//1.00001".
Defined.

Lemma C5_witness :
  exists st1 st2 st',
    demo_run [Demo.kennicott; Demo.broken; Demo.short_ar] init = Ok st' /\
    demo_run [Demo.kennicott] init = Ok st1 /\
    file_body Demo.sqrt Demo.effective_n Demo.az_rhat Demo.rgi_glacs
              Demo.broken st1 = Ok st2 /\
    demo_run [Demo.short_ar] st2 = Ok st' /\
    mcmc_stats st2 = mcmc_stats st1 /\
    stdout st2
    = stdout st1
      ++ [("1.00002", ValueError "Expecting value: line 1 column 1 (char 0)")].
Proof.
  destruct (C5_failed_files_are_skipped
              Demo.sqrt Demo.effective_n Demo.az_rhat Demo.rgi_glacs
              _ demo_files_from_glob) as (st' & Hrun & _ & Hstep).
  destruct (Hstep [Demo.kennicott] Demo.broken [Demo.short_ar] eq_refl)
    as (st1 & st2 & g & Hpre & Hf & Hpost & Hg & Herr).
  injection Hg as <-.
  destruct (Herr _ eq_refl) as [Hsame Hout].
  exists st1, st2, st'.
  split; [exact Hrun|]. split; [exact Hpre|]. split; [exact Hf|].
  split; [exact Hpost|]. split; [exact Hsame | exact Hout].
Defined.



Lemma short_ar_stats : exists gs, demo_stats Demo.short_ar "1.00001" = Ok gs.
Proof. apply is_ok_true. vm_compute. reflexivity. Defined.

Lemma short_ar_run :
  exists st', demo_run [Demo.short_ar] init = Ok st' /\
              is_Some (mcmc_stats st' !! "1.00001").
Proof.
  destruct short_ar_stats as [gs H]. unfold run. cbn [for_each].
  rewrite (file_body_glob _ _ _ _ Demo.short_ar _ "1.00001" eq_refl), H.
  cbn [bind].
  eexists. split; [reflexivity|]. cbn [mcmc_stats].
  rewrite lookup_insert_eq. by eexists.
Defined.

Lemma C10_witness :
  (exists r, rolling Demo.samples = Ok r /\ length r = 97%nat) /\
  exists st' f,
    demo_run [Demo.short_ar] init = Ok st' /\
    f ∈ [Demo.short_ar] /\ glacno_of (path f) = Ok "1.00001".
Proof.
  destruct (C10_acceptance_chains_nonempty
              Demo.sqrt Demo.effective_n Demo.az_rhat Demo.rgi_glacs)
    as [Hfile Hrun].
  split.
  - destruct (Hfile Demo.short_ar "1.00001" _ (Demo.three_chains Demo.samples)
                0%nat Demo.samples eq_refl eq_refl chain_0_in_chain_ns eq_refl)
      as [_ Hshort].
    destruct Hshort as (r & mn & Hr & Hlen & _); [done | simpl; lia |].
    by exists r.
  - destruct short_ar_run as (st' & Hst & Hsome).
    apply elem_of_dom in Hsome.
    destruct (Hrun _ _ _ Hst Hsome) as (f & _ & _ & Hf & Hg & _).
    exists st', f. split; [exact Hst|]. split; [exact Hf | exact Hg].
Defined.

(** C10 as stated fails on a calibration whose acceptance-rate chains
    have four samples: the rolling array has 97 entries, its minimum is
    taken without an exception, and the glacier is in [mcmc_stats]. *)
Lemma C10_short_chain_is_kept :
  exists prms_dict par st',
    load_mcmc Demo.short_ar = Ok prms_dict /\
    prms_dict !! "ar" = Some par /\
    par !! chain_key 0 = Some Demo.samples /\
    (length Demo.samples < 100)%nat /\
    (exists r mn, rolling Demo.samples = Ok r /\ length r = 97%nat /\
                  np_min r = Ok mn) /\
    demo_run [Demo.short_ar] init = Ok st' /\
    is_Some (mcmc_stats st' !! "1.00001").
Proof.
  destruct short_ar_run as (st' & Hst & Hsome).
  exists (Demo.calibration Demo.samples Demo.samples),
         (Demo.three_chains Demo.samples), st'.
  split; [reflexivity|]. split; [vm_compute; reflexivity|].
  split; [reflexivity|]. split; [simpl; lia|].
  split; [|split; [exact Hst | exact Hsome]].
  eexists _, _. repeat split; vm_compute; reflexivity.
Qed.

End McmcFacts.

(** ** The multi-GCM aggregation *)

Module GcmFacts.

Import Numpy Gcm Described MonadFacts NumpyFacts DescribedFacts.

(** *** Monthly runoff summed by calendar year *)

Lemma slice_nil {A} i j : slice i j ([] : list A) = [].
Proof. unfold slice. by rewrite drop_nil, take_nil. Qed.

Lemma slice_cons_0 {A} j (a : A) l :
  slice 0 (S j) (a :: l) = a :: slice 0 j l.
Proof. unfold slice. simpl. by rewrite Nat.sub_0_r. Qed.

Lemma slice_cons_S {A} i j (a : A) l :
  slice (S i) (S j) (a :: l) = slice i j l.
Proof. done. Qed.

Lemma slice_empty {A} i (l : list A) : slice i i l = [].
Proof. unfold slice. by rewrite Nat.sub_diag. Qed.

Lemma qsum_nil : qsum [] = 0%Q.
Proof. done. Qed.

Lemma div12_succ n : ((12 + n) / 12 = S (n / 12))%nat.
Proof.
  replace (12 + n)%nat with (1 * 12 + n)%nat by lia.
  rewrite Nat.div_add_l by lia. lia.
Qed.

(** The months that fall in the [j]-th calendar year of a series that
    starts in month [m]: positions [12 j - (m - 1)] up to
    [12 (j + 1) - (m - 1)]. *)
Lemma year_of_position m i j :
  ((m - 1 + i) / 12 = j <->
   12 * j - (m - 1) <= i < 12 * (j + 1) - (m - 1))%nat.
Proof.
  pose proof (Nat.div_mod_eq (m - 1 + i) 12) as E.
  pose proof (Nat.mod_upper_bound (m - 1 + i) 12) as B.
  split.
  - intros <-. lia.
  - intros H. symmetry. apply (Nat.div_unique _ _ _ (m - 1 + i - 12 * j)); lia.
Qed.

(** The bins that [year_bins] closes, from a running sum [acc] that
    already holds the month numbered [month]. *)
Lemma year_bins_length vs month acc :
  (1 <= month <= 12)%nat ->
  length (year_bins month acc vs) = S ((month - 1 + length vs) / 12).
Proof.
  revert month acc.
  induction vs as [|v vs IH]; intros month acc Hm; cbn [year_bins length].
  - rewrite Nat.add_0_r, Nat.div_small by lia. done.
  - destruct (Nat.eqb_spec month 12) as [->|Hne]; cbn [length].
    + rewrite IH by lia.
      replace (12 - 1 + S (length vs))%nat with (12 + length vs)%nat by lia.
      by rewrite div12_succ.
    + rewrite IH by lia. do 2 f_equal. lia.
Qed.

Lemma year_bins_nth vs month acc j :
  (1 <= month <= 12)%nat ->
  (j < length (year_bins month acc vs))%nat ->
  exists q,
    year_bins month acc vs !! j = Some q /\
    (q == (if j is O then acc else 0)
          + qsum (slice (12 * j - month) (12 * (j + 1) - month) vs))%Q.
Proof.
  revert month acc j. induction vs as [|v vs IH]; intros month acc j Hm Hj.
  - cbn [year_bins length] in *. destruct j as [|j]; [|lia].
    exists acc. split; [done|]. rewrite slice_nil, qsum_nil. ring.
  - cbn [year_bins] in *. destruct (Nat.eqb_spec month 12) as [->|Hne].
    + destruct j as [|j].
      * exists acc. split; [done|].
        replace (12 * 0 - 12)%nat with 0%nat by lia.
        replace (12 * (0 + 1) - 12)%nat with 0%nat by lia.
        rewrite slice_empty, qsum_nil. ring.
      * cbn [length] in Hj.
        destruct (IH 1%nat v j) as (q & Hq & E); [lia | lia |].
        exists q. split; [done|]. rewrite E. destruct j as [|j].
        -- replace (12 * 1 - 12)%nat with 0%nat by lia.
           replace (12 * (1 + 1) - 12)%nat with 12%nat by lia.
           replace (12 * 0 - 1)%nat with 0%nat by lia.
           replace (12 * (0 + 1) - 1)%nat with 11%nat by lia.
           rewrite slice_cons_0, qsum_cons. ring.
        -- replace (12 * (S (S j)) - 12)%nat with (S (12 * S j - 1)) by lia.
           replace (12 * (S (S j) + 1) - 12)%nat
             with (S (12 * (S j + 1) - 1)) by lia.
           rewrite slice_cons_S. ring.
    + destruct (IH (S month) (Qred (acc + v)) j) as (q & Hq & E); [lia | done |].
      exists q. split; [done|]. rewrite E. destruct j as [|j].
      * replace (12 * (0 + 1) - month)%nat
          with (S (12 * (0 + 1) - S month)) by lia.
        replace (12 * 0 - month)%nat with 0%nat by lia.
        replace (12 * 0 - S month)%nat with 0%nat by lia.
        rewrite slice_cons_0, qsum_cons, Qred_correct. ring.
      * replace (12 * S j - month)%nat with (S (12 * S j - S month)) by lia.
        replace (12 * (S j + 1) - month)%nat
          with (S (12 * (S j + 1) - S month)) by lia.
        rewrite slice_cons_S. ring.
Qed.

(** The entries at the positions [lo] to [hi - 1]. *)
Lemma filter_range {A} (l : list A) k lo hi :
  (filter (fun iv : nat * A => (lo <= iv.1 < hi)%nat)
          (zip (seq k (length l)) l)).*2
  = slice (lo - k) (hi - k) l.
Proof.
  revert k. induction l as [|a l IH]; intros k.
  - by rewrite slice_nil.
  - cbn [length seq zip zip_with]. rewrite filter_cons. simpl.
    specialize (IH (S k)). case_decide as Hk.
    + cbn [fmap list_fmap snd]. change (list_fmap _ _ snd ?l) with (l.*2).
      rewrite IH.
      replace (lo - k)%nat with 0%nat by lia.
      replace (hi - k)%nat with (S (hi - S k)) by lia.
      replace (lo - S k)%nat with 0%nat by lia.
      by rewrite slice_cons_0.
    + rewrite IH. destruct (decide (k < lo)%nat) as [Hlo|Hlo].
      * destruct (decide (k < hi)%nat) as [Hhi|Hhi].
        -- replace (lo - k)%nat with (S (lo - S k)) by lia.
           replace (hi - k)%nat with (S (hi - S k)) by lia.
           by rewrite slice_cons_S.
        -- unfold slice.
           replace (hi - k - (lo - k))%nat with 0%nat by lia.
           replace (hi - S k - (lo - S k))%nat with 0%nat by lia.
           done.
      * unfold slice.
        replace (hi - k - (lo - k))%nat with 0%nat by lia.
        replace (hi - S k - (lo - S k))%nat with 0%nat by lia.
        done.
Qed.

Lemma months_of_year_slice s j :
  months_of_year s (year0 s + Z.of_nat j)
  = slice (12 * j - (month0 s - 1)) (12 * (j + 1) - (month0 s - 1)) (values s).
Proof.
  unfold months_of_year, enumerate.
  pose proof (filter_range (values s) 0 (12 * j - (month0 s - 1))
                (12 * (j + 1) - (month0 s - 1))) as F.
  rewrite !Nat.sub_0_r in F. rewrite <- F. f_equal.
  apply list_filter_iff. intros [i v]. unfold year_of_index. cbn [fst].
  rewrite <- year_of_position. lia.
Qed.

(** C8. The annual runoff series of a GCM output file, as it is fed
    into the aggregation, has one entry per calendar year from the year
    of the first month to the year of the last month, and the entry of
    a year is the sum of that year's monthly values. *)
Theorem C8_annual_runoff_is_yearly_sum ds :
  let s := glac_runoff_monthly ds in
  (1 <= month0 s <= 12)%nat ->
  values s <> [] ->
  exists annual,
    annual_runoff_of ds = Ok annual /\
    Z.of_nat (length annual)
    = (year_of_index s (length (values s) - 1) - year0 s + 1)%Z /\
    forall j, (j < length annual)%nat ->
      exists q,
        annual !! j = Some (Fin q) /\
        (q == qsum (months_of_year s (year0 s + Z.of_nat j)))%Q.
Proof.
  intros s Hm Hne. unfold annual_runoff_of, resample_YE_sum. fold s.
  destruct (values s) as [|v vs] eqn:Hv; [done|].
  cbn [bind]. eexists. split; [reflexivity|].
  rewrite length_map, year_bins_length by done. split.
  - unfold year_of_index. cbn [length].
    replace (month0 s - 1 + (S (length vs) - 1))%nat
      with (month0 s - 1 + length vs)%nat by lia.
    lia.
  - intros j Hj. rewrite <- (year_bins_length vs _ v) in Hj by done.
    destruct (year_bins_nth vs (month0 s) v j Hm Hj) as (q & Hq & E).
    exists q. rewrite list_lookup_fmap, Hq. split; [done|].
    rewrite E, months_of_year_slice, Hv. destruct j as [|j].
    + replace (12 * 0 - (month0 s - 1))%nat with 0%nat by lia.
      replace (12 * (0 + 1) - (month0 s - 1))%nat
        with (S (12 * (0 + 1) - month0 s)) by lia.
      replace (12 * 0 - month0 s)%nat with 0%nat by lia.
      by rewrite slice_cons_0, qsum_cons.
    + replace (12 * S j - (month0 s - 1))%nat
        with (S (12 * S j - month0 s)) by lia.
      replace (12 * (S j + 1) - (month0 s - 1))%nat
        with (S (12 * (S j + 1) - month0 s)) by lia.
      rewrite slice_cons_S. ring.
Qed.

Lemma C8_witness :
  exists annual q,
    annual_runoff_of Demo.water_year = Ok annual /\
    length annual = 3%nat /\
    annual !! 1%nat = Some (Fin q) /\
    (q == 114)%Q /\
    months_of_year (glac_runoff_monthly Demo.water_year) 2000
    = [4; 5; 6; 7; 8; 9; 10; 11; 12; 13; 14; 15]%Q.
Proof.
  destruct (C8_annual_runoff_is_yearly_sum Demo.water_year)
    as (annual & Hannual & Hlen & Hsum).
  - simpl. lia.
  - done.
  - assert (Hthree : length annual = 3%nat).
    { apply Nat2Z.inj. rewrite Hlen. reflexivity. }
    destruct (Hsum 1%nat) as (q & Hq & E); [rewrite Hthree; lia|].
    exists annual, q. split; [exact Hannual|]. split; [exact Hthree|].
    split; [exact Hq|]. split; [|done].
    by rewrite E.
Defined.

Section WithFiles.

Variable sqrt : Q -> Q.
Variable fns : string -> list dataset.

Local Abbreviation scenario_body := (scenario_body sqrt fns).
Local Abbreviation aggregate := (aggregate sqrt fns).
Local Abbreviation period_body := (period_body sqrt).
Local Abbreviation period_loop := (period_loop sqrt).
Local Abbreviation period_averages := (period_averages sqrt).
Local Abbreviation bands := (bands sqrt).
Local Abbreviation period_line_ok := (period_line_ok sqrt).

Lemma store_at scenario key v
    (r : gmap string (gmap string (list float))) d :
  r !! scenario = Some d ->
  store scenario key v r = Ok (<[scenario := <[key := v]> d]> r).
Proof. intros H. unfold store, getitem. by rewrite H. Qed.

(** A stack of rows reduced along axis 0. *)
Lemma vstack_band f series rows :
  np_vstack series = Ok rows -> band f series (along_axis0 f rows).
Proof.
  unfold np_vstack, band. destruct series as [|r rs]; [done|].
  destruct (forallb _ rs) eqn:Hall; [|done]. intros [= <-].
  exists (length r). split; [done|]. split.
  - constructor; [done|]. apply Forall_forall. intros s Hs.
    apply list_elem_of_In in Hs.
    rewrite forallb_forall in Hall. specialize (Hall _ Hs).
    by apply Nat.eqb_eq in Hall.
  - unfold along_axis0. rewrite length_map, length_seq. split; [done|].
    intros j Hj. by rewrite list_lookup_fmap, lookup_seq_lt.
Qed.

(** One scenario: its entry is rebuilt from the files of the scenario,
    the entries of the other scenarios stay. *)
Lemma scenario_body_inv scenario st st' :
  scenario_body scenario st = Ok st' ->
  exists d runoff,
    results st' = <[scenario := d]> (results st) /\
    comprehension annual_runoff_of (fns scenario) = Ok runoff /\
    bands "runoff" runoff d /\
    bands "area" (map annual_area_of (fns scenario)) d /\
    bands "mass" (map annual_mass_of (fns scenario)) d /\
    dom d = {[ "mean_runoff"; "std_runoff"; "min_runoff"; "max_runoff";
               "mean_area"; "std_area"; "min_area"; "max_area";
               "mean_mass"; "std_mass"; "min_mass"; "max_mass" ]}.
Proof.
  unfold Gcm.scenario_body. intros H.
  inv_bind H as annual Hannual.
  inv_bind H as runoff Hrunoff.
  do 4 (erewrite store_at in H by apply lookup_insert_eq; cbn [bind] in H).
  inv_bind H as area Harea.
  do 4 (erewrite store_at in H by apply lookup_insert_eq; cbn [bind] in H).
  inv_bind H as mass Hmass.
  do 4 (erewrite store_at in H by apply lookup_insert_eq; cbn [bind] in H).
  injection H as <-. simpl. rewrite !insert_insert_eq.
  eexists. exists annual. split; [done|]. split; [done|].
  split; [|split; [|split]].
  - repeat split; eexists; (split; [reflexivity|]); by apply vstack_band.
  - repeat split; eexists; (split; [reflexivity|]); by apply vstack_band.
  - repeat split; eexists; (split; [reflexivity|]); by apply vstack_band.
  - rewrite !dom_insert_L, dom_empty_L. set_solver.
Qed.

Lemma scenarios_loop l st st' :
  for_each scenario_body l st = Ok st' ->
  (forall scenario, scenario ∈ l ->
     exists d runoff,
       results st' !! scenario = Some d /\
       comprehension annual_runoff_of (fns scenario) = Ok runoff /\
       bands "runoff" runoff d /\
       bands "area" (map annual_area_of (fns scenario)) d /\
       bands "mass" (map annual_mass_of (fns scenario)) d /\
       dom d = {[ "mean_runoff"; "std_runoff"; "min_runoff"; "max_runoff";
                  "mean_area"; "std_area"; "min_area"; "max_area";
                  "mean_mass"; "std_mass"; "min_mass"; "max_mass" ]}) /\
  (forall scenario, scenario ∉ l ->
     results st' !! scenario = results st !! scenario).
Proof.
  revert st. induction l as [|a l IH]; intros st H; simpl in H.
  - injection H as <-. split; [|done]. intros s Hs. by apply elem_of_nil in Hs.
  - inv_bind H as st1 E.
    apply scenario_body_inv in E as (d & runoff & Hd & Hb).
    apply IH in H as [Hin Hout]. split.
    + intros s Hs. destruct (decide (s ∈ l)) as [Hl|Hl]; [by apply Hin|].
      apply elem_of_cons in Hs as [->|Hs]; [|done].
      exists d, runoff. by rewrite (Hout _ Hl), Hd, lookup_insert_eq.
    + intros s Hs. apply not_elem_of_cons in Hs as [Hne Hl].
      by rewrite (Hout _ Hl), Hd, lookup_insert_ne.
Qed.




(** *** The period averages *)

Lemma index_first y l i : index y l = Ok i -> first_index l y i.
Proof.
  revert i. induction l as [|x l IH]; intros i; simpl; [done|].
  destruct (Z.eqb_spec x y) as [->|Hne].
  - intros [= <-]. split; [done|]. intros j Hj. lia.
  - intros H. inv_bind H as i' Hi. injection H as <-.
    destruct (IH _ Hi) as [Hl Hbefore]. split; [done|].
    intros [|j] Hj; simpl; [congruence|]. apply Hbefore. lia.
Qed.

Lemma index_found y l : y ∈ l -> exists i, index y l = Ok i.
Proof.
  induction l as [|x l IH]; intros H; [by apply elem_of_nil in H|].
  simpl. destruct (Z.eqb_spec x y) as [->|Hne]; [by eexists|].
  apply elem_of_cons in H as [->|H]; [done|].
  destruct (IH H) as [i ->]. by eexists.
Qed.

Lemma consecutive_offset l i k a b :
  consecutive l -> l !! i = Some a -> l !! (i + k)%nat = Some b ->
  b = (a + Z.of_nat k)%Z.
Proof.
  intros Hc Ha. revert b. induction k as [|k IH]; intros b Hb.
  - rewrite Nat.add_0_r in Hb. simplify_eq. lia.
  - replace (i + S k)%nat with (S (i + k)) in Hb by lia.
    destruct (l !! (i + k)%nat) as [c|] eqn:Hcq.
    + rewrite (Hc _ _ _ Hcq Hb), (IH c) by done. lia.
    + apply lookup_ge_None in Hcq. apply lookup_lt_Some in Hb. lia.
Qed.

Lemma period_body_inv st scenario period ln :
  period_body st scenario period = Ok ln ->
  exists r, ln = PeriodLine r /\ rep_scenario r = scenario /\
            rep_period r = period /\ period_line_ok st r.
Proof.
  unfold Gcm.period_body. intros H.
  destruct (year_var st) as [yr|] eqn:Hyr; [|done]. cbn [bind] in H.
  inv_bind H as i0 Hi0. inv_bind H as i1 Hi1.
  inv_bind H as d Hd. inv_bind H as mr Hmr. injection H as <-.
  apply index_first in Hi0, Hi1. apply getitem_Ok in Hd, Hmr.
  eexists. repeat split.
  exists yr, i0, i1, d, mr. simpl. repeat split; try done; try apply Hi0;
    try apply Hi1.
  intros Hc Hlen Hp.
  assert (i1 = (i0 + 19)%nat) as ->.
  { destruct Hi0 as [Hi0 _], Hi1 as [Hi1 _].
    destruct (Nat.le_gt_cases i0 i1) as [Hle|Hgt].
    - replace i1 with (i0 + (i1 - i0))%nat in Hi1 by lia.
      pose proof (consecutive_offset _ _ _ _ _ Hc Hi0 Hi1). lia.
    - replace i0 with (i1 + (i0 - i1))%nat in Hi0 by lia.
      pose proof (consecutive_offset _ _ _ _ _ Hc Hi1 Hi0). lia. }
  destruct Hi1 as [Hi1 _]. apply lookup_lt_Some in Hi1.
  unfold slice. rewrite length_take, length_drop. lia.
Qed.

(** The lines added by a loop of prints. *)
Lemma print_each_inv {A} (body : A -> res line) l out out' e :
  print_each body l out = (out', e) ->
  exists lines,
    out' = out ++ lines /\
    (forall ln, ln ∈ lines -> exists a, a ∈ l /\ body a = Ok ln) /\
    (e = None -> forall a, a ∈ l -> exists ln, ln ∈ lines /\ body a = Ok ln).
Proof.
  revert out. induction l as [|a l IH]; intros out H; simpl in H.
  - injection H as <- <-. exists []. rewrite app_nil_r. split; [done|].
    split; [intros ln Hln; by apply elem_of_nil in Hln|].
    intros _ a Ha. by apply elem_of_nil in Ha.
  - destruct (body a) as [ln|err] eqn:Hb.
    + apply IH in H as (lines & -> & Hfrom & Hall).
      exists (ln :: lines). rewrite <- app_assoc. split; [done|]. split.
      * intros ln' Hln'. apply elem_of_cons in Hln' as [->|Hln'].
        -- exists a. split; [left | done].
        -- destruct (Hfrom _ Hln') as (a' & Ha' & Hb'). exists a'.
           split; [by right | done].
      * intros He a' Ha'. apply elem_of_cons in Ha' as [->|Ha'].
        -- exists ln. split; [left | done].
        -- destruct (Hall He _ Ha') as (ln' & Hln' & Hb'). exists ln'.
           split; [by right | done].
    + injection H as <- <-. exists []. rewrite app_nil_r. split; [done|].
      split; [intros ln Hln; by apply elem_of_nil in Hln | done].
Qed.

Lemma period_loop_inv st l out out' e :
  period_loop st l out = (out', e) ->
  exists lines,
    out' = out ++ lines /\
    (forall r, PeriodLine r ∈ lines ->
       exists scenario period,
         scenario ∈ l /\ period ∈ periods /\
         period_body st scenario period = Ok (PeriodLine r)) /\
    (e = None -> forall scenario period,
       scenario ∈ l -> period ∈ periods ->
       exists ln, ln ∈ lines /\ period_body st scenario period = Ok ln).
Proof.
  revert out.
  induction l as [|s l IH]; intros out H; cbn [Gcm.period_loop] in H.
  - injection H as <- <-. exists []. rewrite app_nil_r. split; [done|].
    split; [intros r Hr; by apply elem_of_nil in Hr|].
    intros _ s p Hs. by apply elem_of_nil in Hs.
  - destruct (print_each _ periods _) as [out1 [err|]] eqn:Hp;
      apply print_each_inv in Hp as (lines1 & -> & Hfrom1 & Hall1).
    + injection H as <- <-. exists (ScenarioLine s :: lines1).
      rewrite <- app_assoc. split; [done|]. split; [|done].
      intros r Hr. apply elem_of_cons in Hr as [[=]|Hr].
      destruct (Hfrom1 _ Hr) as (p & Hp & Hb). exists s, p.
      split; [left | done].
    + apply IH in H as (lines & -> & Hfrom & Hall).
      exists (ScenarioLine s :: lines1 ++ lines).
      rewrite <- !app_assoc. split; [done|]. split.
      * intros r Hr. apply elem_of_cons in Hr as [[=]|Hr].
        apply elem_of_app in Hr as [Hr|Hr].
        -- destruct (Hfrom1 _ Hr) as (p & Hp & Hb). exists s, p.
           split; [left | done].
        -- destruct (Hfrom _ Hr) as (s' & p & Hs' & Hp & Hb).
           exists s', p. split; [by right | done].
      * intros He s' p Hs' Hp. apply elem_of_cons in Hs' as [->|Hs'].
        -- destruct (Hall1 eq_refl _ Hp) as (ln & Hln & Hb). exists ln.
           split; [|done]. right. apply elem_of_app. by left.
        -- destruct (Hall He _ _ Hs' Hp) as (ln & Hln & Hb). exists ln.
           split; [|done]. right. apply elem_of_app. by right.
Qed.

Lemma print_each_completes {A} (body : A -> res line) l out :
  (forall a, a ∈ l -> exists ln, body a = Ok ln) ->
  exists out', print_each body l out = (out', None).
Proof.
  revert out. induction l as [|a l IH]; intros out H; simpl; [by eexists|].
  destruct (H a) as [ln ->]; [left|]. apply IH. intros a' Ha'. apply H.
  by right.
Qed.

Lemma period_loop_completes st l out :
  (forall scenario period, scenario ∈ l -> period ∈ periods ->
     exists ln, period_body st scenario period = Ok ln) ->
  exists out', period_loop st l out = (out', None).
Proof.
  revert out.
  induction l as [|s l IH]; intros out H; cbn [Gcm.period_loop];
    [by eexists|].
  destruct (print_each_completes (period_body st s) periods
              (out ++ [ScenarioLine s])) as [out1 ->].
  - intros p Hp. apply H; [left | done].
  - apply IH. intros s' p Hs' Hp. apply H; [by right | done].
Qed.

Lemma periods_span period : period ∈ periods -> (period.2 = period.1 + 19)%Z.
Proof.
  unfold periods. intros H.
  repeat (apply elem_of_cons in H as [->|H]; [done|]).
  by apply elem_of_nil in H.
Qed.

(** C6, as the code has it.  Every period line that is printed belongs
    to a scenario and to one of the five periods, and its two numbers
    are [np.mean] and [np.std] of the slice of that scenario's
    multi-GCM mean annual runoff from the position of the period's
    first year in [year] through the position of its last year,
    inclusive.  The slice has 20 entries when the years of [year] are
    consecutive and the list is at least as long as [year].  The cell
    prints the lines of all scenarios and periods when both years of
    every period occur in [year] and every scenario has its mean
    runoff. *)
Theorem C6_period_averages st out e :
  period_averages st = (out, e) ->
  (forall r, PeriodLine r ∈ out ->
     rep_scenario r ∈ scenarios /\ rep_period r ∈ periods /\
     exists yr i0 i1 d mr,
       year_var st = Some yr /\
       first_index yr (rep_period r).1 i0 /\
       first_index yr (rep_period r).2 i1 /\
       results st !! rep_scenario r = Some d /\
       d !! "mean_runoff" = Some mr /\
       runoff_avg r = np_mean (slice i0 (i1 + 1) mr) /\
       runoff_sig r = np_std sqrt (slice i0 (i1 + 1) mr) /\
       (consecutive yr -> (length yr <= length mr)%nat ->
        length (slice i0 (i1 + 1) mr) = 20%nat)) /\
  (e = None -> forall scenario period,
     scenario ∈ scenarios -> period ∈ periods ->
     exists r, PeriodLine r ∈ out /\
               rep_scenario r = scenario /\ rep_period r = period) /\
  (forall yr,
     year_var st = Some yr ->
     (forall period, period ∈ periods -> period.1 ∈ yr /\ period.2 ∈ yr) ->
     (forall scenario, scenario ∈ scenarios ->
        exists d mr, results st !! scenario = Some d /\
                     d !! "mean_runoff" = Some mr) ->
     e = None).
Proof.
  unfold Gcm.period_averages. intros H.
  pose proof H as Hinv.
  apply period_loop_inv in Hinv as (lines & -> & Hfrom & Hall).
  rewrite app_nil_l. split; [|split].
  - intros r Hr. destruct (Hfrom _ Hr) as (s & p & Hs & Hp & Hb).
    apply period_body_inv in Hb as (r' & [= <-] & <- & <- & Hok).
    split; [done|]. split; [done|].
    destruct Hok as (yr & i0 & i1 & d & mr
                     & Hyr & Hi0 & Hi1 & Hd & Hmr & Havg & Hsig & H20).
    exists yr, i0, i1, d, mr. do 7 (split; [done|]).
    intros Hc Hlen. apply H20; [done | done |]. by apply periods_span.
  - intros He s p Hs Hp. destruct (Hall He _ _ Hs Hp) as (ln & Hln & Hb).
    apply period_body_inv in Hb as (r & -> & <- & <- & _). by exists r.
  - intros yr Hyr Hper Hres.
    destruct (period_loop_completes st scenarios []) as [out' Hout'].
    + intros s p Hs Hp. unfold Gcm.period_body. rewrite Hyr. cbn [bind].
      destruct (Hper _ Hp) as [H1 H2].
      destruct (index_found _ _ H1) as [i0 ->].
      destruct (index_found _ _ H2) as [i1 ->]. cbn [bind].
      destruct (Hres _ Hs) as (d & mr & Hd & Hmr).
      unfold getitem. rewrite Hd. cbn [bind]. rewrite Hmr. by eexists.
    + congruence.
Qed.

End WithFiles.

(** *** The theorems on the ensembles [Demo.fns] and [Demo.uneven_fns] *)

Lemma ssp245_in_scenarios : "ssp245" ∈ scenarios.
Proof. left. Defined.


Lemma C6_witness :
  exists st out r,
    aggregate Demo.sqrt Demo.fns Demo.fresh = Ok st /\
    period_averages Demo.sqrt st = (out, None) /\
    PeriodLine r ∈ out /\
    rep_scenario r = "ssp245" /\ rep_period r = (2001, 2020)%Z /\
    exists i0 i1 d mr,
      results st !! "ssp245" = Some d /\ d !! "mean_runoff" = Some mr /\
      runoff_avg r = np_mean (slice i0 (i1 + 1) mr).
Proof.
  destruct (is_ok_true (aggregate Demo.sqrt Demo.fns Demo.fresh)) as [st H];
    [vm_compute; reflexivity|].
  destruct (period_averages Demo.sqrt st) as [out e] eqn:Hout.
  destruct (C6_period_averages _ _ _ _ Hout) as (Hline & Hall & _).
  assert (He : match aggregate Demo.sqrt Demo.fns Demo.fresh with
               | Ok st => (period_averages Demo.sqrt st).2
               | Raise _ => None
               end = None) by (vm_compute; reflexivity).
  rewrite H, Hout in He. cbn [snd] in He. subst e.
  destruct (Hall eq_refl "ssp245" (2001, 2020)%Z ssp245_in_scenarios)
    as (r & Hr & Hs & Hp); [left|].
  destruct (Hline _ Hr)
    as (_ & _ & yr & i0 & i1 & d & mr & _ & _ & _ & Hd & Hmr & Havg & _).
  rewrite Hs in Hd.
  exists st, out, r. split; [exact H|]. split; [exact Hout|].
  split; [exact Hr|]. split; [exact Hs|]. split; [exact Hp|].
  exists i0, i1, d, mr. split; [exact Hd|]. split; [exact Hmr | exact Havg].
Defined.

(** C6 as stated fails when the files of ssp245 start in 2015 while
    those of the last scenario start in 2000: both 2081 and 2100 occur
    in [year], at the positions 81 and 100, and the line of the period
    2081-2100 of ssp245 is the mean of the 5 entries that the 86-entry
    list has from position 81 on. *)
Lemma C6_window_of_five :
  match aggregate Demo.sqrt Demo.uneven_fns Demo.fresh with
  | Raise _ => False
  | Ok st =>
      match year_var st, results st !! "ssp245" ≫= (.!! "mean_runoff") with
      | Some yr, Some mr =>
          index 2081 yr = Ok 81%nat /\ index 2100 yr = Ok 100%nat /\
          length mr = 86%nat /\
          length (slice 81 (100 + 1) mr) = 5%nat /\
          (period_averages Demo.sqrt st).2 = None /\
          (period_averages Demo.sqrt st).1 !! 5%nat
          = Some (PeriodLine
                    {| rep_scenario := "ssp245";
                       rep_period := (2081, 2100)%Z;
                       runoff_avg := np_mean (slice 81 (100 + 1) mr);
                       runoff_sig := np_std Demo.sqrt (slice 81 (100 + 1) mr) |})
      | _, _ => False
      end
  end.
Proof. vm_compute. repeat split. Qed.

End GcmFacts.

(** * Further properties of the notebooks *)

(** ** File names *)

Module NameFacts.

Import Str StrFacts Mcmc.

Lemma append_assoc (a b c : string) : (a +:+ b) +:+ c = a +:+ (b +:+ c).
Proof.
  induction a as [|x a IH]; [done|].
  change (String x ((a +:+ b) +:+ c) = String x (a +:+ (b +:+ c))).
  by rewrite IH.
Qed.

Lemma prefix_app a b : prefix (String.length a) (a +:+ b) = a.
Proof.
  induction a as [|x a IH].
  - by destruct b.
  - change (String x (prefix (String.length a) (a +:+ b)) = String x a).
    by rewrite IH.
Qed.

Lemma glacno_of_name dir reg frac :
  contains "/" reg = false -> contains "." reg = false ->
  contains "/" frac = false -> contains "." frac = false ->
  glacno_of (dir +:+ "/" +:+ reg +:+ "." +:+ frac +:+ "-modelprms_dict.json")
  = Ok (reg +:+ "." +:+ prefix 5 (frac +:+ "-modelprms_dict")).
Proof.
  intros Hreg1 Hreg2 Hfrac1 Hfrac2. unfold glacno_of.
  change ("/" +:+ ?x) with (String "/" x).
  rewrite split_app_sep.
  rewrite (split_without "/" (reg +:+ _)).
  2:{ rewrite !contains_app, Hreg1, Hfrac1. done. }
  unfold last_item. rewrite last_snoc. cbn [bind].
  change ("." +:+ ?x) with (String "." x).
  rewrite split_app_sep, (split_without "." reg) by done.
  change "-modelprms_dict.json"
    with ("-modelprms_dict" +:+ String "." "json").
  rewrite <- append_assoc, split_app_sep.
  rewrite (split_without "." (frac +:+ _)).
  2:{ rewrite contains_app, Hfrac2. done. }
  done.
Qed.

(** X1. The key of a calibration file named after its glacier: for a path
    [dir/reg.frac-modelprms_dict.json] whose [reg] and [frac] hold
    neither a slash nor a dot, the glacier number is [reg], a dot, and
    the first five characters of [frac] followed by the rest of the
    name; with a [frac] of five characters it is [reg.frac]. *)
Theorem X1_glacno_of_file_name dir reg frac :
  contains "/" reg = false -> contains "." reg = false ->
  contains "/" frac = false -> contains "." frac = false ->
  let f := dir +:+ "/" +:+ reg +:+ "." +:+ frac +:+ "-modelprms_dict.json" in
  glacno_of f = Ok (reg +:+ "." +:+ prefix 5 (frac +:+ "-modelprms_dict")) /\
  (String.length frac = 5%nat -> glacno_of f = Ok (reg +:+ "." +:+ frac)).
Proof.
  intros Hreg1 Hreg2 Hfrac1 Hfrac2 f.
  assert (Hf : glacno_of f
               = Ok (reg +:+ "." +:+ prefix 5 (frac +:+ "-modelprms_dict")))
    by (by apply glacno_of_name).
  split; [done|]. intros Hlen. rewrite Hf, <- Hlen. by rewrite prefix_app.
Qed.

Lemma X1_witness :
  glacno_of "/data/Output/calibration/01//1.15645-modelprms_dict.json"
  = Ok "1.15645".
Proof.
  apply (X1_glacno_of_file_name "/data/Output/calibration/01/" "1" "15645");
    reflexivity.
Defined.

End NameFacts.

(** ** Which files are stored *)

Module OutcomeFacts.

Import Numpy Mcmc Outcome MonadFacts NumpyFacts McmcFacts.

Section WithLibraries.

Variable sqrt : Q -> Q.
Variable effective_n : list float -> option Z.
Variable az_rhat : list (list float) -> res float.

Local Abbreviation stats := (stats sqrt effective_n).
Local Abbreviation stat_value := (stat_value sqrt effective_n).
Local Abbreviation ar_stat_value := (ar_stat_value sqrt effective_n).
Local Abbreviation chain_body := (chain_body sqrt effective_n).
Local Abbreviation var_body := (var_body sqrt effective_n az_rhat).
Local Abbreviation ar_body := (ar_body sqrt effective_n).
Local Abbreviation chain_stats := (chain_stats sqrt effective_n az_rhat).
Local Abbreviation glac_stats_of := (glac_stats_of sqrt effective_n az_rhat).
Local Abbreviation file_body := (file_body sqrt effective_n az_rhat).
Local Abbreviation run := (run sqrt effective_n az_rhat).
Local Abbreviation var_ok := (var_ok az_rhat).
Local Abbreviation failure := (failure sqrt effective_n az_rhat).
Local Abbreviation failures := (failures sqrt effective_n az_rhat).
Local Abbreviation keys_step := (keys_step sqrt effective_n az_rhat).
Local Abbreviation keys_after := (keys_after sqrt effective_n az_rhat).

(** *** The area of the glacier *)

Lemma filter_none (g : string) (rows : list (string * float)) :
  (forall row, row ∈ rows -> row.1 <> g) ->
  filter (fun row => row.1 = g) rows = [].
Proof.
  induction rows as [|row rows IH]; intros H; [done|].
  rewrite filter_cons_False by (apply H; left).
  apply IH. intros r Hr. apply H. by right.
Qed.

Lemma area_of_first rgi_glacs g a pre post :
  rgi_glacs = pre ++ (g, a) :: post ->
  (forall row, row ∈ pre -> row.1 <> g) ->
  area_of rgi_glacs g = Ok a.
Proof.
  intros -> Hpre. unfold area_of.
  rewrite filter_app, (filter_none _ _ Hpre), filter_cons_True by done.
  done.
Qed.

Lemma area_of_absent rgi_glacs g :
  (forall row, row ∈ rgi_glacs -> row.1 <> g) ->
  area_of rgi_glacs g
  = Raise (IndexError "single positional indexer is out-of-bounds").
Proof.
  intros H. unfold area_of. by rewrite (filter_none _ _ H).
Qed.

(** X2. The area stored for a glacier whose chain statistics are
    computed is the Area of the first row of the RGI table with its
    glacier number; when the table has no such row the file raises
    [IndexError] after all its statistics are computed, so it is printed
    and not stored. *)
Theorem X2_area_from_rgi_table rgi_glacs f g prms_dict gs0 st :
  load_mcmc f = Ok prms_dict ->
  chain_stats prms_dict = Ok gs0 ->
  glacno_of (path f) = Ok g ->
  (forall a pre post,
     rgi_glacs = pre ++ (g, a) :: post ->
     (forall row, row ∈ pre -> row.1 <> g) ->
     exists st',
       file_body rgi_glacs f st = Ok st' /\
       mcmc_stats st' = <[g := PDict (<["area" := PFloat a]> gs0)]> (mcmc_stats st) /\
       stdout st' = stdout st) /\
  ((forall row, row ∈ rgi_glacs -> row.1 <> g) ->
   exists st',
     file_body rgi_glacs f st = Ok st' /\
     mcmc_stats st' = mcmc_stats st /\
     stdout st'
     = stdout st
       ++ [(g, IndexError "single positional indexer is out-of-bounds")]).
Proof.
  intros Hload Hgs0 Hg. split.
  - intros a pre post Hrgi Hpre.
    rewrite (file_body_glob _ _ _ _ _ _ _ Hg).
    unfold Mcmc.glac_stats_of. rewrite Hload. cbn [bind]. rewrite Hgs0.
    cbn [bind]. rewrite (area_of_first _ _ _ _ _ Hrgi Hpre). cbn [bind].
    by eexists.
  - intros Habsent.
    rewrite (file_body_glob _ _ _ _ _ _ _ Hg).
    unfold Mcmc.glac_stats_of. rewrite Hload. cbn [bind]. rewrite Hgs0.
    cbn [bind]. rewrite (area_of_absent _ _ Habsent). cbn [bind].
    by eexists.
Qed.

(** *** The shape of an entry *)

Lemma glac_stats_keys rgi_glacs f g (gs : gmap string pyval) :
  glac_stats_of rgi_glacs f g = Ok gs ->
  dom gs = {[ "kp"; "tbias"; "ddfsnow"; "ddfice"; "mb_mwea"; "ar"; "area" ]} /\
  (exists a, gs !! "area" = Some (PFloat a)) /\
  (forall k, k ∈ "ar" :: ks -> exists d, gs !! k = Some (PDict d)).
Proof.
  intros H.
  apply glac_stats_inv in H as (prms_dict & gs0 & a & _ & Hgs0 & _ & ->).
  apply chain_stats_inv in Hgs0 as (Hvars & (dar & Hdar & _) & Hnone).
  split; [|split].
  - apply set_eq. intros k. rewrite elem_of_dom.
    destruct (decide (k = "area")) as [->|Harea].
    { rewrite lookup_insert_eq. split; [set_solver | by eexists]. }
    rewrite lookup_insert_ne by done.
    destruct (decide (k = "ar")) as [->|Har].
    { rewrite Hdar. split; [set_solver | by eexists]. }
    destruct (decide (k ∈ ks)) as [Hk|Hk].
    + destruct (Hvars k Hk) as (dk & -> & _). split; [|by eexists].
      intros _. unfold ks in Hk. set_solver.
    + rewrite (Hnone k Hk Har). split; [by intros [? ?]|].
      intros Hin. exfalso. apply Hk. unfold ks. set_solver.
  - exists a. apply lookup_insert_eq.
  - intros k Hk. rewrite lookup_insert_ne.
    + apply elem_of_cons in Hk as [->|Hk]; [by exists dar|].
      destruct (Hvars k Hk) as (dk & ? & _). by exists dk.
    + intros <-. apply elem_of_cons in Hk as [[=]|Hk].
      by apply not_in_ks in Hk.
Qed.

(** X3. Every entry of [mcmc_stats] after the loop is a dict with
    exactly the seven keys kp, tbias, ddfsnow, ddfice, mb_mwea, ar and
    area; area is a number and the other six are dicts. *)
Theorem X3_entries_have_one_shape rgi_glacs files st' g v :
  run rgi_glacs files init = Ok st' ->
  mcmc_stats st' !! g = Some v ->
  exists gs,
    v = PDict gs /\
    dom gs = {[ "kp"; "tbias"; "ddfsnow"; "ddfice"; "mb_mwea"; "ar"; "area" ]} /\
    (exists a, gs !! "area" = Some (PFloat a)) /\
    (forall k, k ∈ "ar" :: ks -> exists d, gs !! k = Some (PDict d)).
Proof.
  intros Hrun Hv.
  destruct (run_entry _ _ _ _ _ _ _ _ _ Hrun Hv)
    as [Hinit|(f & gs & _ & _ & Hgs & ->)]; [done|].
  exists gs. split; [done|]. by eapply glac_stats_keys.
Qed.

(** *** When the statistics of a file are computed *)

Lemma rolling_nonempty x :
  x <> [] -> exists r, rolling x = Ok r /\ r <> [].
Proof.
  intros Hx. destruct x as [|a x]; [done|].
  unfold rolling, np_convolve_valid.
  change (ones_over 100 100)
    with (Fin (Qred (1 / inject_Z 100)) :: ones_over 99 100).
  destruct (_ <? _)%nat; (eexists; split; [reflexivity|]);
    rewrite Nat.add_1_r; discriminate.
Qed.

Lemma fill_chain_ok prms_dict k c pk x :
  prms_dict !! k = Some pk -> pk !! c = Some x ->
  x <> [] ->
  exists d, fill (stat_value prms_dict k c) snd (enumerate stats_ks) ∅ = Ok d.
Proof.
  intros Hpk Hx Hne. destruct x as [|a x]; [done|].
  unfold fill, enumerate, stats_ks, Mcmc.stat_value. simpl.
  unfold getitem. rewrite Hpk. simpl. rewrite Hx. simpl.
  by eexists.
Qed.

Lemma chain_body_ok prms_dict k n pk x (gs dk : gmap string pyval) :
  gs !! k = Some (PDict dk) ->
  prms_dict !! k = Some pk -> pk !! chain_key n = Some x ->
  x <> [] ->
  exists gs' dk',
    chain_body prms_dict k n gs = Ok gs' /\ gs' !! k = Some (PDict dk') /\
    forall k', k' <> k -> gs' !! k' = gs !! k'.
Proof.
  intros Hk Hpk Hx Hne.
  destruct (fill_chain_ok _ _ _ _ _ Hpk Hx Hne) as [d Hd].
  unfold Mcmc.chain_body.
  rewrite (store2_at _ _ _ _ _ Hk). cbn [bind].
  erewrite (loop_store3 _ snd);
    [| apply stat_body_value | apply lookup_insert_eq | apply lookup_insert_eq].
  rewrite Hd. cbn [bind]. eexists _, _. split; [done|].
  split; [apply lookup_insert_eq|].
  intros k' Hk'. by rewrite !lookup_insert_ne.
Qed.

Lemma chains_of_Some pk chains :
  chains_of pk = Some chains ->
  exists x0 x1 x2,
    pk !! chain_key 0 = Some x0 /\ pk !! chain_key 1 = Some x1 /\
    pk !! chain_key 2 = Some x2 /\ chains = [x0; x1; x2].
Proof.
  unfold chains_of. intros H.
  destruct (pk !! chain_key 0) as [x0|]; [|done].
  destruct (pk !! chain_key 1) as [x1|]; [|done].
  destruct (pk !! chain_key 2) as [x2|]; [|done].
  injection H as <-. by exists x0, x1, x2.
Qed.

Lemma var_body_ok prms_dict k (gs : gmap string pyval) :
  var_ok prms_dict k ->
  exists gs', var_body prms_dict k gs = Ok gs'.
Proof.
  intros (pk & chains & Hpk & Hch & Hall & Hr).
  apply chains_of_Some in Hch as (x0 & x1 & x2 & Hx0 & Hx1 & Hx2 & ->).
  apply Forall_cons in Hall as [Hn0 Hall].
  apply Forall_cons in Hall as [Hn1 Hall].
  apply Forall_cons in Hall as [Hn2 _].
  destruct (az_rhat [x0; x1; x2]) as [r|] eqn:Er; [|done].
  unfold Mcmc.var_body, chain_ns. cbn [for_each].
  destruct (chain_body_ok prms_dict k 0 pk x0 (<[k := PDict ∅]> gs) ∅)
    as (gs0 & dk0 & -> & Hk0 & _); [apply lookup_insert_eq | done..|].
  cbn [bind].
  destruct (chain_body_ok prms_dict k 1 pk x1 gs0 dk0)
    as (gs1 & dk1 & -> & Hk1 & _); [done..|].
  cbn [bind].
  destruct (chain_body_ok prms_dict k 2 pk x2 gs1 dk1)
    as (gs2 & dk2 & -> & Hk2 & _); [done..|].
  cbn [bind comprehension]. unfold getitem. rewrite Hpk. cbn [bind].
  rewrite Hx0, Hx1, Hx2. cbn [bind]. rewrite Er. cbn [bind].
  rewrite (store2_at _ _ _ _ _ Hk2). by eexists.
Qed.

Lemma vars_loop_ok prms_dict l (gs : gmap string pyval) :
  (forall k, k ∈ l -> var_ok prms_dict k) ->
  exists gs', for_each (var_body prms_dict) l gs = Ok gs'.
Proof.
  revert gs. induction l as [|k l IH]; intros gs H; [by eexists|].
  cbn [for_each].
  destruct (var_body_ok prms_dict k gs) as [gs1 ->]; [apply H; left|].
  cbn [bind]. apply IH. intros k' Hk'. apply H. by right.
Qed.

Lemma fill_ar_ok r :
  r <> [] ->
  exists d, fill (ar_stat_value r) snd
                 (enumerate (take (length stats_ks - 2) stats_ks)) ∅ = Ok d.
Proof.
  intros Hr. destruct r as [|a r]; [done|].
  unfold fill, enumerate, stats_ks, Mcmc.ar_stat_value. simpl. by eexists.
Qed.

Lemma ar_body_ok prms_dict n par x (gs dar : gmap string pyval) :
  gs !! "ar" = Some (PDict dar) ->
  prms_dict !! "ar" = Some par -> par !! chain_key n = Some x -> x <> [] ->
  exists gs' dar',
    ar_body prms_dict n gs = Ok gs' /\ gs' !! "ar" = Some (PDict dar').
Proof.
  intros Har Hpar Hx Hne.
  destruct (rolling_nonempty x Hne) as (r & Hr & Hrne).
  destruct (fill_ar_ok r Hrne) as [d Hd].
  unfold Mcmc.ar_body.
  rewrite (store2_at _ _ _ _ _ Har). cbn [bind].
  unfold getitem. rewrite Hpar. cbn [bind]. rewrite Hx. cbn [bind].
  rewrite Hr. cbn [bind].
  erewrite (loop_store3 _ snd);
    [| apply ar_stat_body_value | apply lookup_insert_eq | apply lookup_insert_eq].
  rewrite Hd. cbn [bind]. eexists _, _. split; [done|]. apply lookup_insert_eq.
Qed.

Lemma chain_stats_ok prms_dict :
  (forall k, k ∈ ks -> var_ok prms_dict k) -> ar_ok prms_dict ->
  exists gs, chain_stats prms_dict = Ok gs.
Proof.
  intros Hvars (par & chains & Hpar & Hch & Hall).
  apply chains_of_Some in Hch as (x0 & x1 & x2 & Hx0 & Hx1 & Hx2 & ->).
  apply Forall_cons in Hall as [Hn0 Hall].
  apply Forall_cons in Hall as [Hn1 Hall].
  apply Forall_cons in Hall as [Hn2 _].
  unfold Mcmc.chain_stats, chain_ns.
  destruct (vars_loop_ok prms_dict ks ∅ Hvars) as [gs0 ->]. cbn [bind for_each].
  destruct (ar_body_ok prms_dict 0 par x0 (<["ar" := PDict ∅]> gs0) ∅)
    as (gs1 & d1 & -> & H1); [apply lookup_insert_eq | done..|].
  cbn [bind].
  destruct (ar_body_ok prms_dict 1 par x1 gs1 d1)
    as (gs2 & d2 & -> & H2); [done..|].
  cbn [bind].
  destruct (ar_body_ok prms_dict 2 par x2 gs2 d2)
    as (gs3 & d3 & -> & H3); [done..|].
  by eexists.
Qed.

Lemma chain_summary_ok x d :
  chain_summary sqrt effective_n x d -> x <> [].
Proof. intros (mn & mx & Hmn & _). by intros ->. Qed.

(** X4. The statistics of a calibration file are computed and stored
    exactly when the file loads, each of the five variables has its
    three chains, all non-empty and accepted, as a stack, by the r-hat
    pipeline, the acceptance rate has its three non-empty chains, and
    the RGI table has a row for the glacier.  [effective_n] never
    stands in the way: it returns [None] where it cannot compute. *)
Theorem X4_file_is_stored_iff rgi_glacs f g :
  is_ok (glac_stats_of rgi_glacs f g) = true <->
  exists prms_dict,
    load_mcmc f = Ok prms_dict /\
    (forall k, k ∈ ks -> var_ok prms_dict k) /\
    Outcome.ar_ok prms_dict /\
    exists row, row ∈ rgi_glacs /\ row.1 = g.
Proof.
  split.
  - intros H. apply is_ok_true in H as [gs H].
    apply glac_stats_inv in H as (prms_dict & gs0 & a & Hload & Hgs0 & Ha & _).
    apply chain_stats_inv in Hgs0 as (Hvars & (dar & _ & Har) & _).
    exists prms_dict. split; [done|]. split; [|split].
    + intros k Hk. destruct (Hvars k Hk) as (dk & _ & Hsum).
      destruct Hsum as (pk & x0 & x1 & x2 & d0 & d1 & d2 & r
                        & Hpk & Hx0 & Hx1 & Hx2 & Hd0 & Hd1 & Hd2 & Hr & _).
      exists pk, [x0; x1; x2]. split; [done|]. split.
      { unfold chains_of.
        change (chain_key 0) with "chain_0". change (chain_key 1) with "chain_1".
        change (chain_key 2) with "chain_2". by rewrite Hx0, Hx1, Hx2. }
      split; [|by rewrite Hr].
      repeat constructor; by eapply chain_summary_ok.
    + destruct Har as (par & x0 & x1 & x2 & d0 & d1 & d2
                       & Hpar & Hx0 & Hx1 & Hx2 & Hd0 & Hd1 & Hd2 & _).
      exists par, [x0; x1; x2]. split; [done|]. split.
      { unfold chains_of.
        change (chain_key 0) with "chain_0". change (chain_key 1) with "chain_1".
        change (chain_key 2) with "chain_2". by rewrite Hx0, Hx1, Hx2. }
      destruct Hd0 as (r0 & _ & _ & Hr0 & _).
      destruct Hd1 as (r1 & _ & _ & Hr1 & _).
      destruct Hd2 as (r2 & _ & _ & Hr2 & _).
      repeat constructor; by intros ->.
    + unfold area_of in Ha.
      destruct (filter _ rgi_glacs) as [|row rows] eqn:Hf; [done|].
      assert (Hrow : row ∈ filter (fun row => row.1 = g) rgi_glacs)
        by (rewrite Hf; left).
      apply list_elem_of_filter in Hrow as [? ?]. by exists row.
  - intros (prms_dict & Hload & Hvars & Har & row & Hrow & Hg).
    destruct (chain_stats_ok prms_dict Hvars Har) as [gs0 Hgs0].
    unfold Mcmc.glac_stats_of. rewrite Hload. cbn [bind]. rewrite Hgs0.
    cbn [bind]. unfold area_of.
    destruct (filter _ rgi_glacs) as [|row' rows] eqn:Hf; [|done].
    assert (Hin : row ∈ filter (fun row => row.1 = g) rgi_glacs)
      by (by apply list_elem_of_filter).
    rewrite Hf in Hin. by apply elem_of_nil in Hin.
Qed.

(** *** What the loop prints *)

Lemma failures_app rgi_glacs l1 l2 :
  failures rgi_glacs (l1 ++ l2)
  = failures rgi_glacs l1 ++ failures rgi_glacs l2.
Proof. apply omap_app. Qed.

Lemma run_stdout rgi_glacs files : forall st st',
  Forall (fun f => from_glob (path f)) files ->
  run rgi_glacs files st = Ok st' ->
  stdout st' = stdout st ++ failures rgi_glacs files.
Proof.
  induction files as [|f files IH]; intros st st' Hglob H.
  - injection H as <-. unfold Outcome.failures. simpl. by rewrite app_nil_r.
  - apply Forall_cons in Hglob as [Hf Hglob].
    destruct (glacno_of_glob _ Hf) as [g Hg].
    unfold Mcmc.run in H. cbn [for_each] in H.
    rewrite (file_body_glob _ _ _ _ _ _ _ Hg) in H. cbn [bind] in H.
    apply (IH _ _ Hglob) in H. rewrite H.
    unfold Outcome.failures. cbn [omap list_omap].
    unfold Outcome.failure at 2. rewrite Hg.
    destruct (Mcmc.glac_stats_of _ _ _ _ _ _) as [gs|err]; cbn [stdout].
    + done.
    + by rewrite <- app_assoc.
Qed.

(** X5. Over the paths of the glob, the loop prints exactly one line
    for each file whose computation raises, in the order of the files,
    and nothing else: the line names the glacier number of that file
    and the exception it raised. *)
Theorem X5_one_line_per_failed_file rgi_glacs files st' :
  Forall (fun f => from_glob (path f)) files ->
  run rgi_glacs files init = Ok st' ->
  stdout st' = failures rgi_glacs files /\
  (forall g err,
     (g, err) ∈ stdout st' <->
     exists f, f ∈ files /\ glacno_of (path f) = Ok g /\
               glac_stats_of rgi_glacs f g = Raise err).
Proof.
  intros Hglob H.
  assert (Hout : stdout st' = failures rgi_glacs files)
    by apply (run_stdout _ _ _ _ Hglob H).
  split; [done|]. intros g err. rewrite Hout.
  unfold Outcome.failures. rewrite list_elem_of_omap. split.
  - intros (f & Hf & Hfail). exists f. split; [done|].
    unfold Outcome.failure in Hfail.
    destruct (glacno_of (path f)) as [g'|]; [|done].
    destruct (Mcmc.glac_stats_of _ _ _ _ _ _) as [|err'] eqn:E; [done|].
    injection Hfail as -> ->. by rewrite E.
  - intros (f & Hf & Hg & Hfail). exists f. split; [done|].
    unfold Outcome.failure. by rewrite Hg, Hfail.
Qed.

(** *** The keys of the result, in order *)

Lemma keys_step_run rgi_glacs files : forall st st' keys,
  Forall (fun f => from_glob (path f)) files ->
  run rgi_glacs files st = Ok st' ->
  NoDup keys -> (forall g, g ∈ keys <-> g ∈ dom (mcmc_stats st)) ->
  NoDup (foldl (keys_step rgi_glacs) keys files) /\
  (forall g, g ∈ foldl (keys_step rgi_glacs) keys files
             <-> g ∈ dom (mcmc_stats st')) /\
  keys `prefix_of` foldl (keys_step rgi_glacs) keys files.
Proof.
  induction files as [|f files IH]; intros st st' keys Hglob H Hnd Hdom.
  - injection H as <-. done.
  - apply Forall_cons in Hglob as [Hf Hglob].
    destruct (glacno_of_glob _ Hf) as [g Hg].
    unfold Mcmc.run in H. cbn [for_each] in H.
    rewrite (file_body_glob _ _ _ _ _ _ _ Hg) in H. cbn [bind] in H.
    cbn [foldl]. unfold Outcome.keys_step at 2 4 6. rewrite Hg.
    destruct (Mcmc.glac_stats_of _ _ _ _ _ _) as [gs|err].
    + case_bool_decide as Hin.
      * apply (IH _ _ keys Hglob H Hnd). intros g'. cbn [mcmc_stats].
        rewrite dom_insert, Hdom. apply Hdom in Hin. set_solver.
      * destruct (IH _ _ (keys ++ [g]) Hglob H) as (? & ? & Hpre).
        { apply NoDup_app. split; [done|]. split; [|apply NoDup_singleton].
          intros x Hx ->%list_elem_of_singleton. done. }
        { intros g'. cbn [mcmc_stats].
          rewrite dom_insert, elem_of_app, list_elem_of_singleton, Hdom.
          set_solver. }
        split; [done|]. split; [done|].
        etrans; [|exact Hpre]. by apply prefix_app_r.
    + by apply (IH _ _ keys Hglob H Hnd).
Qed.

(** X6. The keys of [mcmc_stats], listed in the order of their first
    insertion, have no repetition and are exactly the glaciers stored
    by the loop: a glacier whose files succeed more than once is listed
    once, at the place of its first successful file. *)
Theorem X6_keys_in_insertion_order rgi_glacs files st' :
  Forall (fun f => from_glob (path f)) files ->
  run rgi_glacs files init = Ok st' ->
  NoDup (keys_after rgi_glacs files) /\
  (forall g, g ∈ keys_after rgi_glacs files <-> g ∈ dom (mcmc_stats st')) /\
  (forall pre post,
     files = pre ++ post ->
     keys_after rgi_glacs pre `prefix_of` keys_after rgi_glacs files).
Proof.
  intros Hglob H.
  destruct (keys_step_run rgi_glacs files init st' [] Hglob H)
    as (Hnd & Hdom & _); [apply NoDup_nil_2 | set_solver |].
  split; [exact Hnd|]. split; [exact Hdom|].
  intros pre post ->. unfold Outcome.keys_after. rewrite foldl_app.
  apply Forall_app in Hglob as [Hpre Hpost].
  unfold Mcmc.run in H. rewrite for_each_app in H.
  destruct (for_each _ pre init) as [st1|] eqn:E1; [|done]. cbn [bind] in H.
  destruct (keys_step_run rgi_glacs pre init st1 [] Hpre E1)
    as (Hnd1 & Hdom1 & _); [apply NoDup_nil_2 | set_solver |].
  by destruct (keys_step_run rgi_glacs post st1 st' _ Hpost H Hnd1 Hdom1)
    as (_ & _ & ?).
Qed.

End WithLibraries.

(** *** The theorems at the demonstration files *)

Local Abbreviation demo_run :=
  (Mcmc.run Demo.sqrt Demo.effective_n Demo.az_rhat Demo.rgi_glacs).
Local Abbreviation demo_body :=
  (Mcmc.file_body Demo.sqrt Demo.effective_n Demo.az_rhat Demo.rgi_glacs).
Local Abbreviation demo_chain_stats :=
  (Mcmc.chain_stats Demo.sqrt Demo.effective_n Demo.az_rhat).

Lemma kennicott_chain_stats :
  exists gs0,
    demo_chain_stats (Demo.calibration Demo.samples (Demo.ramp 101)) = Ok gs0.
Proof. apply is_ok_true. vm_compute. reflexivity. Defined.

Lemma repeated_files_from_glob :
  Forall (fun f => from_glob (path f))
         [Demo.kennicott; Demo.kennicott_long; Demo.broken; Demo.short_ar].
Proof.
  repeat constructor.
  - by exists "/data/Output/calibration/01//1.15645".
  - by exists "/data/Output/calibration/01//1.156450".
  - by exists "/data/Output/calibration/01//1.00002".
  - by exists "/data/Output/calibration/01//1.00001".
Defined.

Lemma X2_witness :
  exists gs0 st',
    demo_chain_stats (Demo.calibration Demo.samples (Demo.ramp 101)) = Ok gs0 /\
    demo_body Demo.kennicott init = Ok st' /\
    mcmc_stats st'
    = <["1.15645" := PDict (<["area" := PFloat (Fin (4275 # 10))]> gs0)]> ∅.
Proof.
  destruct kennicott_chain_stats as [gs0 H0].
  destruct (X2_area_from_rgi_table
              Demo.sqrt Demo.effective_n Demo.az_rhat Demo.rgi_glacs
              Demo.kennicott "1.15645" _ gs0 init eq_refl H0 eq_refl)
    as [Hfound _].
  destruct (Hfound (Fin (4275 # 10))
                   [("1.00001", Fin 2); ("1.00002", Fin 3)] [] eq_refl)
    as (st' & Hbody & Hstats & _).
  - intros row Hrow.
    apply elem_of_cons in Hrow as [->|Hrow]; [intros [=]|].
    apply elem_of_cons in Hrow as [->|Hrow]; [intros [=]|].
    apply elem_of_nil in Hrow. destruct Hrow.
  - exists gs0, st'. split; [exact H0|]. split; [exact Hbody | exact Hstats].
Defined.

Lemma X3_witness :
  exists st' gs,
    demo_run [Demo.kennicott; Demo.broken; Demo.short_ar] init = Ok st' /\
    mcmc_stats st' !! "1.00001" = Some (PDict gs) /\
    dom gs = {[ "kp"; "tbias"; "ddfsnow"; "ddfice"; "mb_mwea"; "ar"; "area" ]}.
Proof.
  destruct (run_glob Demo.sqrt Demo.effective_n Demo.az_rhat Demo.rgi_glacs
                     _ init demo_files_from_glob) as [st' Hrun].
  destruct short_ar_stats as [gs0 Hs].
  assert (Hin : "1.00001" ∈ dom (mcmc_stats st')).
  { apply (run_stores _ _ _ _ _ _ _ Demo.short_ar _ gs0 Hrun);
      [right; right; left | reflexivity | exact Hs]. }
  apply elem_of_dom in Hin as [v Hv].
  destruct (X3_entries_have_one_shape _ _ _ _ _ _ _ _ Hrun Hv)
    as (gs & -> & Hdom & _).
  exists st', gs. split; [exact Hrun|]. split; [exact Hv | exact Hdom].
Defined.

Lemma X4_witness :
  exists prms_dict,
    load_mcmc Demo.short_ar = Ok prms_dict /\
    (forall k, k ∈ ks -> Outcome.var_ok Demo.az_rhat prms_dict k) /\
    Outcome.ar_ok prms_dict /\
    exists row, row ∈ Demo.rgi_glacs /\ row.1 = "1.00001".
Proof.
  apply (proj1 (X4_file_is_stored_iff
                  Demo.sqrt Demo.effective_n Demo.az_rhat
                  Demo.rgi_glacs Demo.short_ar "1.00001")).
  vm_compute. reflexivity.
Defined.

Lemma X5_witness :
  exists st',
    demo_run [Demo.kennicott; Demo.broken; Demo.short_ar] init = Ok st' /\
    stdout st'
    = [("1.00002", ValueError "Expecting value: line 1 column 1 (char 0)")].
Proof.
  destruct (run_glob Demo.sqrt Demo.effective_n Demo.az_rhat Demo.rgi_glacs
                     _ init demo_files_from_glob) as [st' Hrun].
  exists st'. split; [exact Hrun|].
  destruct (X5_one_line_per_failed_file _ _ _ _ _ _ demo_files_from_glob Hrun)
    as [Hout _].
  rewrite Hout. vm_compute. reflexivity.
Defined.

Lemma X6_witness :
  exists st',
    demo_run [Demo.kennicott; Demo.kennicott_long; Demo.broken; Demo.short_ar]
             init = Ok st' /\
    Outcome.keys_after Demo.sqrt Demo.effective_n Demo.az_rhat Demo.rgi_glacs
      [Demo.kennicott; Demo.kennicott_long; Demo.broken; Demo.short_ar]
    = ["1.15645"; "1.00001"] /\
    "1.00001" ∈ dom (mcmc_stats st') /\
    "1.00002" ∉ dom (mcmc_stats st').
Proof.
  destruct (run_glob Demo.sqrt Demo.effective_n Demo.az_rhat Demo.rgi_glacs
                     _ init repeated_files_from_glob) as [st' Hrun].
  exists st'. split; [exact Hrun|].
  destruct (X6_keys_in_insertion_order
              _ _ _ _ _ _ repeated_files_from_glob Hrun) as (_ & Hdom & _).
  assert (Hkeys :
    Outcome.keys_after Demo.sqrt Demo.effective_n Demo.az_rhat Demo.rgi_glacs
      [Demo.kennicott; Demo.kennicott_long; Demo.broken; Demo.short_ar]
    = ["1.15645"; "1.00001"]) by (vm_compute; reflexivity).
  split; [exact Hkeys|]. split.
  - apply Hdom. rewrite Hkeys. right. left.
  - intros Hin. apply Hdom in Hin. rewrite Hkeys in Hin.
    apply elem_of_cons in Hin as [[=]|Hin].
    apply elem_of_cons in Hin as [[=]|Hin].
    apply elem_of_nil in Hin. destruct Hin.
Defined.

End OutcomeFacts.

(** ** The cells after the loop *)

Module DiagnosticsFacts.

Import Numpy Mcmc Diagnostics MonadFacts McmcFacts.

(** *** Comprehensions *)

Lemma comprehension_length {A B} (f : A -> res B) l bs :
  comprehension f l = Ok bs -> length bs = length l.
Proof.
  intros H. apply comprehension_Forall2 in H.
  symmetry. by eapply Forall2_length.
Qed.

(** *** The glaciers to check *)

Lemma elem_of_where_gt c rhats : forall j i,
  i ∈ where_gt c j rhats <->
  exists x, (j <= i)%nat /\ rhats !! (i - j)%nat = Some x /\ gt x c = true.
Proof.
  induction rhats as [|x rhats IH]; intros j i; simpl.
  - split; [by intros ?%elem_of_nil | by intros (? & _ & ? & _)].
  - assert (Hrest :
      i ∈ where_gt c (S j) rhats <->
      exists y, (j < i)%nat /\ (x :: rhats) !! (i - j)%nat = Some y /\
                gt y c = true).
    { rewrite IH. split; intros (y & Hle & Hy & Hgt); exists y.
      - split; [lia|]. split; [|done].
        replace (i - j)%nat with (S (i - S j)) by lia. done.
      - split; [lia|]. split; [|done].
        replace (i - j)%nat with (S (i - S j)) in Hy by lia. done. }
    destruct (gt x c) eqn:Hx.
    + rewrite elem_of_cons, Hrest. split.
      * intros [->|(y & ? & ? & ?)].
        -- exists x. rewrite Nat.sub_diag. done.
        -- exists y. split; [lia|done].
      * intros (y & Hle & Hy & Hgt).
        destruct (decide (i = j)) as [->|]; [by left|].
        right. exists y. split; [lia|done].
    + rewrite Hrest. split.
      * intros (y & ? & ? & ?). exists y. split; [lia|done].
      * intros (y & Hle & Hy & Hgt).
        destruct (decide (i = j)) as [->|].
        -- rewrite Nat.sub_diag in Hy. injection Hy as <-. congruence.
        -- exists y. split; [lia|done].
Qed.

Lemma check_body_at glac_ns j g acc :
  glac_ns !! j = Some g ->
  check_body glac_ns j acc
  = Ok (if bool_decide (g ∈ acc) then acc else acc ++ [g]).
Proof.
  intros H. unfold check_body, list_item. rewrite H. cbn [bind].
  by case_bool_decide.
Qed.

Lemma check_loop glac_ns mask : forall acc,
  (forall j, j ∈ mask -> is_Some (glac_ns !! j)) ->
  NoDup acc ->
  exists l,
    for_each (check_body glac_ns) mask acc = Ok l /\ NoDup l /\
    forall g, g ∈ l <-> g ∈ acc \/ exists j, j ∈ mask /\ glac_ns !! j = Some g.
Proof.
  induction mask as [|j mask IH]; intros acc Hmask Hnd.
  - exists acc. split; [done|]. split; [done|]. intros g. split; [by left|].
    intros [?|(j & ?%elem_of_nil & _)]; done.
  - destruct (Hmask j) as [g Hg]; [left|].
    cbn [for_each]. rewrite (check_body_at _ _ _ _ Hg). cbn [bind].
    case_bool_decide as Hin.
    + destruct (IH acc) as (l & -> & Hl & Hmem);
        [intros j' Hj'; apply Hmask; by right | done |].
      exists l. split; [done|]. split; [done|]. intros g'. rewrite Hmem.
      split.
      * intros [?|(j' & Hj' & ?)]; [by left|]. right. exists j'.
        split; [by right|done].
      * intros [?|(j' & Hj' & Hg')]; [by left|].
        apply elem_of_cons in Hj' as [->|Hj'].
        -- left. congruence.
        -- right. by exists j'.
    + destruct (IH (acc ++ [g])) as (l & -> & Hl & Hmem).
      { intros j' Hj'. apply Hmask. by right. }
      { apply NoDup_app. split; [done|]. split; [|apply NoDup_singleton].
        intros x Hx ->%list_elem_of_singleton. done. }
      exists l. split; [done|]. split; [done|]. intros g'. rewrite Hmem.
      rewrite elem_of_app, list_elem_of_singleton. split.
      * intros [[?| ->]|(j' & Hj' & ?)].
        -- by left.
        -- right. exists j. split; [left|done].
        -- right. exists j'. split; [by right|done].
      * intros [?|(j' & Hj' & Hg')]; [by left; left|].
        apply elem_of_cons in Hj' as [->|Hj'].
        -- left. right. congruence.
        -- right. by exists j'.
Qed.

Lemma check_var_spec m glac_ns k acc :
  (forall g, g ∈ glac_ns -> is_ok (stat3 m g k "rhat") = true) ->
  NoDup acc ->
  exists l,
    check_var m glac_ns k acc = Ok l /\ NoDup l /\
    forall g, g ∈ l <->
      g ∈ acc \/
      g ∈ glac_ns /\ exists r, stat3 m g k "rhat" = Ok r /\ gt r (11 # 10) = true.
Proof.
  intros Hread Hnd. unfold check_var, rhats_of.
  destruct (comprehension_ok (fun g => stat3 m g k "rhat") glac_ns Hread)
    as [rhats Hrhats].
  rewrite Hrhats. cbn [bind].
  apply comprehension_Forall2 in Hrhats.
  destruct (check_loop glac_ns (where_gt (11 # 10) 0 rhats) acc)
    as (l & Hl & Hndl & Hmem); [|done|].
  { intros j (x & _ & Hx & _)%elem_of_where_gt.
    rewrite Nat.sub_0_r in Hx.
    destruct (Forall2_lookup_r _ _ _ _ _ Hrhats Hx) as (g & Hg & _).
    by exists g. }
  exists l. split; [done|]. split; [done|]. intros g. rewrite Hmem.
  split; (intros [?|H]; [by left|right]).
  - destruct H as (j & (x & _ & Hx & Hgt)%elem_of_where_gt & Hg).
    rewrite Nat.sub_0_r in Hx.
    split; [by eapply list_elem_of_lookup_2|].
    destruct (Forall2_lookup_l _ _ _ _ _ Hrhats Hg) as (r & Hr & Hstat).
    exists r. split; [done|]. congruence.
  - destruct H as (Hin & r & Hr & Hgt).
    apply list_elem_of_lookup_1 in Hin as [j Hj].
    exists j. split; [|done]. apply elem_of_where_gt.
    destruct (Forall2_lookup_l _ _ _ _ _ Hrhats Hj) as (r' & Hr' & Hstat).
    exists r'. split; [lia|]. rewrite Nat.sub_0_r. split; [done|]. congruence.
Qed.

Lemma check_vars_spec m glac_ns vars : forall acc,
  (forall g k, g ∈ glac_ns -> k ∈ vars -> is_ok (stat3 m g k "rhat") = true) ->
  NoDup acc ->
  exists l,
    for_each (check_var m glac_ns) vars acc = Ok l /\ NoDup l /\
    forall g, g ∈ l <->
      g ∈ acc \/
      g ∈ glac_ns /\
      exists k r, k ∈ vars /\ stat3 m g k "rhat" = Ok r /\ gt r (11 # 10) = true.
Proof.
  induction vars as [|k vars IH]; intros acc Hread Hnd.
  - exists acc. split; [done|]. split; [done|]. intros g. split; [by left|].
    intros [?|(_ & k & r & ?%elem_of_nil & _)]; done.
  - destruct (check_var_spec m glac_ns k acc) as (l1 & H1 & Hnd1 & Hmem1);
      [intros g Hg; apply Hread; [done|left] | done |].
    destruct (IH l1) as (l & Hl & Hndl & Hmem);
      [intros g k' Hg Hk'; apply Hread; [done|by right] | done |].
    exists l. cbn [for_each]. rewrite H1. cbn [bind].
    split; [done|]. split; [done|]. intros g. rewrite Hmem, Hmem1. split.
    + intros [[?|(? & r & ? & ?)]|(? & k' & r & ? & ? & ?)].
      * by left.
      * right. split; [done|]. exists k, r. split; [left|done].
      * right. split; [done|]. exists k', r. split; [by right|done].
    + intros [?|(? & k' & r & Hk' & ? & ?)]; [by left; left|].
      apply elem_of_cons in Hk' as [->|Hk'].
      * left. right. split; [done|]. by exists r.
      * right. split; [done|]. by exists k', r.
Qed.

(** X7. When every glacier of [glac_ns] has a readable r-hat for the
    four plotted variables, the cell that collects the glaciers to check
    completes; its list has no repetition and holds exactly the glaciers
    of [glac_ns] with an r-hat above 1.1 for mb_mwea, kp, tbias or
    ddfsnow.  The r-hat of ddfice is never consulted. *)
Theorem X7_glaciers_to_check m glac_ns :
  (forall g k, g ∈ glac_ns -> k ∈ plot_ks ->
               is_ok (stat3 m g k "rhat") = true) ->
  exists l,
    glacs_check_cell m glac_ns = Ok l /\ NoDup l /\
    forall g, g ∈ l <->
      g ∈ glac_ns /\
      exists k r, k ∈ plot_ks /\ stat3 m g k "rhat" = Ok r /\
                  gt r (11 # 10) = true.
Proof.
  intros Hread.
  destruct (check_vars_spec m glac_ns plot_ks [] Hread (NoDup_nil_2))
    as (l & Hl & Hnd & Hmem).
  exists l. split; [exact Hl|]. split; [exact Hnd|]. intros g.
  rewrite Hmem. split; [|by right].
  intros [?%elem_of_nil|?]; done.
Qed.

(** *** The percentage of well-sampled glaciers *)

Lemma py_round_proper q q' : (q == q')%Q -> py_round q = py_round q'.
Proof.
  intros H. unfold py_round. rewrite (Qfloor_comp _ _ H).
  assert (Hr : (q - inject_Z (Qfloor q') == q' - inject_Z (Qfloor q'))%Q)
    by (by rewrite H).
  by rewrite (Qcompare_comp _ _ Hr _ _ (Qeq_refl _)).
Qed.

Lemma py_round_Z z : py_round (inject_Z z) = z.
Proof.
  unfold py_round. rewrite Qfloor_Z.
  assert (Hr : (inject_Z z - inject_Z z == 0)%Q) by apply Qplus_opp_r.
  by rewrite (Qcompare_comp _ _ Hr _ _ (Qeq_refl _)).
Qed.

Lemma py_round_bounds q :
  (0 <= q)%Q -> (q <= 100)%Q -> (0 <= py_round q <= 100)%Z.
Proof.
  intros H0 H100. unfold py_round.
  set (f := Qfloor q).
  assert (Hf0 : (0 <= f)%Z) by apply (Qfloor_resp_le 0 q H0).
  assert (Hf100 : (f <= 100)%Z) by apply (Qfloor_resp_le q 100 H100).
  assert (Hup : (1 # 2 <= q - inject_Z f)%Q -> (f + 1 <= 100)%Z).
  { intros Hr. destruct (decide (f = 100%Z)) as [Hf|]; [|lia].
    exfalso. rewrite Hf in Hr. apply (Qle_not_lt _ _ Hr).
    apply Qle_lt_trans with (100 - inject_Z 100)%Q; [|reflexivity].
    apply Qplus_le_l. exact H100. }
  destruct (Qcompare_spec (q - inject_Z f) (1 # 2)) as [He|Hl|Hg].
  - assert (f + 1 <= 100)%Z by (apply Hup; rewrite He; apply Qle_refl).
    destruct (Z.even f); lia.
  - lia.
  - assert (f + 1 <= 100)%Z by (apply Hup; by apply Qlt_le_weak).
    lia.
Qed.

Lemma ratio_bounds c n :
  (0 < n)%nat -> (c <= n)%nat ->
  (0 <= 100 * (inject_Z (Z.of_nat c) / inject_Z (Z.of_nat n)) <= 100)%Q.
Proof.
  intros Hn Hc.
  assert (Hpos : (0 < inject_Z (Z.of_nat n))%Q).
  { change 0%Q with (inject_Z 0). rewrite <- Zlt_Qlt. lia. }
  assert (Hx0 : (0 <= inject_Z (Z.of_nat c) / inject_Z (Z.of_nat n))%Q).
  { apply Qle_shift_div_l; [done|]. rewrite Qmult_0_l.
    change 0%Q with (inject_Z 0). rewrite <- Zle_Qle. lia. }
  assert (Hx1 : (inject_Z (Z.of_nat c) / inject_Z (Z.of_nat n) <= 1)%Q).
  { apply Qle_shift_div_r; [done|]. rewrite Qmult_1_l.
    rewrite <- Zle_Qle. lia. }
  split.
  - apply Qmult_le_0_compat; [|done]. vm_compute. discriminate.
  - apply Qle_trans with (100 * 1)%Q; [|vm_compute; discriminate].
    apply Qmult_le_l; [reflexivity | done].
Qed.

Lemma filter_all {A} (P : A -> Prop) `{!forall x, Decision (P x)} l :
  Forall P l -> filter P l = l.
Proof.
  induction 1 as [|x l Hx _ IH]; [done|].
  by rewrite filter_cons_True, IH.
Qed.

Lemma filter_nothing {A} (P : A -> Prop) `{!forall x, Decision (P x)} l :
  Forall (fun x => ~ P x) l -> filter P l = [].
Proof.
  induction 1 as [|x l Hx _ IH]; [done|].
  by rewrite filter_cons_False.
Qed.

Lemma percentage_nonempty x n_effs :
  percentage (x :: n_effs)
  = Done (py_round
            (100 * (inject_Z (Z.of_nat
                       (length (filter (fun y => ge y 100 = true)
                                       (x :: n_effs))))
                    / inject_Z (Z.of_nat (length (x :: n_effs)))))).
Proof. reflexivity. Qed.

Lemma percentage_bounds n_effs p :
  percentage n_effs = Done p -> (0 <= p <= 100)%Z.
Proof.
  destruct n_effs as [|x n_effs]; [done|].
  rewrite percentage_nonempty. intros [= <-].
  apply py_round_bounds;
    apply (ratio_bounds _ (length (x :: n_effs)));
    first [cbn [length]; lia | apply (length_filter _ (x :: n_effs))].
Qed.

(** X8. The percentage annotated in a panel is an integer from 0 to
    100; it is 100 when every glacier has a mean effective sample size
    of at least 100 and 0 when none has (a NaN counts as not reaching
    100); with no glacier at all the division by the number of glaciers
    raises [ZeroDivisionError]. *)
Theorem X8_percentage_of_glaciers n_effs :
  (percentage n_effs = ZeroDivisionError <-> n_effs = []) /\
  (forall e, percentage n_effs <> Raised e) /\
  (forall p, percentage n_effs = Done p ->
     (0 <= p <= 100)%Z /\
     (Forall (fun x => ge x 100 = true) n_effs -> p = 100%Z) /\
     (Forall (fun x => ge x 100 <> true) n_effs -> p = 0%Z)).
Proof.
  split; [|split].
  - destruct n_effs; [done|]. rewrite percentage_nonempty. done.
  - intros e. destruct n_effs; [done|]. rewrite percentage_nonempty. done.
  - intros p Hp. split; [by eapply percentage_bounds|].
    destruct n_effs as [|x n_effs]; [done|].
    rewrite percentage_nonempty in Hp. injection Hp as <-. split.
    + intros Hall. rewrite (filter_all _ _ Hall).
      transitivity (py_round (inject_Z 100)); [|apply py_round_Z].
      apply py_round_proper.
      set (n := inject_Z (Z.of_nat (length (x :: n_effs)))).
      assert (Hn : ~ (n == 0)%Q).
      { unfold n. change 0%Q with (inject_Z 0). rewrite inject_Z_injective.
        cbn [length]. lia. }
      change (inject_Z (Z.of_nat (S (length n_effs)))) with n.
      unfold Qdiv. by rewrite (Qmult_inv_r _ Hn).
    + intros Hnone. rewrite (filter_nothing _ _ Hnone).
      transitivity (py_round (inject_Z 0)); [|apply py_round_Z].
      apply py_round_proper.
      cbn [length]. change (inject_Z (Z.of_nat 0)) with 0%Q.
      change (inject_Z 0) with 0%Q. unfold Qdiv.
      by rewrite Qmult_0_l, Qmult_0_r.
Qed.

(** *** The plotting cell *)

Lemma stat4_item m g k c s :
  is_ok (stat4 m g k c s) = true <->
  exists v, item4 m g k c s = Ok v /\ is_ok (as_float v) = true.
Proof.
  unfold stat4. destruct (item4 m g k c s) as [v|e]; cbn [bind].
  - split; [by exists v|]. by intros (v' & [= <-] & ?).
  - split; [done|]. by intros (v' & [=] & _).
Qed.

Lemma chains_mean_items m g k s v0 v1 v2 :
  item4 m g k (chain_key 0) s = Ok v0 ->
  item4 m g k (chain_key 1) s = Ok v1 ->
  item4 m g k (chain_key 2) s = Ok v2 ->
  chains_mean m g k s
  = do xs <- comprehension as_float [v0; v1; v2]; Ok (np_nanmean xs).
Proof.
  intros H0 H1 H2. unfold chains_mean. cbn [comprehension].
  by rewrite H0, H1, H2.
Qed.

Lemma chains_mean_ok m g k s :
  (forall n, n ∈ chain_ns -> is_ok (stat4 m g k (chain_key n) s) = true) ->
  exists v, chains_mean m g k s = Ok v.
Proof.
  intros H.
  destruct (proj1 (stat4_item m g k (chain_key 0) s)) as (v0 & H0 & F0);
    [apply H; left|].
  destruct (proj1 (stat4_item m g k (chain_key 1) s)) as (v1 & H1 & F1);
    [apply H; right; left|].
  destruct (proj1 (stat4_item m g k (chain_key 2) s)) as (v2 & H2 & F2);
    [apply H; right; right; left|].
  rewrite (chains_mean_items _ _ _ _ _ _ _ H0 H1 H2). cbn [comprehension].
  destruct (as_float v0); [|done]. destruct (as_float v1); [|done].
  destruct (as_float v2); [|done]. by eexists.
Qed.

(** The mean over the chains when the three entries are there: it is
    computed exactly when none of them is [None]. *)
Lemma chains_mean_sizes m g k s :
  (forall n, n ∈ chain_ns ->
     item4 m g k (chain_key n) s = Ok PNone \/
     exists z, item4 m g k (chain_key n) s = Ok (PInt z)) ->
  ((forall n, n ∈ chain_ns -> item4 m g k (chain_key n) s <> Ok PNone) ->
   exists v, chains_mean m g k s = Ok v) /\
  ((exists n, n ∈ chain_ns /\ item4 m g k (chain_key n) s = Ok PNone) ->
   exists msg, chains_mean m g k s = Raise (TypeError msg)).
Proof.
  intros H.
  assert (Hv : forall n, n ∈ chain_ns ->
            exists v, item4 m g k (chain_key n) s = Ok v /\
                      (v = PNone \/ exists z, v = PInt z)).
  { intros n Hn. destruct (H n Hn) as [E|[z E]]; eexists; (split; [exact E|]);
      [by left | right; by exists z]. }
  destruct (Hv 0%nat) as (v0 & H0 & C0); [left|].
  destruct (Hv 1%nat) as (v1 & H1 & C1); [right; left|].
  destruct (Hv 2%nat) as (v2 & H2 & C2); [right; right; left|].
  rewrite (chains_mean_items _ _ _ _ _ _ _ H0 H1 H2). split.
  - intros Hsome.
    assert (N0 : v0 <> PNone)
      by (intros ->; by apply (Hsome 0%nat); [left|]).
    assert (N1 : v1 <> PNone)
      by (intros ->; by apply (Hsome 1%nat); [right; left|]).
    assert (N2 : v2 <> PNone)
      by (intros ->; by apply (Hsome 2%nat); [right; right; left|]).
    destruct C0 as [->|[z0 ->]]; [done|].
    destruct C1 as [->|[z1 ->]]; [done|].
    destruct C2 as [->|[z2 ->]]; [done|].
    by eexists.
  - intros (n & Hn & Hnone). unfold chain_ns in Hn.
    assert (Hcase : v0 = PNone \/ v1 = PNone \/ v2 = PNone).
    { repeat (apply elem_of_cons in Hn as [->|Hn]).
      - left. congruence.
      - right. left. congruence.
      - right. right. congruence.
      - by apply elem_of_nil in Hn. }
    destruct C0 as [->|[z0 ->]]; [by eexists|].
    destruct C1 as [->|[z1 ->]]; [by eexists|].
    destruct C2 as [->|[z2 ->]]; [by eexists|].
    by destruct Hcase as [?|[?|?]].
Qed.

Lemma panel_of_zero m glac_ns k :
  panel_of m glac_ns k = ZeroDivisionError -> glac_ns = [].
Proof.
  unfold panel_of.
  destruct (rhats_of m glac_ns k) as [rh|]; [|done].
  destruct (comprehension _ glac_ns) as [ne|] eqn:Hne; [|done].
  apply comprehension_length in Hne.
  destruct ne as [|x ne]; [|by rewrite percentage_nonempty].
  intros _. by destruct glac_ns.
Qed.

Lemma panels_zero m glac_ns l :
  panels m glac_ns l = ZeroDivisionError -> glac_ns = [].
Proof.
  induction l as [|k l IH]; [done|]. cbn [panels].
  destruct (panel_of m glac_ns k) as [p| |] eqn:Hp; [|done|].
  - destruct (panels m glac_ns l); [done|done|]. intros _. by apply IH.
  - intros _. by eapply panel_of_zero.
Qed.

Lemma panel_of_done m glac_ns k :
  glac_ns <> [] ->
  (forall g, g ∈ glac_ns ->
     is_ok (stat3 m g k "rhat") = true /\
     forall n, n ∈ chain_ns ->
       is_ok (stat4 m g k (chain_key n) "n_eff") = true) ->
  exists p,
    panel_of m glac_ns k = Done p /\
    Forall2 (fun g r => stat3 m g k "rhat" = Ok r) glac_ns (rhats p) /\
    Forall2 (fun g v => chains_mean m g k "n_eff" = Ok v) glac_ns (n_effs p) /\
    percentage (n_effs p) = Done (pct p).
Proof.
  intros Hne Hread. unfold panel_of, rhats_of.
  destruct (comprehension_ok (fun g => stat3 m g k "rhat") glac_ns)
    as [rh Hrh]; [intros g Hg; by apply Hread|].
  destruct (comprehension_ok (fun g => chains_mean m g k "n_eff") glac_ns)
    as [ne Hnef].
  { intros g Hg. destruct (chains_mean_ok m g k "n_eff") as [v ->]; [|done].
    by apply Hread. }
  rewrite Hrh, Hnef.
  assert (Hlen : length ne = length glac_ns)
    by (by eapply comprehension_length).
  destruct ne as [|x ne]; [by destruct glac_ns|].
  rewrite percentage_nonempty. eexists. split; [done|]. cbn [rhats n_effs pct].
  split; [by apply comprehension_Forall2|].
  split; [by apply comprehension_Forall2|done].
Qed.

Lemma panels_done m glac_ns l :
  glac_ns <> [] ->
  (forall g k, g ∈ glac_ns -> k ∈ l ->
     is_ok (stat3 m g k "rhat") = true /\
     forall n, n ∈ chain_ns ->
       is_ok (stat4 m g k (chain_key n) "n_eff") = true) ->
  exists ps,
    panels m glac_ns l = Done ps /\
    Forall2 (fun k p =>
               Forall2 (fun g r => stat3 m g k "rhat" = Ok r)
                       glac_ns (rhats p) /\
               Forall2 (fun g v => chains_mean m g k "n_eff" = Ok v)
                       glac_ns (n_effs p) /\
               percentage (n_effs p) = Done (pct p)) l ps.
Proof.
  intros Hne. induction l as [|k l IH]; intros Hread.
  - exists []. split; [done|constructor].
  - destruct (panel_of_done m glac_ns k Hne) as (p & Hp & Hpanel);
      [intros g Hg; apply Hread; [done|left]|].
    destruct IH as (ps & Hps & Hall);
      [intros g k' Hg Hk'; apply Hread; [done|by right]|].
    exists (p :: ps). cbn [panels]. rewrite Hp, Hps.
    split; [done|]. by constructor.
Qed.

Lemma plot_cell_done m glac_ns :
  glac_ns <> [] ->
  (forall g, g ∈ glac_ns -> readable m g) ->
  exists fig,
    plot_cell m glac_ns = Done fig /\
    Forall2 (fun g a => as_top_float m g "area" = Ok a) glac_ns (xs fig) /\
    Forall2 (fun k p =>
               Forall2 (fun g r => stat3 m g k "rhat" = Ok r)
                       glac_ns (rhats p) /\
               Forall2 (fun g v => chains_mean m g k "n_eff" = Ok v)
                       glac_ns (n_effs p) /\
               percentage (n_effs p) = Done (pct p))
            plot_ks (fig_panels fig) /\
    Forall2 (fun g v => chains_mean m g "ar" "mean" = Ok v) glac_ns (ars fig).
Proof.
  intros Hne Hread. unfold plot_cell.
  destruct (comprehension_ok (fun g => as_top_float m g "area") glac_ns)
    as [areas Hareas]; [intros g Hg; by apply Hread|].
  destruct (panels_done m glac_ns plot_ks Hne) as (ps & Hps & Hpanels);
    [intros g k Hg Hk; by apply (Hread g Hg)|].
  destruct (comprehension_ok (fun g => chains_mean m g "ar" "mean") glac_ns)
    as [a Ha].
  { intros g Hg. destruct (chains_mean_ok m g "ar" "mean") as [v ->]; [|done].
    by apply (Hread g Hg). }
  rewrite Hareas, Hps, Ha. eexists. split; [done|]. cbn [xs fig_panels ars].
  split; [by apply comprehension_Forall2|]. split; [done|].
  by apply comprehension_Forall2.
Qed.


(** X9. The computations of the plotting cell raise
    [ZeroDivisionError] exactly when [mcmc_stats] has no glacier: the
    percentage of the first panel divides by the number of glaciers.
    With at least one glacier the division never fails, whatever the
    entries hold. *)
Theorem X9_no_glacier_divides_by_zero m glac_ns :
  plot_cell m glac_ns = ZeroDivisionError <-> glac_ns = [].
Proof.
  split; [|by intros ->].
  unfold plot_cell.
  destruct (comprehension _ glac_ns) as [areas|]; [|done].
  destruct (panels m glac_ns plot_ks) as [ps| |] eqn:Hps.
  - by destruct (comprehension _ glac_ns).
  - done.
  - intros _. by eapply panels_zero.
Qed.


(** *** The cells on the result of the loop *)

Section AfterTheLoop.

Variable sqrt : Q -> Q.
Variable effective_n : list float -> option Z.
Variable az_rhat : list (list float) -> res float.

Local Abbreviation glac_stats_of := (glac_stats_of sqrt effective_n az_rhat).
Local Abbreviation run := (run sqrt effective_n az_rhat).
Local Abbreviation keys_after := (Outcome.keys_after sqrt effective_n az_rhat).

Lemma plot_ks_in_ks k : k ∈ plot_ks -> k ∈ ks.
Proof. unfold plot_ks, ks. set_solver. Qed.

Lemma stored_left_by_loop rgi_glacs f g gs (m : gmap string pyval) :
  glac_stats_of rgi_glacs f g = Ok gs ->
  m !! g = Some (PDict gs) ->
  left_by_loop m g /\
  forall k n, k ∈ plot_ks -> n ∈ chain_ns ->
    exists prms_dict pk x,
      load_mcmc f = Ok prms_dict /\ prms_dict !! k = Some pk /\
      pk !! chain_key n = Some x /\
      item4 m g k (chain_key n) "n_eff"
      = Ok match effective_n x with
           | Some z => PInt z
           | None => PNone
           end.
Proof.
  intros H Hm.
  apply glac_stats_inv in H as (prms_dict & gs0 & a & Hload & Hgs0 & _ & ->).
  apply chain_stats_inv in Hgs0 as (Hvars & (dar & Hdar & Har) & _).
  assert (Hitem : forall k n, k ∈ plot_ks -> n ∈ chain_ns ->
            exists pk x,
              prms_dict !! k = Some pk /\ pk !! chain_key n = Some x /\
              item4 m g k (chain_key n) "n_eff"
              = Ok match effective_n x with
                   | Some z => PInt z
                   | None => PNone
                   end).
  { intros k n Hk%plot_ks_in_ks Hn.
    destruct (Hvars k Hk) as (dk & Hdk & Hsum).
    destruct Hsum as (pk & x0 & x1 & x2 & d0 & d1 & d2 & r
                      & Hpk & Hx0 & Hx1 & Hx2 & Hd0 & Hd1 & Hd2 & _ & ->).
    destruct Hd0 as (? & ? & _ & _ & ->).
    destruct Hd1 as (? & ? & _ & _ & ->).
    destruct Hd2 as (? & ? & _ & _ & ->).
    assert (Hk' : (<["area" := PFloat a]> gs0 : gmap string pyval) !! k
                  = gs0 !! k).
    { apply lookup_insert_ne. intros <-. by apply not_in_ks in Hk. }
    exists pk. unfold item4, getitem. rewrite Hm. cbn [bind as_dict].
    rewrite Hk', Hdk. unfold chain_ns in Hn.
    repeat (apply elem_of_cons in Hn as [->|Hn]);
      [by exists x0 | by exists x1 | by exists x2 |].
    by apply elem_of_nil in Hn. }
  split.
  - split; [|split].
    + unfold as_top_float, getitem. rewrite Hm. cbn [bind as_dict].
      by rewrite lookup_insert_eq.
    + intros k Hk. split.
      * apply plot_ks_in_ks in Hk.
        destruct (Hvars k Hk) as (dk & Hdk & Hsum).
        destruct Hsum as (pk & x0 & x1 & x2 & d0 & d1 & d2 & r
                          & _ & _ & _ & _ & _ & _ & _ & _ & ->).
        unfold stat3, getitem. rewrite Hm. cbn [bind as_dict].
        rewrite lookup_insert_ne, Hdk; [done|].
        intros <-. by apply not_in_ks in Hk.
      * intros n Hn. destruct (Hitem k n Hk Hn) as (pk & x & _ & _ & ->).
        destruct (effective_n x) as [z|]; [right; by exists z | by left].
    + intros n Hn.
      destruct Har as (par & x0 & x1 & x2 & d0 & d1 & d2
                       & _ & _ & _ & _ & Hd0 & Hd1 & Hd2 & ->).
      destruct Hd0 as (? & ? & ? & _ & _ & _ & ->).
      destruct Hd1 as (? & ? & ? & _ & _ & _ & ->).
      destruct Hd2 as (? & ? & ? & _ & _ & _ & ->).
      unfold stat4, item4, getitem. rewrite Hm. cbn [bind as_dict].
      rewrite lookup_insert_ne by done. rewrite Hdar. unfold chain_ns in Hn.
      repeat (apply elem_of_cons in Hn as [->|Hn]); [done..|].
      by apply elem_of_nil in Hn.
  - intros k n Hk Hn. destruct (Hitem k n Hk Hn) as (pk & x & ? & ? & ?).
    by exists prms_dict, pk, x.
Qed.

(** An entry left by the loop is readable when none of the effective
    sample sizes the cells look at is [None]. *)
Lemma left_readable m g :
  left_by_loop m g ->
  (forall k n, k ∈ plot_ks -> n ∈ chain_ns ->
     item4 m g k (chain_key n) "n_eff" <> Ok PNone) ->
  readable m g.
Proof.
  intros (Harea & Hvars & Har) Hsome. split; [done|]. split; [|done].
  intros k Hk. destruct (Hvars k Hk) as [Hrhat Hn]. split; [done|].
  intros n Hin. apply stat4_item.
  destruct (Hn n Hin) as [E|[z E]]; [by apply Hsome in E|].
  by exists (PInt z).
Qed.

(** What the plotting cell can raise on entries left by the loop. *)
Lemma comprehension_typed {A B} (f : A -> res B) l :
  (forall a, a ∈ l ->
     (exists b, f a = Ok b) \/ exists msg, f a = Raise (TypeError msg)) ->
  (exists bs, comprehension f l = Ok bs) \/
  exists msg, comprehension f l = Raise (TypeError msg).
Proof.
  induction l as [|a l IH]; intros H; [left; by eexists|]. simpl.
  destruct (H a) as [[b ->]|[msg ->]]; [left| |right; by exists msg].
  cbn [bind].
  destruct IH as [[bs ->]|[msg ->]];
    [intros a' Ha'; apply H; by right | left; by eexists | right; by exists msg].
Qed.

Lemma panel_of_typed m glac_ns k :
  glac_ns <> [] -> k ∈ plot_ks ->
  (forall g, g ∈ glac_ns -> left_by_loop m g) ->
  (exists p, panel_of m glac_ns k = Done p) \/
  exists msg, panel_of m glac_ns k = Raised (TypeError msg).
Proof.
  intros Hne Hk Hleft. unfold panel_of, rhats_of.
  destruct (comprehension_ok (fun g => stat3 m g k "rhat") glac_ns)
    as [rh ->].
  { intros g Hg. destruct (Hleft g Hg) as (_ & Hvars & _).
    by apply (Hvars k Hk). }
  destruct (comprehension_typed (fun g => chains_mean m g k "n_eff") glac_ns)
    as [[ne Hnef]|[msg ->]]; [| |right; by exists msg].
  { intros g Hg. destruct (Hleft g Hg) as (_ & Hvars & _).
    destruct (Hvars k Hk) as [_ Hn].
    destruct (chains_mean_sizes m g k "n_eff" Hn) as [Hsome Hnone].
    destruct (Hn 0%nat) as [E0|[z0 E0]];
      [left | right; apply Hnone; exists 0%nat; split; [left|done] |].
    destruct (Hn 1%nat) as [E1|[z1 E1]];
      [right; left
      | right; apply Hnone; exists 1%nat; split; [right; left|done] |].
    destruct (Hn 2%nat) as [E2|[z2 E2]];
      [right; right; left
      | right; apply Hnone; exists 2%nat; split; [right; right; left|done] |].
    left. apply Hsome. intros n Hin. unfold chain_ns in Hin.
    repeat (apply elem_of_cons in Hin as [->|Hin]);
      [by rewrite E0 | by rewrite E1 | by rewrite E2 |].
    by apply elem_of_nil in Hin. }
  rewrite Hnef. left.
  assert (Hlen : length ne = length glac_ns)
    by (by eapply comprehension_length).
  destruct ne as [|x ne]; [by destruct glac_ns|].
  rewrite percentage_nonempty. by eexists.
Qed.

Lemma panels_typed m glac_ns l :
  glac_ns <> [] -> (forall k, k ∈ l -> k ∈ plot_ks) ->
  (forall g, g ∈ glac_ns -> left_by_loop m g) ->
  (exists ps, panels m glac_ns l = Done ps) \/
  exists msg, panels m glac_ns l = Raised (TypeError msg).
Proof.
  intros Hne Hl Hleft. induction l as [|k l IH]; [left; by eexists|].
  cbn [panels].
  destruct (panel_of_typed m glac_ns k Hne) as [[p ->]|[msg ->]];
    [apply Hl; left | done | | right; by exists msg].
  destruct IH as [[ps ->]|[msg ->]];
    [intros k' Hk'; apply Hl; by right | left; by eexists
     | right; by exists msg].
Qed.

Lemma plot_cell_typed m glac_ns :
  glac_ns <> [] ->
  (forall g, g ∈ glac_ns -> left_by_loop m g) ->
  (exists fig, plot_cell m glac_ns = Done fig) \/
  exists msg, plot_cell m glac_ns = Raised (TypeError msg).
Proof.
  intros Hne Hleft. unfold plot_cell.
  destruct (comprehension_ok (fun g => as_top_float m g "area") glac_ns)
    as [areas ->]; [intros g Hg; by apply Hleft|].
  destruct (panels_typed m glac_ns plot_ks Hne) as [[ps ->]|[msg ->]];
    [done | done | | right; by exists msg].
  destruct (comprehension_ok (fun g => chains_mean m g "ar" "mean") glac_ns)
    as [a ->].
  { intros g Hg. destruct (chains_mean_ok m g "ar" "mean") as [v ->]; [|done].
    by apply (Hleft g Hg). }
  left. by eexists.
Qed.

(** A figure means that every mean effective sample size was computed. *)
Lemma panels_inv m glac_ns l ps :
  panels m glac_ns l = Done ps ->
  forall g k, g ∈ glac_ns -> k ∈ l ->
    is_ok (chains_mean m g k "n_eff") = true.
Proof.
  revert ps. induction l as [|k l IH]; intros ps H g k' Hg Hk'.
  - by apply elem_of_nil in Hk'.
  - cbn [panels] in H.
    destruct (panel_of m glac_ns k) as [p| |] eqn:Hp; [|done..].
    destruct (panels m glac_ns l) as [ps'| |] eqn:Hps; [|done..].
    apply elem_of_cons in Hk' as [->|Hk']; [|by eapply IH].
    unfold panel_of in Hp.
    destruct (rhats_of m glac_ns k); [|done].
    destruct (comprehension _ glac_ns) as [ne|] eqn:Hne; [|done].
    apply comprehension_Forall2 in Hne.
    apply list_elem_of_lookup_1 in Hg as [i Hi].
    destruct (Forall2_lookup_l _ _ _ _ _ Hne Hi) as (v & _ & ->). done.
Qed.

Lemma plot_cell_sizes m glac_ns fig :
  plot_cell m glac_ns = Done fig ->
  (forall g, g ∈ glac_ns -> left_by_loop m g) ->
  forall g k n, g ∈ glac_ns -> k ∈ plot_ks -> n ∈ chain_ns ->
    item4 m g k (chain_key n) "n_eff" <> Ok PNone.
Proof.
  intros H Hleft g k n Hg Hk Hn Hnone. unfold plot_cell in H.
  destruct (comprehension _ glac_ns); [|done].
  destruct (panels m glac_ns plot_ks) as [ps| |] eqn:Hps; [|done..].
  pose proof (panels_inv _ _ _ _ Hps g k Hg Hk) as Hok.
  destruct (Hleft g Hg) as (_ & Hvars & _).
  destruct (Hvars k Hk) as [_ Hshape].
  destruct (chains_mean_sizes m g k "n_eff" Hshape) as [_ Hraise].
  destruct Hraise as [msg Hmsg]; [by exists n|]. by rewrite Hmsg in Hok.
Qed.

(** X11. The cells after the loop run on what the loop leaves, with
    [glac_ns] the keys of [mcmc_stats].  The cell that collects the
    glaciers to check always completes, with stored glaciers only.
    When no file was stored, the cell that shows the first entry raises
    [IndexError] and the plotting cell [ZeroDivisionError].  When some
    file was stored, the first entry is shown, and the computations of
    the plotting cell complete exactly when no effective sample size of
    a plotted variable is [None]; otherwise [np.nanmean] raises
    [TypeError].  The effective sample size found for a glacier, a
    plotted variable and a chain is what [effective_n] returned for
    that chain of a file of the glacier. *)
Theorem X11_cells_run_after_the_loop rgi_glacs files st' :
  Forall (fun f => from_glob (path f)) files ->
  run rgi_glacs files init = Ok st' ->
  (exists l,
     glacs_check_cell (mcmc_stats st') (keys_after rgi_glacs files) = Ok l /\
     NoDup l /\ forall g, g ∈ l -> g ∈ dom (mcmc_stats st')) /\
  (keys_after rgi_glacs files = [] ->
     first_entry (mcmc_stats st') (keys_after rgi_glacs files)
     = Raise (IndexError "list index out of range") /\
     plot_cell (mcmc_stats st') (keys_after rgi_glacs files)
     = ZeroDivisionError) /\
  (keys_after rgi_glacs files <> [] ->
     (exists gs, first_entry (mcmc_stats st') (keys_after rgi_glacs files)
                 = Ok (PDict gs)) /\
     ((exists fig, plot_cell (mcmc_stats st') (keys_after rgi_glacs files)
                   = Done fig) <->
      forall g k n,
        g ∈ keys_after rgi_glacs files -> k ∈ plot_ks -> n ∈ chain_ns ->
        item4 (mcmc_stats st') g k (chain_key n) "n_eff" <> Ok PNone) /\
     ((exists g k n,
         g ∈ keys_after rgi_glacs files /\ k ∈ plot_ks /\ n ∈ chain_ns /\
         item4 (mcmc_stats st') g k (chain_key n) "n_eff" = Ok PNone) ->
      exists msg, plot_cell (mcmc_stats st') (keys_after rgi_glacs files)
                  = Raised (TypeError msg))) /\
  (forall g k n,
     g ∈ keys_after rgi_glacs files -> k ∈ plot_ks -> n ∈ chain_ns ->
     exists f prms_dict pk x,
       f ∈ files /\ glacno_of (path f) = Ok g /\
       load_mcmc f = Ok prms_dict /\ prms_dict !! k = Some pk /\
       pk !! chain_key n = Some x /\
       item4 (mcmc_stats st') g k (chain_key n) "n_eff"
       = Ok match effective_n x with
            | Some z => PInt z
            | None => PNone
            end).
Proof.
  intros Hglob Hrun.
  destruct (OutcomeFacts.keys_step_run
              sqrt effective_n az_rhat rgi_glacs files init st' []
              Hglob Hrun) as (_ & Hdom & _); [apply NoDup_nil_2 | set_solver |].
  fold (keys_after rgi_glacs files) in Hdom.
  assert (Hfile : forall g, g ∈ keys_after rgi_glacs files ->
            exists f gs, f ∈ files /\ glacno_of (path f) = Ok g /\
                         glac_stats_of rgi_glacs f g = Ok gs /\
                         mcmc_stats st' !! g = Some (PDict gs)).
  { intros g [v Hv]%Hdom%elem_of_dom.
    destruct (run_entry _ _ _ _ _ _ _ _ _ Hrun Hv)
      as [Hinit|(f & gs & Hf & Hg & Hgs & ->)]; [done|].
    by exists f, gs. }
  assert (Hleft : forall g, g ∈ keys_after rgi_glacs files ->
                            left_by_loop (mcmc_stats st') g).
  { intros g Hg. destruct (Hfile g Hg) as (f & gs & _ & _ & Hgs & Hv).
    by destruct (stored_left_by_loop _ _ _ _ _ Hgs Hv). }
  split; [|split; [|split]].
  - destruct (check_vars_spec (mcmc_stats st') (keys_after rgi_glacs files)
                              plot_ks []) as (l & Hl & Hnd & Hmem);
      [|apply NoDup_nil_2|].
    { intros g k Hg Hk. destruct (Hleft g Hg) as (_ & Hvars & _).
      by apply (Hvars k Hk). }
    exists l. split; [exact Hl|]. split; [exact Hnd|].
    intros g Hg%Hmem. destruct Hg as [?%elem_of_nil|[Hg _]]; [done|].
    by apply Hdom.
  - intros ->. done.
  - intros Hne. split; [|split].
    + destruct (keys_after rgi_glacs files) as [|g l] eqn:Hkeys; [done|].
      destruct (Hfile g) as (f & gs & _ & _ & _ & Hv); [left|].
      exists gs. unfold first_entry, list_item, getitem. cbn [lookup].
      simpl. by rewrite Hv.
    + split.
      * intros [fig Hfig]. by eapply plot_cell_sizes.
      * intros Hsome.
        destruct (plot_cell_done (mcmc_stats st')
                    (keys_after rgi_glacs files) Hne) as (fig & Hfig & _).
        { intros g Hg. apply left_readable; [by apply Hleft|].
          intros k n. by apply Hsome. }
        by exists fig.
    + intros (g & k & n & Hg & Hk & Hn & Hnone).
      destruct (plot_cell_typed _ _ Hne Hleft) as [[fig Hfig]|Hmsg]; [|done].
      by destruct (plot_cell_sizes _ _ _ Hfig Hleft g k n).
  - intros g k n Hg Hk Hn.
    destruct (Hfile g Hg) as (f & gs & Hf & Hgf & Hgs & Hv).
    destruct (stored_left_by_loop _ _ _ _ _ Hgs Hv) as [_ Hitem].
    destruct (Hitem k n Hk Hn) as (prms_dict & pk & x & ? & ? & ? & ?).
    by exists f, prms_dict, pk, x.
Qed.

End AfterTheLoop.

(** *** The theorems at the demonstration files *)

Lemma survey_rhat g k :
  g ∈ ["1.00570"; "1.15645"] -> k ∈ plot_ks ->
  is_ok (stat3 Survey.region_stats g k "rhat") = true.
Proof.
  intros Hg Hk. unfold plot_ks in Hk.
  repeat (apply elem_of_cons in Hg as [->|Hg]);
    [| |apply elem_of_nil in Hg; destruct Hg];
    (repeat (apply elem_of_cons in Hk as [->|Hk]);
     [vm_compute; reflexivity ..|apply elem_of_nil in Hk; destruct Hk]).
Defined.

Lemma X7_witness :
  exists l,
    glacs_check_cell Survey.region_stats ["1.00570"; "1.15645"] = Ok l /\
    "1.15645" ∈ l /\ "1.00570" ∉ l.
Proof.
  destruct (X7_glaciers_to_check Survey.region_stats ["1.00570"; "1.15645"]
              survey_rhat) as (l & Hl & _ & Hmem).
  exists l. split; [exact Hl|]. split.
  - apply Hmem. split; [right; left|].
    exists "mb_mwea", (Fin (29 # 20)). split; [left|].
    split; vm_compute; reflexivity.
  - intros (_ & k & r & Hk & Hstat & Hgt)%Hmem. unfold plot_ks in Hk.
    repeat (apply elem_of_cons in Hk as [->|Hk]);
      [..|apply elem_of_nil in Hk; destruct Hk];
      vm_compute in Hstat; injection Hstat as <-; discriminate Hgt.
Defined.


Lemma X8_witness :
  percentage [Fin 120; NaN; Fin 100; Fin 99; Fin 7; Fin 250; Fin 3; Fin 1]
  = Done 38%Z /\
  (0 <= 38 <= 100)%Z.
Proof.
  assert (H : percentage
                [Fin 120; NaN; Fin 100; Fin 99; Fin 7; Fin 250; Fin 3; Fin 1]
              = Done 38%Z) by (vm_compute; reflexivity).
  split; [exact H|].
  destruct (X8_percentage_of_glaciers
              [Fin 120; NaN; Fin 100; Fin 99; Fin 7; Fin 250; Fin 3; Fin 1])
    as (_ & _ & Hp).
  exact (proj1 (Hp _ H)).
Defined.

Lemma X9_witness : plot_cell Survey.region_stats [] = ZeroDivisionError.
Proof.
  apply (proj2 (X9_no_glacier_divides_by_zero Survey.region_stats [])).
  reflexivity.
Defined.


Lemma gulkana_first_from_glob :
  Forall (fun f => from_glob (path f)) [Survey.gulkana; Demo.kennicott].
Proof.
  repeat constructor.
  - by exists "/data/Output/calibration/01//1.00570".
  - by exists "/data/Output/calibration/01//1.15645".
Defined.

Lemma gulkana_mb_mwea :
  Demo.calibration (Demo.ramp 2) (Demo.ramp 100) !! "mb_mwea"
  = Some (Demo.three_chains (Demo.ramp 2)).
Proof. vm_compute. reflexivity. Defined.

Lemma mb_mwea_is_plotted : "mb_mwea" ∈ plot_ks.
Proof. left. Defined.

Lemma gulkana_is_first : "1.00570" ∈ ["1.00570"; "1.15645"].
Proof. left. Defined.

Lemma X11_witness :
  (exists st' l gs fig,
     Mcmc.run Demo.sqrt Demo.effective_n Demo.az_rhat Demo.rgi_glacs
              [Demo.kennicott; Demo.broken; Demo.short_ar] init = Ok st' /\
     glacs_check_cell (mcmc_stats st') ["1.15645"; "1.00001"] = Ok l /\
     first_entry (mcmc_stats st') ["1.15645"; "1.00001"] = Ok (PDict gs) /\
     plot_cell (mcmc_stats st') ["1.15645"; "1.00001"] = Done fig) /\
  (exists st' msg,
     Mcmc.run Demo.sqrt Survey.cautious_n Demo.az_rhat Survey.glaciers
              [Survey.gulkana; Demo.kennicott] init = Ok st' /\
     item4 (mcmc_stats st') "1.00570" "mb_mwea" (chain_key 0) "n_eff"
     = Ok PNone /\
     plot_cell (mcmc_stats st') ["1.00570"; "1.15645"]
     = Raised (TypeError msg)).
Proof.
  split.
  - destruct (run_glob Demo.sqrt Demo.effective_n Demo.az_rhat Demo.rgi_glacs
                       _ init demo_files_from_glob) as [st' Hrun].
    destruct (X11_cells_run_after_the_loop
                Demo.sqrt Demo.effective_n Demo.az_rhat Demo.rgi_glacs
                _ st' demo_files_from_glob Hrun)
      as ((l & Hl & _) & _ & Hsome & Hsize).
    assert (Hkeys :
      Outcome.keys_after Demo.sqrt Demo.effective_n Demo.az_rhat Demo.rgi_glacs
        [Demo.kennicott; Demo.broken; Demo.short_ar]
      = ["1.15645"; "1.00001"]) by (vm_compute; reflexivity).
    rewrite Hkeys in Hl, Hsome, Hsize.
    destruct Hsome as ((gs & Hfirst) & Hiff & _); [intros [=]|].
    destruct (proj2 Hiff) as [fig Hfig].
    { intros g k n Hg Hk Hn.
      destruct (Hsize g k n Hg Hk Hn) as (f & prms_dict & pk & x & _ & _ & _ & _ & _ & ->).
      intros [=]. }
    exists st', l, gs, fig.
    split; [exact Hrun|]. split; [exact Hl|].
    split; [exact Hfirst | exact Hfig].
  - destruct (run_glob Demo.sqrt Survey.cautious_n Demo.az_rhat Survey.glaciers
                       _ init gulkana_first_from_glob) as [st' Hrun].
    destruct (X11_cells_run_after_the_loop
                Demo.sqrt Survey.cautious_n Demo.az_rhat Survey.glaciers
                _ st' gulkana_first_from_glob Hrun)
      as (_ & _ & Hsome & Hsize).
    assert (Hkeys :
      Outcome.keys_after Demo.sqrt Survey.cautious_n Demo.az_rhat
        Survey.glaciers [Survey.gulkana; Demo.kennicott]
      = ["1.00570"; "1.15645"]) by (vm_compute; reflexivity).
    rewrite Hkeys in Hsome, Hsize.
    destruct Hsome as (_ & _ & Hraise); [intros [=]|].
    assert (Hnone : item4 (mcmc_stats st') "1.00570" "mb_mwea"
                          (chain_key 0) "n_eff" = Ok PNone).
    { destruct (Hsize "1.00570" "mb_mwea" 0%nat gulkana_is_first
                      mb_mwea_is_plotted chain_0_in_chain_ns)
        as (f & prms_dict & pk & x & Hf & Hg & Hload & Hpk & Hx & ->).
      apply elem_of_cons in Hf as [->|Hf].
      - injection Hload as <-. rewrite gulkana_mb_mwea in Hpk.
        injection Hpk as <-. rewrite chain_0_of in Hx. injection Hx as <-.
        reflexivity.
      - apply elem_of_cons in Hf as [->|Hf].
        + vm_compute in Hg. discriminate Hg.
        + apply elem_of_nil in Hf. destruct Hf. }
    destruct Hraise as [msg Hmsg].
    { exists "1.00570", "mb_mwea", 0%nat.
      split; [exact gulkana_is_first|]. split; [exact mb_mwea_is_plotted|].
      split; [exact chain_0_in_chain_ns | exact Hnone]. }
    exists st', msg. split; [exact Hrun|]. split; [exact Hnone | exact Hmsg].
Defined.

End DiagnosticsFacts.

(** ** The multi-GCM notebook beyond the bands *)

Module EnsembleFacts.

Import Numpy Gcm Ensemble MonadFacts NumpyFacts GcmFacts.

(** *** The annual sums keep the total *)

Lemma year_bins_total vs : forall month acc,
  (qsum (year_bins month acc vs) == acc + qsum vs)%Q.
Proof.
  induction vs as [|v vs IH]; intros month acc; cbn [year_bins].
  - rewrite qsum_cons. done.
  - destruct (month =? 12)%nat.
    + by rewrite !qsum_cons, IH.
    + rewrite IH, Qred_correct, qsum_cons. ring.
Qed.

Lemma finite_Fin qs : finite (map Fin qs) = qs.
Proof. induction qs as [|q qs IH]; [done|]. simpl. by rewrite IH. Qed.

(** X12. Resampling to years loses nothing and adds nothing: the
    annual runoff values of a file with at least one month add up to
    the total of its monthly values, whatever the first month of the
    series is.  A file without any month has no annual values: the
    resampling raises. *)
Theorem X12_annual_runoff_keeps_the_total ds :
  match values (glac_runoff_monthly ds) with
  | [] =>
      annual_runoff_of ds
      = Raise (ValueError "__resample_dim__ must not be empty")
  | _ :: _ =>
      exists annual,
        annual_runoff_of ds = Ok annual /\
        (qsum (finite annual) == qsum (values (glac_runoff_monthly ds)))%Q
  end.
Proof.
  unfold annual_runoff_of, resample_YE_sum.
  destruct (values (glac_runoff_monthly ds)) as [|v vs]; [done|].
  cbn [bind]. eexists. split; [reflexivity|].
  by rewrite finite_Fin, year_bins_total, qsum_cons.
Qed.

Lemma annual_runoff_empty ds :
  values (glac_runoff_monthly ds) = [] ->
  annual_runoff_of ds
  = Raise (ValueError "__resample_dim__ must not be empty").
Proof. unfold annual_runoff_of, resample_YE_sum. by intros ->. Qed.

Lemma annual_runoff_raises ds e :
  annual_runoff_of ds = Raise e ->
  e = ValueError "__resample_dim__ must not be empty".
Proof.
  unfold annual_runoff_of, resample_YE_sum.
  destruct (values (glac_runoff_monthly ds)); cbn [bind]; congruence.
Qed.

(** A comprehension stops at the first element that raises. *)
Lemma comprehension_raises {A B} (f : A -> res B) l a e :
  a ∈ l -> f a = Raise e ->
  (forall b e', b ∈ l -> f b = Raise e' -> e' = e) ->
  comprehension f l = Raise e.
Proof.
  induction l as [|b l IH]; intros Ha Hfa Hall; [by apply elem_of_nil in Ha|].
  cbn [comprehension]. destruct (f b) as [y|e'] eqn:Hb.
  - cbn [bind]. apply elem_of_cons in Ha as [->|Ha]; [congruence|].
    rewrite IH; [done | done | done |].
    intros b' e'' Hb' Hfb'. eapply Hall; [by right | done].
  - cbn [bind]. f_equal. eapply Hall; [left | done].
Qed.

(** *** The mean lies between the extremes *)

Lemma length_succ_Q {A} (a : A) l :
  (inject_Z (Z.of_nat (length (a :: l)))
   == inject_Z (Z.of_nat (length l)) + 1)%Q.
Proof.
  cbn [length]. rewrite Nat2Z.inj_succ. unfold Z.succ.
  by rewrite inject_Z_plus.
Qed.

Lemma qsum_lower lo l :
  (forall y, y ∈ l -> (lo <= y)%Q) ->
  (lo * inject_Z (Z.of_nat (length l)) <= qsum l)%Q.
Proof.
  induction l as [|q l IH]; intros H.
  - cbn [length]. change (inject_Z (Z.of_nat 0)) with 0%Q.
    rewrite Qmult_0_r. apply Qle_refl.
  - rewrite length_succ_Q, qsum_cons, Qmult_plus_distr_r, Qmult_1_r.
    rewrite (Qplus_comm q). apply Qplus_le_compat.
    + apply IH. intros y Hy. apply H. by right.
    + apply H. left.
Qed.

Lemma qsum_upper hi l :
  (forall y, y ∈ l -> (y <= hi)%Q) ->
  (qsum l <= hi * inject_Z (Z.of_nat (length l)))%Q.
Proof.
  induction l as [|q l IH]; intros H.
  - cbn [length]. change (inject_Z (Z.of_nat 0)) with 0%Q.
    rewrite Qmult_0_r. apply Qle_refl.
  - rewrite length_succ_Q, qsum_cons, Qmult_plus_distr_r, Qmult_1_r.
    rewrite (Qplus_comm q). apply Qplus_le_compat.
    + apply IH. intros y Hy. apply H. by right.
    + apply H. left.
Qed.

Lemma qmean_between q qs :
  (qmin q qs <= qmean (q :: qs) <= qmax q qs)%Q.
Proof.
  assert (Hpos : (0 < inject_Z (Z.of_nat (length (q :: qs))))%Q).
  { change 0%Q with (inject_Z 0). rewrite <- Zlt_Qlt. cbn [length]. lia. }
  unfold qmean. rewrite Qred_correct. split.
  - apply Qle_shift_div_l; [done|]. apply qsum_lower.
    apply (qmin_least q qs).
  - apply Qle_shift_div_r; [done|]. apply qsum_upper.
    apply (qmax_greatest q qs).
Qed.

Lemma nan_band_ordered c :
  between (np_nanmin c) (np_nanmean c) (np_nanmax c).
Proof.
  unfold between, np_nanmin, np_nanmean, np_nanmax.
  destruct (finite c) as [|q qs]; [done|]. apply qmean_between.
Qed.

(** *** When the aggregation goes through *)

Lemma stackable_vstack series :
  stackable series -> np_vstack series = Ok series.
Proof.
  intros [Hne [m Hall]]. unfold np_vstack.
  destruct series as [|r rs]; [done|].
  apply Forall_cons in Hall as [Hr Hrs].
  assert (forallb (fun r0 => (length r0 =? length r)%nat) rs = true) as ->;
    [|done].
  apply forallb_forall. intros s Hs. apply list_elem_of_In in Hs.
  rewrite Forall_forall in Hrs. apply Nat.eqb_eq. rewrite Hr. by apply Hrs.
Qed.

Lemma vstack_stackable series rows :
  np_vstack series = Ok rows -> stackable series.
Proof.
  intros H. destruct (vstack_band np_nanmean _ _ H) as (m & Hne & Hall & _).
  split; [done|]. by exists m.
Qed.

Lemma vstack_empty :
  np_vstack [] = Raise (ValueError "need at least one array to concatenate").
Proof. done. Qed.

Section WithFiles.

Variable sqrt : Q -> Q.
Variable fns : string -> list dataset.

Local Abbreviation scenario_body := (scenario_body sqrt fns).
Local Abbreviation aggregate := (aggregate sqrt fns).
Local Abbreviation bands := (bands sqrt).

Lemma scenario_body_ok scenario st :
  scenario_ok fns scenario ->
  exists st', scenario_body scenario st = Ok st'.
Proof.
  intros ((runoff & Hrunoff & Hr) & Ha & Hm). unfold Gcm.scenario_body.
  apply comprehension_Forall2 in Hrunoff. rewrite Hrunoff. cbn [bind].
  rewrite (stackable_vstack _ Hr). cbn [bind].
  do 4 (erewrite store_at by apply lookup_insert_eq; cbn [bind]).
  rewrite (stackable_vstack _ Ha). cbn [bind].
  do 4 (erewrite store_at by apply lookup_insert_eq; cbn [bind]).
  rewrite (stackable_vstack _ Hm). cbn [bind].
  do 4 (erewrite store_at by apply lookup_insert_eq; cbn [bind]).
  by eexists.
Qed.

Lemma scenario_body_stackable scenario st st' :
  scenario_body scenario st = Ok st' -> scenario_ok fns scenario.
Proof.
  unfold Gcm.scenario_body. intros H.
  inv_bind H as annual Hannual.
  inv_bind H as runoff Hrunoff.
  do 4 (erewrite store_at in H by apply lookup_insert_eq; cbn [bind] in H).
  inv_bind H as area Harea.
  do 4 (erewrite store_at in H by apply lookup_insert_eq; cbn [bind] in H).
  inv_bind H as mass Hmass.
  split; [|split]; [|by eapply vstack_stackable..].
  exists annual. split; [by apply comprehension_Forall2|].
  by eapply vstack_stackable.
Qed.

Lemma scenario_body_year scenario st st' :
  scenario_body scenario st = Ok st' ->
  exists ds, last (fns scenario) = Some ds /\
             year_var st' = Some (model_years ds).
Proof.
  unfold Gcm.scenario_body. intros H.
  inv_bind H as annual Hannual.
  inv_bind H as runoff Hrunoff.
  do 4 (erewrite store_at in H by apply lookup_insert_eq; cbn [bind] in H).
  inv_bind H as area Harea.
  do 4 (erewrite store_at in H by apply lookup_insert_eq; cbn [bind] in H).
  inv_bind H as mass Hmass.
  do 4 (erewrite store_at in H by apply lookup_insert_eq; cbn [bind] in H).
  injection H as <-. cbn [year_var].
  destruct (last (fns scenario)) as [ds|] eqn:Hlast; [by exists ds|].
  apply last_None in Hlast. by rewrite Hlast in Hmass.
Qed.

Lemma scenarios_ok l : forall st,
  (forall scenario, scenario ∈ l -> scenario_ok fns scenario) ->
  exists st', for_each scenario_body l st = Ok st'.
Proof.
  induction l as [|a l IH]; intros st H; [by eexists|].
  cbn [for_each].
  destruct (scenario_body_ok a st) as [st1 ->]; [apply H; left|].
  cbn [bind]. apply IH. intros s Hs. apply H. by right.
Qed.

Lemma scenarios_stackable l : forall st st',
  for_each scenario_body l st = Ok st' ->
  forall scenario, scenario ∈ l -> scenario_ok fns scenario.
Proof.
  induction l as [|a l IH]; intros st st' H s Hs.
  - by apply elem_of_nil in Hs.
  - cbn [for_each] in H. inv_bind H as st1 E.
    apply elem_of_cons in Hs as [->|Hs].
    + by eapply scenario_body_stackable.
    + by eapply IH.
Qed.

(** X13. The aggregation cell completes exactly when every scenario
    has at least one output file, every file has at least one month of
    runoff and, for each of runoff, area and mass, the series of its
    files are equally long; a scenario whose glob matches no file raises
    the [ValueError] of [np.vstack], and a scenario with a file whose
    time axis is empty raises the [ValueError] of the resampling. *)
Theorem X13_aggregation_completes_iff st :
  (is_ok (aggregate st) = true <->
   forall scenario, scenario ∈ scenarios ->
     Forall (fun ds => values (glac_runoff_monthly ds) <> []) (fns scenario) /\
     scenario_ok fns scenario) /\
  (forall scenario st0,
     fns scenario = [] ->
     scenario_body scenario st0
     = Raise (ValueError "need at least one array to concatenate")) /\
  (forall scenario st0 ds,
     ds ∈ fns scenario -> values (glac_runoff_monthly ds) = [] ->
     scenario_body scenario st0
     = Raise (ValueError "__resample_dim__ must not be empty")).
Proof.
  split; [split|split].
  - intros H scenario Hs. apply is_ok_true in H as [st' H].
    pose proof (scenarios_stackable _ _ _ H scenario Hs) as Hok.
    split; [|done]. destruct Hok as ((series & Hseries & _) & _).
    apply Forall_forall. intros ds Hds Hnone.
    apply list_elem_of_lookup in Hds as [i Hi].
    destruct (Forall2_lookup_l _ _ _ _ _ Hseries Hi) as (y & _ & Hy).
    by rewrite (annual_runoff_empty _ Hnone) in Hy.
  - intros H. unfold Gcm.aggregate.
    destruct (scenarios_ok scenarios
                {| results := ∅; year_var := year_var st |}) as [st' ->];
      [|done].
    intros scenario Hs. by apply H.
  - intros scenario st0 Hnone. unfold Gcm.scenario_body. by rewrite Hnone.
  - intros scenario st0 ds Hds Hnone. unfold Gcm.scenario_body.
    rewrite (comprehension_raises annual_runoff_of (fns scenario) ds
               (ValueError "__resample_dim__ must not be empty"));
      [done | done | by apply annual_runoff_empty |].
    intros b e' _. apply annual_runoff_raises.
Qed.

(** X14. After the aggregation, the list [year] that the plots and the
    period cell use is the year array, without its last entry, of the
    last file of the last scenario, ssp585: what the cell found in
    [year] before, and the years of every other file, play no part. *)
Theorem X14_year_of_the_last_file st st' :
  aggregate st = Ok st' ->
  exists ds,
    last (fns "ssp585") = Some ds /\
    year_var st' = Some (take (length (year ds) - 1) (year ds)).
Proof.
  unfold Gcm.aggregate, scenarios. cbn [for_each]. intros H.
  inv_bind H as st1 E1. inv_bind H as st2 E2. inv_bind H as st3 E3.
  injection H as <-. by apply scenario_body_year in E3.
Qed.

Lemma band_ordered series lmin lmean lmax :
  band np_nanmin series lmin -> band np_nanmean series lmean ->
  band np_nanmax series lmax ->
  length lmin = length lmean /\ length lmax = length lmean /\
  forall j me, lmean !! j = Some me ->
    exists mn mx, lmin !! j = Some mn /\ lmax !! j = Some mx /\
                  between mn me mx.
Proof.
  intros (m1 & Hne & Hall1 & Hlen1 & H1) (m2 & _ & Hall2 & Hlen2 & H2)
         (m3 & _ & Hall3 & Hlen3 & H3).
  destruct series as [|r rs]; [done|].
  apply Forall_cons in Hall1 as [<- _]. apply Forall_cons in Hall2 as [<- _].
  apply Forall_cons in Hall3 as [<- _].
  split; [congruence|]. split; [congruence|].
  intros j me Hj.
  assert (Hlt : (j < length r)%nat).
  { rewrite <- Hlen2. by eapply lookup_lt_Some. }
  rewrite (H2 j Hlt) in Hj. injection Hj as <-.
  exists (np_nanmin (column (r :: rs) j)), (np_nanmax (column (r :: rs) j)).
  split; [by apply H1|]. split; [by apply H3|]. apply nan_band_ordered.
Qed.

Lemma bands_ordered q series d :
  bands q series d ->
  exists lmin lmean lmax,
    d !! ("min_" +:+ q) = Some lmin /\ d !! ("mean_" +:+ q) = Some lmean /\
    d !! ("max_" +:+ q) = Some lmax /\
    length lmin = length lmean /\ length lmax = length lmean /\
    forall j me, lmean !! j = Some me ->
      exists mn mx, lmin !! j = Some mn /\ lmax !! j = Some mx /\
                    between mn me mx.
Proof.
  intros ((lmean & Hmean & Bmean) & _ & (lmin & Hmin & Bmin)
          & (lmax & Hmax & Bmax)).
  exists lmin, lmean, lmax. do 3 (split; [done|]).
  by eapply band_ordered.
Qed.

(** X15. In exact arithmetic (floats idealised as rationals or NaN),
    in every year of every scenario the stored ensemble mean of runoff,
    of area and of mass lies between the stored minimum and the stored
    maximum, and the three lists have one length.  A year with no value
    from any GCM has NaN in all three.  On doubles the two inequalities
    hold up to the rounding of the sum only: see
    [Binary64Facts.mean_above_the_maximum]. *)
Theorem X15_mean_within_the_band st st' scenario q :
  aggregate st = Ok st' ->
  scenario ∈ scenarios ->
  q ∈ ["runoff"; "area"; "mass"] ->
  exists d lmin lmean lmax,
    results st' !! scenario = Some d /\
    d !! ("min_" +:+ q) = Some lmin /\ d !! ("mean_" +:+ q) = Some lmean /\
    d !! ("max_" +:+ q) = Some lmax /\
    length lmin = length lmean /\ length lmax = length lmean /\
    forall j me, lmean !! j = Some me ->
      exists mn mx, lmin !! j = Some mn /\ lmax !! j = Some mx /\
                    between mn me mx.
Proof.
  intros H Hs Hq. unfold Gcm.aggregate in H.
  apply scenarios_loop in H as [Hin _].
  destruct (Hin scenario Hs)
    as (d & runoff & Hd & _ & Hrunoff & Harea & Hmass & _).
  exists d.
  assert (Hcase : exists series, bands q series d).
  { repeat (apply elem_of_cons in Hq as [->|Hq]);
      [by eexists | by eexists | by eexists |].
    by apply elem_of_nil in Hq. }
  destruct Hcase as [series Hb].
  destruct (bands_ordered _ _ _ Hb)
    as (lmin & lmean & lmax & ? & ? & ? & ? & ? & ?).
  by exists lmin, lmean, lmax.
Qed.

End WithFiles.

(** *** A period whose years are not in the year list *)

Section PeriodCell.

Variable sqrt : Q -> Q.

Local Abbreviation period_body := (period_body sqrt).
Local Abbreviation period_averages := (period_averages sqrt).

Lemma index_missing y l :
  y ∉ l -> index y l = Raise (ValueError (pretty y +:+ " is not in list")).
Proof.
  induction l as [|z l IH]; intros H; [done|]. cbn [index].
  apply not_elem_of_cons in H as [Hne Hl].
  destruct (Z.eqb_spec z y) as [->|_]; [done|]. by rewrite (IH Hl).
Qed.

Lemma period_body_missing st scenario period yr :
  year_var st = Some yr ->
  period.1 ∉ yr \/ period.2 ∉ yr ->
  period_body st scenario period
  = Raise (ValueError (pretty (missing_year yr period) +:+ " is not in list")).
Proof.
  intros Hyr Hmiss. unfold Gcm.period_body, missing_year.
  rewrite Hyr. cbn [bind].
  destruct (decide (period.1 ∈ yr)) as [H1|H1].
  - destruct (index_found _ _ H1) as [i0 ->]. cbn [bind].
    destruct Hmiss as [?|H2]; [done|]. by rewrite (index_missing _ _ H2).
  - by rewrite (index_missing _ _ H1).
Qed.

Lemma period_body_found st scenario period yr d mr :
  year_var st = Some yr ->
  period.1 ∈ yr -> period.2 ∈ yr ->
  results st !! scenario = Some d -> d !! "mean_runoff" = Some mr ->
  exists r, period_body st scenario period = Ok (PeriodLine r) /\
            rep_scenario r = scenario /\ rep_period r = period.
Proof.
  intros Hyr H1 H2 Hd Hmr. unfold Gcm.period_body. rewrite Hyr. cbn [bind].
  destruct (index_found _ _ H1) as [i0 ->].
  destruct (index_found _ _ H2) as [i1 ->]. cbn [bind].
  unfold getitem. rewrite Hd. cbn [bind]. rewrite Hmr. cbn [bind].
  by eexists.
Qed.

Lemma print_each_stops {A} (body : A -> res line) (P : A -> line -> Prop)
    pre a post e : forall out,
  (forall b, b ∈ pre -> exists ln, body b = Ok ln /\ P b ln) ->
  body a = Raise e ->
  exists lines,
    print_each body (pre ++ a :: post) out = (out ++ lines, Some e) /\
    Forall2 P pre lines.
Proof.
  induction pre as [|b pre IH]; intros out Hpre Ha.
  - exists []. cbn [app print_each]. rewrite Ha, app_nil_r.
    split; [done|constructor].
  - destruct (Hpre b) as (ln & Hln & HP); [left|].
    destruct (IH (out ++ [ln])) as (lines & Hlines & Hall);
      [intros b' Hb'; apply Hpre; by right | done |].
    exists (ln :: lines). cbn [app print_each]. rewrite Hln, Hlines.
    rewrite <- app_assoc. split; [done|]. by constructor.
Qed.

(** X16. When an end of a period is not in the year list, the period
    cell stops there with the [ValueError] of [list.index], whose
    message names the first of the two years of the period that is
    missing: it has printed the name of the first scenario and one line
    for each earlier period, and prints nothing for the other
    scenarios. *)
Theorem X16_period_cell_stops st yr d mr pre period post :
  year_var st = Some yr ->
  results st !! "ssp245" = Some d -> d !! "mean_runoff" = Some mr ->
  periods = pre ++ period :: post ->
  (forall p, p ∈ pre -> p.1 ∈ yr /\ p.2 ∈ yr) ->
  period.1 ∉ yr \/ period.2 ∉ yr ->
  exists lines,
    period_averages st
    = (ScenarioLine "ssp245" :: lines,
       Some (ValueError (pretty (missing_year yr period)
                         +:+ " is not in list"))) /\
    Forall2 (fun p ln =>
               exists r, ln = PeriodLine r /\ rep_scenario r = "ssp245" /\
                         rep_period r = p) pre lines.
Proof.
  intros Hyr Hd Hmr Hperiods Hpre Hmiss.
  destruct (print_each_stops (period_body st "ssp245")
              (fun p ln => exists r, ln = PeriodLine r /\
                                     rep_scenario r = "ssp245" /\
                                     rep_period r = p)
              pre period post
              (ValueError (pretty (missing_year yr period)
                           +:+ " is not in list"))
              [ScenarioLine "ssp245"])
    as (lines & Hlines & Hall).
  { intros p Hp. destruct (Hpre p Hp) as [H1 H2].
    destruct (period_body_found st "ssp245" p yr d mr Hyr H1 H2 Hd Hmr)
      as (r & Hr & Hs & Hper).
    exists (PeriodLine r). split; [done|]. by exists r. }
  { by eapply period_body_missing. }
  exists lines. split; [|done].
  unfold Gcm.period_averages, scenarios. cbn [period_loop app].
  rewrite Hperiods, Hlines. done.
Qed.

End PeriodCell.

(** *** The theorems at the demonstration files *)

Lemma demo_aggregate :
  exists st', aggregate Demo.sqrt Demo.fns Demo.fresh = Ok st'.
Proof. apply is_ok_true. vm_compute. reflexivity. Defined.

Lemma X12_witness :
  exists annual,
    annual_runoff_of Demo.water_year = Ok annual /\
    (qsum (finite annual) == 171)%Q.
Proof.
  destruct (X12_annual_runoff_keeps_the_total Demo.water_year)
    as (annual & Hannual & Htotal).
  exists annual. split; [exact Hannual|].
  rewrite Htotal. vm_compute. reflexivity.
Defined.

Lemma X13_witness :
  is_ok (aggregate Demo.sqrt Demo.fns Demo.fresh) = true /\
  scenario_ok Demo.fns "ssp245".
Proof.
  assert (H : is_ok (aggregate Demo.sqrt Demo.fns Demo.fresh) = true)
    by (vm_compute; reflexivity).
  split; [exact H|].
  apply (proj1 (proj1 (X13_aggregation_completes_iff
                         Demo.sqrt Demo.fns Demo.fresh)) H).
  exact ssp245_in_scenarios.
Defined.

Lemma X14_witness :
  exists st' ds,
    aggregate Demo.sqrt Demo.fns Demo.fresh = Ok st' /\
    last (Demo.fns "ssp585") = Some ds /\
    year_var st' = Some (take (length (year ds) - 1) (year ds)).
Proof.
  destruct demo_aggregate as [st' H].
  destruct (X14_year_of_the_last_file _ _ _ _ H) as (ds & Hlast & Hyear).
  exists st', ds. split; [exact H|]. split; [exact Hlast | exact Hyear].
Defined.

Lemma runoff_is_a_quantity : "runoff" ∈ ["runoff"; "area"; "mass"].
Proof. left. Defined.

Lemma X15_witness :
  exists st' lmin lmean lmax d,
    aggregate Demo.sqrt Demo.fns Demo.fresh = Ok st' /\
    results st' !! "ssp245" = Some d /\
    d !! "min_runoff" = Some lmin /\ d !! "mean_runoff" = Some lmean /\
    d !! "max_runoff" = Some lmax /\
    length lmin = length lmean /\ length lmax = length lmean.
Proof.
  destruct demo_aggregate as [st' H].
  destruct (X15_mean_within_the_band
              _ _ _ _ "ssp245" "runoff" H ssp245_in_scenarios
              runoff_is_a_quantity)
    as (d & lmin & lmean & lmax & Hd & Hmin & Hmean & Hmax & H1 & H2 & _).
  exists st', lmin, lmean, lmax, d.
  split; [exact H|]. split; [exact Hd|]. split; [exact Hmin|].
  split; [exact Hmean|]. split; [exact Hmax|]. split; [exact H1 | exact H2].
Defined.

Lemma X16_witness :
  exists lines,
    period_averages Demo.sqrt Shorter.aggregated
    = (ScenarioLine "ssp245" :: lines,
       Some (ValueError "2100 is not in list")) /\
    length lines = 4%nat.
Proof.
  destruct (X16_period_cell_stops
              Demo.sqrt Shorter.aggregated
              (map (fun i => (2000 + Z.of_nat i)%Z) (seq 0 100))
              (default ∅ (results Shorter.aggregated !! "ssp245"))
              (default [] (results Shorter.aggregated !! "ssp245"
                           ≫= (.!! "mean_runoff")))
              [(2001, 2020); (2021, 2040); (2041, 2060); (2061, 2080)]%Z
              (2081, 2100)%Z [])
    as (lines & Hlines & Hall).
  - vm_compute. reflexivity.
  - vm_compute. reflexivity.
  - vm_compute. reflexivity.
  - reflexivity.
  - intros p Hp.
    repeat (apply elem_of_cons in Hp as [->|Hp]);
      [..|apply elem_of_nil in Hp; destruct Hp];
      (split; apply (bool_decide_unpack _); vm_compute; exact I).
  - right. apply (bool_decide_unpack _). vm_compute. exact I.
  - exists lines. split; [exact Hlines|].
    symmetry. apply (Forall2_length _ _ _ Hall).
Defined.

End EnsembleFacts.

(** ** The notebook of one glacier *)

Module SingleFacts.

Import Str StrFacts Mcmc Diagnostics Single MonadFacts NameFacts.

Lemma split_head sep a b :
  contains sep a = false ->
  exists rest, split sep (a +:+ String sep b) = a :: rest.
Proof.
  intros H. rewrite split_app_sep, (split_without _ _ H).
  by eexists.
Qed.

(** X17. The file that the notebook of one glacier opens is one that
    the regional notebook files under the same glacier: for
    [str(glac_no)] of the form [reg.frac], the path is
    [root/Output/calibration/] followed by [reg] filled with zeros to two
    characters, a slash and [reg.frac-modelprms_dict.json]; it ends as
    the regional glob requires, and the regional loop derives from it
    the key [reg.] followed by the first five characters of [frac] and
    what follows it in the name, which is [reg.frac] when [frac] has
    five characters. *)
Theorem X17_path_and_key_agree root reg frac :
  contains "/" reg = false -> contains "." reg = false ->
  contains "/" frac = false -> contains "." frac = false ->
  exists p,
    prms_path root (reg +:+ "." +:+ frac) = Ok p /\
    p = root +:+ "/Output/calibration/" +:+ zfill 2 reg +:+ "/"
        +:+ reg +:+ "." +:+ frac +:+ "-modelprms_dict.json" /\
    from_glob p /\
    glacno_of p = Ok (reg +:+ "." +:+ prefix 5 (frac +:+ "-modelprms_dict")) /\
    (String.length frac = 5%nat -> glacno_of p = Ok (reg +:+ "." +:+ frac)).
Proof.
  intros Hreg1 Hreg2 Hfrac1 Hfrac2.
  destruct (split_head "." reg frac Hreg2) as [rest Hsplit].
  eexists. split.
  { unfold prms_path, list_item.
    change ("." +:+ frac) with (String "." frac). rewrite Hsplit.
    cbn [lookup list_lookup bind]. reflexivity. }
  change (String "." frac) with ("." +:+ frac).
  assert (Hp : root +:+ "/Output/calibration/" +:+ zfill 2 reg +:+ "/"
               +:+ (reg +:+ "." +:+ frac) +:+ "-modelprms_dict.json"
             = (root +:+ "/Output/calibration/" +:+ zfill 2 reg) +:+ "/"
               +:+ reg +:+ "." +:+ frac +:+ "-modelprms_dict.json").
  { by rewrite !append_assoc. }
  split; [by rewrite !append_assoc|]. split.
  { eexists (root +:+ "/Output/calibration/" +:+ zfill 2 reg +:+ "/"
             +:+ (reg +:+ "." +:+ frac)).
    by rewrite !append_assoc. }
  rewrite Hp.
  assert (Hkey := glacno_of_name
                    (root +:+ "/Output/calibration/" +:+ zfill 2 reg)
                    reg frac Hreg1 Hreg2 Hfrac1 Hfrac2).
  split; [exact Hkey|].
  intros Hlen. rewrite Hkey, <- Hlen. by rewrite prefix_app.
Qed.

Lemma X17_witness :
  exists p,
    prms_path "/data" "1.15645" = Ok p /\
    p = "/data/Output/calibration/01/1.15645-modelprms_dict.json" /\
    glacno_of p = Ok "1.15645".
Proof.
  destruct (X17_path_and_key_agree "/data" "1" "15645")
    as (p & Hp & Heq & _ & _ & Hkey); [reflexivity..|].
  exists p. split; [exact Hp|]. split; [exact Heq|]. by apply Hkey.
Defined.

(** X18. The warnings of the loading cell are exact and do not stop
    the notebook: when the file can be parsed the cell prints one line
    and binds [prms]; the line says proceed exactly when the plotting
    cell will find [prms['MCMC']], and after the warning that the
    parameters are not found, that read raises [KeyError]; when the file
    does not exist the cell prints its warning, leaves [prms] as it was,
    and in a fresh kernel the plotting cell raises [NameError]. *)
Theorem X18_loading_warnings glac_no file k k' :
  load_cell glac_no file k = Ok k' ->
  (exists line, printed k' = printed k ++ [line]) /\
  (forall d, file = Some (Ok d) ->
     prms k' = Some d /\
     (is_ok (mcmc_of k') = true <->
      printed k' = printed k ++ ["MCMC calibration parameters found for "
                                 +:+ glac_no +:+ ", proceed!"]) /\
     (is_ok (mcmc_of k') = false -> mcmc_of k' = Raise (KeyError "MCMC"))) /\
  (file = None ->
     prms k' = prms k /\
     (prms k = None -> mcmc_of k' = Raise (NameError "prms"))).
Proof.
  intros H. destruct file as [[d|e]|]; simpl in H; [| done |].
  - case_bool_decide as Hin; injection H as <-.
    + split; [by eexists|]. split; [|done].
      intros d' [= <-]. split; [done|].
      apply elem_of_dom in Hin as [v Hv].
      unfold mcmc_of, getitem. cbn [prms print]. rewrite Hv. simpl.
      split; [|done]. split; done.
    + split; [by eexists|]. split; [|done].
      intros d' [= <-]. split; [done|].
      apply not_elem_of_dom in Hin.
      unfold mcmc_of, getitem. cbn [prms print]. rewrite Hin. simpl.
      split; [|done]. split; [done|].
      intros Heq%app_inv_head. injection Heq as Heq. discriminate Heq.
  - injection H as <-. split; [by eexists|]. split; [done|].
    intros _. split; [done|]. intros Hnone. unfold mcmc_of. cbn [prms print].
    by rewrite Hnone.
Qed.

Lemma X18_witness :
  exists k',
    load_cell "1.15645" (Some (Ok {[ "MCMC" := PDict ∅ ]}))
              {| prms := None; printed := [] |} = Ok k' /\
    printed k' = ["MCMC calibration parameters found for 1.15645, proceed!"] /\
    prms k' = Some {[ "MCMC" := PDict ∅ ]} /\
    is_ok (mcmc_of k') = true.
Proof.
  assert (H : load_cell "1.15645" (Some (Ok {[ "MCMC" := PDict ∅ ]}))
                        {| prms := None; printed := [] |}
              = Ok {| prms := Some {[ "MCMC" := PDict ∅ ]};
                      printed := ["MCMC calibration parameters found for 1.15645, proceed!"] |})
    by (vm_compute; reflexivity).
  destruct (X18_loading_warnings _ _ _ _ H) as (_ & Hfile & _).
  destruct (Hfile _ eq_refl) as (Hprms & Hiff & _).
  eexists. split; [exact H|]. split; [reflexivity|].
  split; [exact Hprms|]. apply Hiff. reflexivity.
Defined.

(** X19. The bounds handed to [truncnorm] do not depend on the
    scaling by 1000 (in exact arithmetic): they are [(low - mu) / sigma]
    and [(high - mu) / sigma], so that [mean + a * std_dev] is the lower
    bound again; they are ordered as [low] and [high] are when [sigma] is
    positive; a zero [sigma] raises [ZeroDivisionError]. *)
Theorem X19_truncnorm_bounds mu sigma low high :
  (trunc_bounds mu sigma low high = ZeroDivisionError <-> (sigma == 0)%Q) /\
  (forall a b,
     trunc_bounds mu sigma low high = Done (a, b) ->
     (a == (low - mu) / sigma)%Q /\ (b == (high - mu) / sigma)%Q /\
     (mu * 1000 + a * (sigma * 1000) == low * 1000)%Q /\
     (mu * 1000 + b * (sigma * 1000) == high * 1000)%Q /\
     ((0 < sigma)%Q -> (low <= high)%Q -> (a <= b)%Q)).
Proof.
  unfold trunc_bounds.
  destruct (Qeq_bool (sigma * 1000) 0) eqn:Hz.
  - apply Qeq_bool_eq in Hz. split; [|done]. split; [|done]. intros _.
    apply (Qmult_integral_l 1000); [done|]. by rewrite Qmult_comm.
  - apply Qeq_bool_neq in Hz.
    assert (Hs : ~ (sigma == 0)%Q).
    { intros E. apply Hz. by rewrite E. }
    split; [split; [done|by intros ?]|].
    intros a b [= <- <-]. rewrite !Qred_correct.
    split; [by field|]. split; [by field|].
    split; [by field|]. split; [by field|].
    intros Hpos Hle.
    assert (Hpos' : (0 < sigma * 1000)%Q).
    { apply Qmult_lt_0_compat; [done|reflexivity]. }
    apply Qle_shift_div_l; [done|].
    unfold Qdiv. rewrite <- Qmult_assoc, (Qmult_comm (/ _)), Qmult_inv_r by done.
    rewrite Qmult_1_r. apply Qplus_le_l. by apply Qmult_le_compat_r.
Qed.

Lemma X19_witness :
  trunc_bounds (41 # 10000) (15 # 10000) 0 (1 # 100)
  = Done (- 41 # 15, 59 # 15)%Q /\
  ((41 # 10000) * 1000 + (- 41 # 15) * ((15 # 10000) * 1000) == 0 * 1000)%Q.
Proof.
  assert (H : trunc_bounds (41 # 10000) (15 # 10000) 0 (1 # 100)
              = Done (- 41 # 15, 59 # 15)%Q) by (vm_compute; reflexivity).
  split; [exact H|].
  destruct (X19_truncnorm_bounds (41 # 10000) (15 # 10000) 0 (1 # 100))
    as [_ Hb].
  destruct (Hb _ _ H) as (_ & _ & Hlow & _).
  exact Hlow.
Defined.

End SingleFacts.
